(** * mcp-postgres-server: the query-safety gate, the pagination rewriter,
      the connection lifecycle and the bounded executor

    A shallow embedding of [src/security.ts], [src/database.ts],
    [src/tools/query-tool.ts], [src/logger.ts], [src/config.ts], the
    configuration part of [src/ssh-tunnel.ts] and the two catalogue tools,
    with the properties of the design document stated and proved over it.

    Modelling conventions.
    - A JavaScript string is a Stdlib [string]: a sequence of code units.  The
      code units of the model are the 8-bit ones (U+0000 to U+00FF); [length]
      counts code units, as [String.prototype.length] does.
    - The regular expressions of the source are written out as scanners over
      the string, each one next to the expression it stands for.
    - Numbers that the source formats into statements are integers ([Z]),
      printed in decimal the way [Number.prototype.toString] prints a safe
      integer.  The limit and the offset of a request are whole numbers
      in [QueryTool]; [Numeric] repeats the pagination rewriter and the tool
      over JavaScript numbers.
    - Logging: the records of the executor are kept beside its result.  The
      calls the gate makes to the logger do not influence any result; they
      are written out in [WithLogger], which repeats the gate and the query
      tool with them. *)

From Stdlib Require Import Bool Arith NArith ZArith Lia List.
From Stdlib Require Import Ascii String DecimalString DecimalPos.
From Stdlib Require QArith Qround.
Import ListNotations.

Local Open Scope string_scope.

(* ------------------------------------------------------------------ *)
(** ** JavaScript string primitives used by the source *)

Module Js.

Definition charCode (c : ascii) : N := N_of_ascii c.

(** The class [\s] of a regular expression, and the characters removed by
    [String.prototype.trim]: TAB, LF, VT, FF, CR, SPACE and NBSP are the
    members below U+0100. *)
Definition isWhiteSpace (c : ascii) : bool :=
  let n := charCode c in
  ((9 <=? n) && (n <=? 13) || (n =? 32) || (n =? 160))%N.

(** The complement of the class [[^\n\r]]. *)
Definition isLineBreak (c : ascii) : bool :=
  let n := charCode c in ((n =? 10) || (n =? 13))%N.

(** The class [\d]. *)
Definition isDigit (c : ascii) : bool :=
  let n := charCode c in ((48 <=? n) && (n <=? 57))%N.

Definition isUpper (c : ascii) : bool :=
  let n := charCode c in ((65 <=? n) && (n <=? 90))%N.

Definition isLower (c : ascii) : bool :=
  let n := charCode c in ((97 <=? n) && (n <=? 122))%N.

(** The class [\w], which decides the assertion [\b]. *)
Definition isWordChar (c : ascii) : bool :=
  isDigit c || isUpper c || isLower c || (charCode c =? 95)%N.

(** Upper-casing of one code unit.  On the letters a-z this is
    [toUpperCase]; it is also the canonicalisation that an [/i] expression
    applies before it compares a character with an ASCII letter of the
    pattern.  The only consumers of [toUpperCase] are the tests
    [startsWith('SELECT')] and [startsWith('WITH')], which succeed on ASCII
    letters alone (no other code unit below U+0100 has an upper-case form
    that starts one of the two words), so other code units are left as they
    are. *)
Definition toUpperChar (c : ascii) : ascii :=
  if isLower c then ascii_of_N (charCode c - 32) else c.

Fixpoint toUpperCase (s : string) : string :=
  match s with
  | EmptyString => EmptyString
  | String c r => String (toUpperChar c) (toUpperCase r)
  end.

(** [s.length] *)
Definition strLength (s : string) : Z := Z.of_nat (String.length s).

(** [s.startsWith(p)] *)
Fixpoint startsWith (s p : string) {struct p} : bool :=
  match p with
  | EmptyString => true
  | String a p' =>
      match s with
      | EmptyString => false
      | String b s' => Ascii.eqb a b && startsWith s' p'
      end
  end.

(** [s.trimStart()] *)
Fixpoint trimStart (s : string) : string :=
  match s with
  | EmptyString => EmptyString
  | String c r => if isWhiteSpace c then trimStart r else s
  end.

(** [s.trimEnd()] *)
Fixpoint trimEnd (s : string) : string :=
  match s with
  | EmptyString => EmptyString
  | String c r =>
      match trimEnd r with
      | EmptyString => if isWhiteSpace c then EmptyString else String c EmptyString
      | r' => String c r'
      end
  end.

(** [s.trim()] *)
Definition trim (s : string) : string := trimEnd (trimStart s).

(** [String(n)] for an integer [n]. *)
Definition numberToString (n : Z) : string :=
  NilEmpty.string_of_int (Z.to_int n).

(** [s.includes(p)] *)
Fixpoint includes (s p : string) : bool :=
  startsWith s p ||
  match s with
  | EmptyString => false
  | String _ r => includes r p
  end.

(** [s] without its first character. *)
Definition trimOne (s : string) : string :=
  match s with
  | EmptyString => EmptyString
  | String _ r => r
  end.

(** First character tests used by the scanners. *)
Definition headIs (p : ascii -> bool) (s : string) : bool :=
  match s with
  | EmptyString => false
  | String c _ => p c
  end.

(** Case-insensitive match of the literal [pat] at the start of [s]:
    the rest of [s] behind the match, if there is one. *)
Fixpoint matchPrefixCI (pat s : string) : option string :=
  match pat with
  | EmptyString => Some s
  | String p pat' =>
      match s with
      | EmptyString => None
      | String c r =>
          if Ascii.eqb (toUpperChar c) (toUpperChar p)
          then matchPrefixCI pat' r else None
      end
  end.

(** [\s+] followed by something that does not start with white space:
    one white-space character, then the rest of the run, then [k]. *)
Definition afterSpaces1 (k : string -> bool) (s : string) : bool :=
  match s with
  | EmptyString => false
  | String c r => isWhiteSpace c && k (trimStart r)
  end.

(** [re.test(s)] for an expression without the sticky flag: the expression
    is tried at every position from left to right.  [matchAt prevWord t] says
    whether it matches at the position where [t] starts, [prevWord] telling
    whether the character before that position is a word character. *)
Fixpoint regexSearch (matchAt : bool -> string -> bool)
         (prevWord : bool) (s : string) : bool :=
  matchAt prevWord s ||
  match s with
  | EmptyString => false
  | String c r => regexSearch matchAt (isWordChar c) r
  end.

Definition regexTest (matchAt : bool -> string -> bool) (s : string) : bool :=
  regexSearch matchAt false s.

End Js.

(* ------------------------------------------------------------------ *)
(** ** src/security.ts *)

Module Security.
Import Js.

Definition BLOCKED_KEYWORDS : list string :=
  [ "INSERT"; "UPDATE"; "DELETE"; "DROP"; "ALTER"; "CREATE";
    "TRUNCATE"; "REPLACE"; "MERGE"; "GRANT"; "REVOKE";
    "EXEC"; "EXECUTE"; "CALL"; "COPY"; "IMPORT" ].

Record ValidationResult := {
  isValid : bool;
  error : option string
}.

Definition valid : ValidationResult := {| isValid := true; error := None |}.
Definition invalid (msg : string) : ValidationResult :=
  {| isValid := false; error := Some msg |}.

(** [normalized.replace(/--[^\n\r]*/g, ' ')].  At a [--] the replacement is
    written and the scanner drops characters up to the next line break (the
    second dash is the first character dropped). *)
Fixpoint removeLineComments (inComment : bool) (s : string) : string :=
  match s with
  | EmptyString => EmptyString
  | String c r =>
      if inComment then
        if isLineBreak c then String c (removeLineComments false r)
        else removeLineComments true r
      else if Ascii.eqb c "-" && headIs (Ascii.eqb "-") r
           then String " " (removeLineComments true r)
           else String c (removeLineComments false r)
  end.

(** Does [*/] occur in [s]? *)
Fixpoint hasClose (s : string) : bool :=
  match s with
  | EmptyString => false
  | String c r => Ascii.eqb c "*" && headIs (Ascii.eqb "/") r || hasClose r
  end.

(** [normalized.replace(/\/\*[\s\S]*?\*\//g, ' ')].  A [/*] opens a match
    only when a [*/] follows it; the lazy body ends at the first one.  Inside
    a match ([inComment]) characters are dropped up to and including that
    [*/]. *)
Fixpoint removeBlockComments (inComment : bool) (s : string) : string :=
  match s with
  | EmptyString => EmptyString
  | String c r =>
      match r with
      | EmptyString => if inComment then EmptyString else s
      | String d r' =>
          if inComment then
            if Ascii.eqb c "*" && Ascii.eqb d "/"
            then removeBlockComments false r'
            else removeBlockComments true r
          else if Ascii.eqb c "/" && Ascii.eqb d "*" && hasClose r'
               then String " " (removeBlockComments true r')
               else String c (removeBlockComments false r)
      end
  end.

(** [normalized.replace(/\s+/g, ' ')]: [inRun] tells that the previous
    character belonged to the run already replaced. *)
Fixpoint collapseWhitespace (inRun : bool) (s : string) : string :=
  match s with
  | EmptyString => EmptyString
  | String c r =>
      if isWhiteSpace c then
        if inRun then collapseWhitespace true r
        else String " " (collapseWhitespace true r)
      else String c (collapseWhitespace false r)
  end.

Definition normalizeQuery (sql : string) : string :=
  let normalized := sql in
  let normalized := removeLineComments false normalized in
  let normalized := removeBlockComments false normalized in
  let normalized := collapseWhitespace false normalized in
  let normalized := trim normalized in
  normalized.

(** [new RegExp(`\\b${keyword}\\b`, 'i')].  Every keyword starts and ends
    with a letter, so [\b] in front holds when the previous character is not
    a word character (or there is none), and [\b] behind when the next one is
    not (or there is none). *)
Definition keywordAt (keyword : string) (prevWord : bool) (s : string) : bool :=
  negb prevWord &&
  match matchPrefixCI keyword s with
  | Some rest => negb (headIs isWordChar rest)
  | None => false
  end.

Definition testKeyword (keyword s : string) : bool :=
  regexTest (keywordAt keyword) s.

(** [/;\s*(INSERT|UPDATE|DELETE|DROP|ALTER|CREATE|TRUNCATE)/i] *)
Definition stackedWriteAt (_ : bool) (s : string) : bool :=
  match s with
  | EmptyString => false
  | String c r =>
      Ascii.eqb c ";" &&
      existsb (fun kw => match matchPrefixCI kw (trimStart r) with
                         | Some _ => true | None => false end)
              [ "INSERT"; "UPDATE"; "DELETE"; "DROP"; "ALTER"; "CREATE";
                "TRUNCATE" ]
  end.

(** [/INTO\s+OUTFILE/i] and [/LOAD\s+DATA/i] *)
Definition twoWordsAt (w1 w2 : string) (_ : bool) (s : string) : bool :=
  match matchPrefixCI w1 s with
  | Some rest =>
      afterSpaces1 (fun t => match matchPrefixCI w2 t with
                             | Some _ => true | None => false end) rest
  | None => false
  end.

Definition BLOCKED_PATTERNS : list (bool -> string -> bool) :=
  [ stackedWriteAt; twoWordsAt "INTO" "OUTFILE"; twoWordsAt "LOAD" "DATA" ].

(** The loop over [BLOCKED_KEYWORDS]: the first keyword of the list whose
    expression matches. *)
Definition firstBlockedKeyword (normalizedSql : string) : option string :=
  find (fun keyword => testKeyword keyword normalizedSql) BLOCKED_KEYWORDS.

Definition matchesBlockedPattern (normalizedSql : string) : bool :=
  existsb (fun pattern => regexTest pattern normalizedSql) BLOCKED_PATTERNS.

Definition keywordError (keyword : string) : string :=
  "Blocked keyword detected: " ++ keyword ++
  ". Only read-only SELECT queries are allowed".

Definition startError : string :=
  "Only SELECT queries are allowed. Query must start with SELECT or WITH (for CTEs)".

Definition patternError : string :=
  "Query contains blocked pattern. Only read-only SELECT queries are allowed".

Definition validateReadOnlyQuery (sql : string) : ValidationResult :=
  if String.eqb sql "" then invalid "SQL query must be a non-empty string"
  else
    let normalizedSql := normalizeQuery sql in
    if (strLength normalizedSql =? 0)%Z
    then invalid "SQL query cannot be empty"
    else
      let upperSql := toUpperCase normalizedSql in
      if negb (startsWith upperSql "SELECT") && negb (startsWith upperSql "WITH")
      then invalid startError
      else
        match firstBlockedKeyword normalizedSql with
        | Some keyword => invalid (keywordError keyword)
        | None =>
            if matchesBlockedPattern normalizedSql
            then invalid patternError
            else valid
        end.

Module QUERY_LIMITS.
Definition MAX_ROWS : Z := 1000.
Definition TIMEOUT_MS : Z := 30000.
Definition MAX_QUERY_LENGTH : Z := 10000.
End QUERY_LIMITS.

Definition lengthError : string :=
  "Query exceeds maximum length of " ++
  numberToString QUERY_LIMITS.MAX_QUERY_LENGTH ++ " characters".

Definition validateQueryLength (sql : string) : ValidationResult :=
  if (strLength sql >? QUERY_LIMITS.MAX_QUERY_LENGTH)%Z
  then invalid lengthError
  else valid.

(** [validateQuery] declares the single parameter [sql]. *)
Definition validateQuery (sql : string) : ValidationResult :=
  let lengthResult := validateQueryLength sql in
  if negb (isValid lengthResult) then lengthResult
  else
    let readOnlyResult := validateReadOnlyQuery sql in
    if negb (isValid readOnlyResult) then readOnlyResult
    else valid.

End Security.

(* ------------------------------------------------------------------ *)
(** ** src/database.ts *)

Module Database.
Import Js Security.

Record DatabaseConfig := {
  host : string;
  port : Z;
  database : string;
  username : string;
  password : string;
  maxConnections : Z;
  insecure : bool
}.

Record SSHTunnel := { localPort : Z }.

(** The handle returned by [postgres({...})], identified by its options. *)
Record Pool := {
  poolHost : string;
  poolPort : Z;
  poolDatabase : string;
  poolUsername : string;
  poolPassword : string;
  poolMax : Z
}.

(** What a call either returns or throws. *)
Inductive Completion (A : Type) : Type :=
| Returns (value : A)
| Throws (message : string).
Arguments Returns {A} value.
Arguments Throws {A} message.

Inductive PromiseState :=
| Pending
| Fulfilled
| Rejected (message : string).

(** The module-level variables.  [initResolve] and [initReject] are the two
    capabilities of [initPromise] and live and die with it, so the promise's
    state stands for the three of them. *)
Record State := {
  connectionPool : option Pool;
  isInitialized : bool;
  sshTunnel : option SSHTunnel;
  insecureMode : bool;
  initPromise : option PromiseState
}.

Definition initialState : State :=
  {| connectionPool := None; isInitialized := false; sshTunnel := None;
     insecureMode := false; initPromise := None |}.

(** Settling a promise a second time does nothing. *)
Definition resolvePromise (p : option PromiseState) : option PromiseState :=
  match p with
  | Some Pending => Some Fulfilled
  | other => other
  end.

Definition rejectPromise (p : option PromiseState) (message : string)
  : option PromiseState :=
  match p with
  | Some Pending => Some (Rejected message)
  | other => other
  end.

(** What the outside world answers during one [initializeDatabase]. *)
Record InitEnv := {
  tunnelOutcome : Completion (option SSHTunnel);
  configOutcome : Completion DatabaseConfig;
  probeOutcome : Completion unit
}.

Definition initFailure (st : State) (message : string) : State * Completion unit :=
  let initError := "Failed to initialize database connection: " ++ message in
  ({| connectionPool := connectionPool st;
      isInitialized := isInitialized st;
      sshTunnel := None;
      insecureMode := insecureMode st;
      initPromise := rejectPromise (initPromise st) initError |},
   Throws initError).

Definition initializeDatabase (env : InitEnv) (st : State)
  : State * Completion unit :=
  if isInitialized st then (st, Returns tt)
  else
    let st :=
      {| connectionPool := connectionPool st;
         isInitialized := isInitialized st;
         sshTunnel := sshTunnel st;
         insecureMode := insecureMode st;
         initPromise := match initPromise st with
                        | None => Some Pending
                        | Some p => Some p
                        end |} in
    match tunnelOutcome env with
    | Throws message => initFailure st message
    | Returns tunnel =>
        let st :=
          {| connectionPool := connectionPool st;
             isInitialized := isInitialized st;
             sshTunnel := tunnel;
             insecureMode := insecureMode st;
             initPromise := initPromise st |} in
        match configOutcome env with
        | Throws message => initFailure st message
        | Returns config =>
            let dbHost := match tunnel with
                          | Some _ => "127.0.0.1"
                          | None => host config
                          end in
            let dbPort := match tunnel with
                          | Some t => localPort t
                          | None => port config
                          end in
            let st :=
              {| connectionPool :=
                   Some {| poolHost := dbHost; poolPort := dbPort;
                           poolDatabase := database config;
                           poolUsername := username config;
                           poolPassword := password config;
                           poolMax := maxConnections config |};
                 isInitialized := isInitialized st;
                 sshTunnel := sshTunnel st;
                 insecureMode := insecure config;
                 initPromise := initPromise st |} in
            match probeOutcome env with
            | Throws message => initFailure st message
            | Returns _ =>
                ({| connectionPool := connectionPool st;
                    isInitialized := true;
                    sshTunnel := sshTunnel st;
                    insecureMode := insecureMode st;
                    initPromise := resolvePromise (initPromise st) |},
                 Returns tt)
            end
        end
    end.

Definition getDatabase (st : State) : Completion Pool :=
  match connectionPool st with
  | Some pool =>
      if isInitialized st then Returns pool
      else Throws "Database not initialized. Call initializeDatabase() first"
  | None => Throws "Database not initialized. Call initializeDatabase() first"
  end.

(** [waitForDatabase] up to its only suspension point: it returns or throws
    before awaiting anything, or it goes on to await the race between
    [initPromise] and the timer. *)
Inductive WaitStep :=
| ReturnsNow (pool : Pool)
| ThrowsNow (message : string)
| AwaitsRace.

Definition notStartedError : string :=
  "Database initialization not started. Call initializeDatabase() first".

Definition waitForDatabase (st : State) : WaitStep :=
  match isInitialized st, connectionPool st with
  | true, Some pool => ReturnsNow pool
  | _, _ =>
      match initPromise st with
      | None => ThrowsNow notStartedError
      | Some _ => AwaitsRace
      end
  end.

(** How the race settles, and what [waitForDatabase] does behind the
    [await], in the state the module has by then. *)
Inductive RaceWinner :=
| InitFulfilled
| InitRejected (message : string)
| TimerFired.

Definition timeoutError (timeoutMs : Z) : string :=
  "Database initialization timeout after " ++ numberToString timeoutMs ++ "ms".

Definition poolUnavailableError : string :=
  "Database initialization completed but connection pool is not available".

Definition waitForDatabaseSettled (timeoutMs : Z) (winner : RaceWinner)
           (st : State) : Completion Pool :=
  match winner with
  | InitFulfilled =>
      match connectionPool st with
      | Some pool => Returns pool
      | None => Throws poolUnavailableError
      end
  | InitRejected message => Throws message
  | TimerFired => Throws (timeoutError timeoutMs)
  end.

Definition closeDatabase (st : State) : State :=
  let st :=
    match connectionPool st with
    | Some _ =>
        {| connectionPool := None; isInitialized := false;
           sshTunnel := sshTunnel st; insecureMode := insecureMode st;
           initPromise := initPromise st |}
    | None => st
    end in
  match sshTunnel st with
  | Some _ =>
      {| connectionPool := connectionPool st; isInitialized := isInitialized st;
         sshTunnel := None; insecureMode := insecureMode st;
         initPromise := initPromise st |}
  | None => st
  end.

Definition isDatabaseReady (st : State) : bool :=
  isInitialized st &&
  match connectionPool st with Some _ => true | None => false end.

Definition isInsecureMode (st : State) : bool := insecureMode st.

(** The calls a client of the module can make, and the module state after a
    sequence of them. *)
Inductive Call :=
| CallInitialize (env : InitEnv)
| CallGet
| CallWait
| CallIsReady
| CallClose.

Definition isInitializeCall (c : Call) : bool :=
  match c with CallInitialize _ => true | _ => false end.

Definition stateAfter (st : State) (c : Call) : State :=
  match c with
  | CallInitialize env => fst (initializeDatabase env st)
  | CallClose => closeDatabase st
  | CallGet | CallWait | CallIsReady => st
  end.

Definition run (calls : list Call) : State :=
  fold_left stateAfter calls initialState.

Section Executor.

Variable Row : Type.

(** The value a settled driver call carries: an array of rows, or anything
    else. *)
Inductive DriverValue :=
| RowArray (rows : list Row)
| NotAnArray.

(** [Promise.race([queryPromise, timeoutPromise])] *)
Inductive RaceOutcome :=
| QueryResolved (results : DriverValue)
| QueryRejected (message : string)
| TimeoutFirst.

Inductive LogRecord :=
| LogExecuting (queryLength : Z) (preview : string)
| LogLimitApplied (originalRowCount limitedRowCount : Z) (duration : Z)
| ConsoleLimit (returned limit : Z)
| LogExecuted (rowCount : Z) (duration : Z)
| LogFailed (message : string) (duration : Z) (queryLength : Z).

Definition rowsLength (rows : list Row) : Z := Z.of_nat (List.length rows).

(** [rows.slice(0, n)] *)
Definition slice0 (rows : list Row) (n : Z) : list Row :=
  firstn (Z.to_nat n) rows.

Definition queryTimeoutError : string :=
  "Query timeout: exceeded " ++ numberToString QUERY_LIMITS.TIMEOUT_MS ++ "ms".

(** [unsafe pool query] is how the race of [db.unsafe(query)] against the
    timer ends; [duration] is the time the clock shows afterwards. *)
Definition executeQuery (st : State) (unsafe : Pool -> string -> RaceOutcome)
           (duration : Z) (query : string)
  : Completion (list Row) * list LogRecord :=
  match getDatabase st with
  | Throws message => (Throws message, [])
  | Returns db =>
      let started :=
        LogExecuting (strLength query)
          (substring 0 100 query ++
           (if (strLength query >? 100)%Z then "..." else "")) in
      let failed message :=
        (Throws ("Query execution failed: " ++ message),
         [started; LogFailed message duration (strLength query)]) in
      match unsafe db query with
      | QueryRejected message => failed message
      | TimeoutFirst => failed queryTimeoutError
      | QueryResolved NotAnArray => (Returns [], [started; LogExecuted 0 duration])
      | QueryResolved (RowArray results) =>
          if (rowsLength results >? QUERY_LIMITS.MAX_ROWS)%Z then
            (Returns (slice0 results QUERY_LIMITS.MAX_ROWS),
             [started;
              LogLimitApplied (rowsLength results) QUERY_LIMITS.MAX_ROWS duration;
              ConsoleLimit (rowsLength results) QUERY_LIMITS.MAX_ROWS])
          else
            (Returns results,
             [started; LogExecuted (rowsLength results) duration])
      end
  end.

End Executor.

Arguments RowArray {Row} rows.
Arguments NotAnArray {Row}.
Arguments QueryResolved {Row} results.
Arguments QueryRejected {Row} message.
Arguments TimeoutFirst {Row}.
Arguments rowsLength {Row} rows.
Arguments slice0 {Row} rows n.
Arguments executeQuery {Row} st unsafe duration query.

Section ParameterizedExecutor.

Variables Row Param : Type.

(** [executeParameterizedQuery(strings, ...values)]: [tagged pool strings
    values] is how the race of [db(strings, ...values)] against the timer
    ends.  Only the console line of the row limit is written here. *)
Definition executeParameterizedQuery (st : State)
           (tagged : Pool -> list string -> list Param -> RaceOutcome Row)
           (strings : list string) (values : list Param)
  : Completion (list Row) * list LogRecord :=
  match getDatabase st with
  | Throws message => (Throws message, [])
  | Returns db =>
      match tagged db strings values with
      | QueryRejected message =>
          (Throws ("Query execution failed: " ++ message), [])
      | TimeoutFirst =>
          (Throws ("Query execution failed: " ++ queryTimeoutError), [])
      | QueryResolved NotAnArray => (Returns [], [])
      | QueryResolved (RowArray results) =>
          if (rowsLength results >? QUERY_LIMITS.MAX_ROWS)%Z then
            (Returns (slice0 results QUERY_LIMITS.MAX_ROWS),
             [ConsoleLimit (rowsLength results) QUERY_LIMITS.MAX_ROWS])
          else (Returns results, [])
      end
  end.

End ParameterizedExecutor.

Arguments executeParameterizedQuery {Row Param} st tagged strings values.

End Database.

(* ------------------------------------------------------------------ *)
(** ** src/tools/query-tool.ts

    The tool as it stands with pagination: [limit] and [offset] in the input,
    [pagination] in the result. *)

Module QueryTool.
Import Js Security Database.

(** [/\bLIMIT\s+\d+/i] and [/\bOFFSET\s+\d+/i]: the keyword on a word
    boundary, a run of white space, a digit. *)
Definition clauseAt (keyword : string) (prevWord : bool) (s : string) : bool :=
  negb prevWord &&
  match matchPrefixCI keyword s with
  | Some rest => afterSpaces1 (headIs isDigit) rest
  | None => false
  end.

Definition testClause (keyword s : string) : bool :=
  regexTest (clauseAt keyword) s.

(** [s.replace(/;$/, '')] *)
Fixpoint removeTrailingSemicolon (s : string) : string :=
  match s with
  | EmptyString => EmptyString
  | String c r =>
      match r with
      | EmptyString => if Ascii.eqb c ";" then EmptyString else s
      | String _ _ => String c (removeTrailingSemicolon r)
      end
  end.

Definition addPaginationToQuery (sql : string) (limit offset : Z) : string :=
  let trimmedSql := removeTrailingSemicolon (trim sql) in
  let hasLimit := testClause "LIMIT" trimmedSql in
  let hasOffset := testClause "OFFSET" trimmedSql in
  if hasLimit && hasOffset then trimmedSql
  else
    let paginatedSql := trimmedSql in
    let paginatedSql :=
      if negb hasLimit
      then paginatedSql ++ " LIMIT " ++ numberToString limit
      else paginatedSql in
    let paginatedSql :=
      if negb hasOffset && (offset >? 0)%Z
      then paginatedSql ++ " OFFSET " ++ numberToString offset
      else paginatedSql in
    paginatedSql.

Record QueryToolInput := {
  sql : string;
  limit : option Z;
  offset : option Z
}.

Record Pagination := {
  pgLimit : Z;
  pgOffset : Z;
  hasMore : bool
}.

Section Handler.

Variable Row : Type.

Record QueryToolResult := {
  success : bool;
  data : option (list Row);
  rowCount : option Z;
  error : option string;
  limitApplied : option bool;
  pagination : option Pagination
}.

Definition failure (message : string) : QueryToolResult :=
  {| success := false; data := None; rowCount := None;
     error := Some message; limitApplied := None; pagination := None |}.

Definition handleQueryTool (st : State) (unsafe : Pool -> string -> RaceOutcome Row)
           (duration : Z) (input : QueryToolInput)
  : QueryToolResult * list LogRecord :=
  if String.eqb (sql input) "" then
    (failure "Invalid input: sql parameter is required and must be a string", [])
  else
    let rawLimit := match limit input with
                    | Some l => l
                    | None => QUERY_LIMITS.MAX_ROWS
                    end in
    let rawOffset := match offset input with Some o => o | None => 0%Z end in
    if (rawLimit <=? 0)%Z then
      (failure "Invalid limit: must be greater than 0", [])
    else if (rawOffset <? 0)%Z then
      (failure "Invalid offset: must be greater than or equal to 0", [])
    else
      let limit := Z.min rawLimit QUERY_LIMITS.MAX_ROWS in
      let offset := rawOffset in
      (* [validateQuery(input.sql, isInsecureMode())]: the callee declares
         one parameter, the second argument is evaluated and dropped *)
      let validation :=
        (fun (sql : string) (_ : bool) => validateQuery sql)
          (sql input) (isInsecureMode st) in
      if negb (isValid validation) then
        ({| success := false; data := None; rowCount := None;
            error := Security.error validation;
            limitApplied := None; pagination := None |}, [])
      else
        let paginatedSql := addPaginationToQuery (sql input) (limit + 1) offset in
        match executeQuery st unsafe duration paginatedSql with
        | (Throws message, logs) => (failure message, logs)
        | (Returns results, logs) =>
            let hasMore := (rowsLength results >? limit)%Z in
            let data := if hasMore then slice0 results limit else results in
            ({| success := true;
                data := Some data;
                rowCount := Some (rowsLength data);
                error := None;
                limitApplied := Some (limit <? QUERY_LIMITS.MAX_ROWS)%Z;
                pagination := Some {| pgLimit := limit; pgOffset := offset;
                                      hasMore := hasMore |} |},
             logs)
        end.

End Handler.

Arguments success {Row} q.
Arguments data {Row} q.
Arguments rowCount {Row} q.
Arguments error {Row} q.
Arguments limitApplied {Row} q.
Arguments pagination {Row} q.
Arguments failure {Row} message.
Arguments handleQueryTool {Row} st unsafe duration input.

End QueryTool.

(* ------------------------------------------------------------------ *)
(** ** src/logger.ts *)

Module Logger.

Inductive LogLevel := DEBUG | INFO | WARN | ERROR.

(** [levels.indexOf(level)] for [levels = [DEBUG, INFO, WARN, ERROR]] *)
Definition levelIndex (level : LogLevel) : Z :=
  match level with
  | DEBUG => 0
  | INFO => 1
  | WARN => 2
  | ERROR => 3
  end.

(** [shouldLog(level)] of a logger whose minimum level is [minLevel] *)
Definition shouldLog (minLevel level : LogLevel) : bool :=
  let currentIndex := levelIndex minLevel in
  let messageIndex := levelIndex level in
  (messageIndex >=? currentIndex)%Z.

(** The values the gate puts into a context object. *)
Inductive ContextValue :=
| ContextString (value : string)
| ContextNumber (value : Z).

(** One call of [log(level, message, context)]; the time stamp is added when
    the entry is written. *)
Record LogCall := {
  level : LogLevel;
  message : string;
  context : option (list (string * ContextValue))
}.

Definition debug (text : string) (ctx : option (list (string * ContextValue)))
  : LogCall :=
  {| level := DEBUG; message := text; context := ctx |}.

Definition security (text : string) (ctx : option (list (string * ContextValue)))
  : LogCall :=
  {| level := WARN; message := "[SECURITY] " ++ text; context := ctx |}.

(** The calls that reach [console.error]: [log] returns early for the
    others. *)
Definition written (minLevel : LogLevel) (calls : list LogCall) : list LogCall :=
  filter (fun call => shouldLog minLevel (level call)) calls.

End Logger.

(* ------------------------------------------------------------------ *)
(** ** The gate and the query tool with their calls to the logger

    [validateQueryLength], [validateReadOnlyQuery], [validateQuery] and
    [handleQueryTool] once more, line by line, now with the logger calls of
    the gate written out beside the result. *)

Module WithLogger.
Import Js Security Database QueryTool Logger.

(** [pattern.toString()] for the members of [BLOCKED_PATTERNS], in order. *)
Definition patternSources : list string :=
  [ "/;\s*(INSERT|UPDATE|DELETE|DROP|ALTER|CREATE|TRUNCATE)/i";
    "/INTO\s+OUTFILE/i";
    "/LOAD\s+DATA/i" ].

(** The loop over [BLOCKED_PATTERNS]: the text of the first expression that
    matches. *)
Definition firstBlockedPattern (normalizedSql : string) : option string :=
  option_map fst
    (find (fun pattern => regexTest (snd pattern) normalizedSql)
          (combine patternSources BLOCKED_PATTERNS)).

Definition validateReadOnlyQuery (sql : string)
  : ValidationResult * list LogCall :=
  if String.eqb sql "" then
    (invalid "SQL query must be a non-empty string",
     [security "Query validation failed: invalid input type"
        (Some [("inputType", ContextString "string")])])
  else
    let normalizedSql := normalizeQuery sql in
    if (strLength normalizedSql =? 0)%Z then
      (invalid "SQL query cannot be empty",
       [security "Query validation failed: empty query after normalization"
          None])
    else
      let upperSql := toUpperCase normalizedSql in
      if negb (startsWith upperSql "SELECT") && negb (startsWith upperSql "WITH")
      then
        (invalid startError,
         [security "Query blocked: does not start with SELECT or WITH"
            (Some [("queryStart",
                    ContextString (substring 0 50 normalizedSql))])])
      else
        match firstBlockedKeyword normalizedSql with
        | Some keyword =>
            (invalid (keywordError keyword),
             [security "Query blocked: contains blocked keyword"
                (Some [("keyword", ContextString keyword);
                       ("queryPreview",
                        ContextString (substring 0 100 normalizedSql))])])
        | None =>
            match firstBlockedPattern normalizedSql with
            | Some pattern =>
                (invalid patternError,
                 [security "Query blocked: matches blocked pattern"
                    (Some [("pattern", ContextString pattern);
                           ("queryPreview",
                            ContextString (substring 0 100 normalizedSql))])])
            | None => (valid, [debug "Query validation passed" None])
            end
        end.

Definition validateQueryLength (sql : string)
  : ValidationResult * list LogCall :=
  if (strLength sql >? QUERY_LIMITS.MAX_QUERY_LENGTH)%Z
  then
    (invalid lengthError,
     [security "Query blocked: exceeds maximum length"
        (Some [("queryLength", ContextNumber (strLength sql));
               ("maxLength", ContextNumber QUERY_LIMITS.MAX_QUERY_LENGTH)])])
  else (valid, []).

Definition validateQuery (sql : string) : ValidationResult * list LogCall :=
  let (lengthResult, lengthCalls) := validateQueryLength sql in
  if negb (isValid lengthResult) then (lengthResult, lengthCalls)
  else
    let (readOnlyResult, readOnlyCalls) := validateReadOnlyQuery sql in
    if negb (isValid readOnlyResult)
    then (readOnlyResult, (lengthCalls ++ readOnlyCalls)%list)
    else (valid, (lengthCalls ++ readOnlyCalls)%list).

Section Handler.

Variable Row : Type.

(** The answer of the tool, the calls the gate made to the logger, and the
    records of the executor, which come after them. *)
Definition handleQueryTool (st : State) (unsafe : Pool -> string -> RaceOutcome Row)
           (duration : Z) (input : QueryToolInput)
  : QueryToolResult Row * (list LogCall * list LogRecord) :=
  if String.eqb (sql input) "" then
    (failure "Invalid input: sql parameter is required and must be a string",
     ([], []))
  else
    let rawLimit := match limit input with
                    | Some l => l
                    | None => QUERY_LIMITS.MAX_ROWS
                    end in
    let rawOffset := match offset input with Some o => o | None => 0%Z end in
    if (rawLimit <=? 0)%Z then
      (failure "Invalid limit: must be greater than 0", ([], []))
    else if (rawOffset <? 0)%Z then
      (failure "Invalid offset: must be greater than or equal to 0", ([], []))
    else
      let limit := Z.min rawLimit QUERY_LIMITS.MAX_ROWS in
      let offset := rawOffset in
      let (validation, calls) :=
        (fun (sql : string) (_ : bool) => validateQuery sql)
          (sql input) (isInsecureMode st) in
      if negb (isValid validation) then
        ({| success := false; data := None; rowCount := None;
            QueryTool.error := Security.error validation;
            limitApplied := None; pagination := None |}, (calls, []))
      else
        let paginatedSql := addPaginationToQuery (sql input) (limit + 1) offset in
        match executeQuery st unsafe duration paginatedSql with
        | (Throws message, logs) => (failure message, (calls, logs))
        | (Returns results, logs) =>
            let hasMore := (rowsLength results >? limit)%Z in
            let data := if hasMore then slice0 results limit else results in
            ({| success := true;
                data := Some data;
                rowCount := Some (rowsLength data);
                QueryTool.error := None;
                limitApplied := Some (limit <? QUERY_LIMITS.MAX_ROWS)%Z;
                pagination := Some {| pgLimit := limit; pgOffset := offset;
                                      hasMore := hasMore |} |},
             (calls, logs))
        end.

End Handler.

Arguments handleQueryTool {Row} st unsafe duration input.

End WithLogger.

(* ------------------------------------------------------------------ *)
(** ** The query tool over JavaScript numbers

    The [limit] and the [offset] of a request are JavaScript numbers: the
    rationals a double holds, the two infinities and NaN.  The source does
    not ask them to be whole.  [addPaginationToQuery] and [handleQueryTool]
    are written here once more, line by line, over such numbers.  [render]
    is the conversion of a number to text inside a template literal; the
    sum [limit + 1] is kept as it is before rounding, and is only ever
    rendered. *)

Module Numeric.
Import Js Security Database.

Inductive JsNumber :=
| Finite (q : QArith_base.Q)
| PlusInfinity
| MinusInfinity
| NaN.

Definition ofZ (z : Z) : JsNumber := Finite (QArith_base.inject_Z z).

(** [x < y] *)
Definition ltb (x y : JsNumber) : bool :=
  match x, y with
  | NaN, _ => false
  | _, NaN => false
  | Finite a, Finite b => negb (QArith_base.Qle_bool b a)
  | Finite _, PlusInfinity => true
  | Finite _, MinusInfinity => false
  | PlusInfinity, _ => false
  | MinusInfinity, MinusInfinity => false
  | MinusInfinity, _ => true
  end.

(** [x <= y] *)
Definition leb (x y : JsNumber) : bool :=
  match x, y with
  | NaN, _ => false
  | _, NaN => false
  | Finite a, Finite b => QArith_base.Qle_bool a b
  | Finite _, PlusInfinity => true
  | Finite _, MinusInfinity => false
  | PlusInfinity, PlusInfinity => true
  | PlusInfinity, _ => false
  | MinusInfinity, _ => true
  end.

(** [x > y] *)
Definition gtb (x y : JsNumber) : bool := ltb y x.

(** [Math.min(x, y)] *)
Definition min (x y : JsNumber) : JsNumber :=
  match x, y with
  | NaN, _ => NaN
  | _, NaN => NaN
  | _, _ => if ltb y x then y else x
  end.

(** [x + 1] *)
Definition plusOne (x : JsNumber) : JsNumber :=
  match x with
  | Finite q => Finite (QArith_base.Qplus q (QArith_base.inject_Z 1))
  | other => other
  end.

(** The integer a finite number is turned into where an index is expected:
    its fraction is dropped. *)
Definition truncate (q : QArith_base.Q) : Z :=
  if QArith_base.Qle_bool (QArith_base.inject_Z 0) q
  then Qround.Qfloor q else Qround.Qceiling q.

(** [rows.slice(0, upTo)] *)
Definition slice0 {Row : Type} (rows : list Row) (upTo : JsNumber) : list Row :=
  match upTo with
  | NaN => []
  | MinusInfinity => []
  | PlusInfinity => rows
  | Finite q =>
      let relativeEnd := truncate q in
      if (relativeEnd <? 0)%Z
      then firstn (Z.to_nat (Z.max (rowsLength rows + relativeEnd) 0)) rows
      else firstn (Z.to_nat (Z.min relativeEnd (rowsLength rows))) rows
  end.

Definition addPaginationToQuery (render : JsNumber -> string)
           (sql : string) (limit offset : JsNumber) : string :=
  let trimmedSql := QueryTool.removeTrailingSemicolon (trim sql) in
  let hasLimit := QueryTool.testClause "LIMIT" trimmedSql in
  let hasOffset := QueryTool.testClause "OFFSET" trimmedSql in
  if hasLimit && hasOffset then trimmedSql
  else
    let paginatedSql := trimmedSql in
    let paginatedSql :=
      if negb hasLimit
      then paginatedSql ++ " LIMIT " ++ render limit
      else paginatedSql in
    let paginatedSql :=
      if negb hasOffset && gtb offset (ofZ 0)
      then paginatedSql ++ " OFFSET " ++ render offset
      else paginatedSql in
    paginatedSql.

Record QueryToolInput := {
  sql : string;
  limit : option JsNumber;
  offset : option JsNumber
}.

Record Pagination := {
  pgLimit : JsNumber;
  pgOffset : JsNumber;
  hasMore : bool
}.

Section Handler.

Variable Row : Type.

Record QueryToolResult := {
  success : bool;
  data : option (list Row);
  rowCount : option Z;
  error : option string;
  limitApplied : option bool;
  pagination : option Pagination
}.

Definition failure (message : string) : QueryToolResult :=
  {| success := false; data := None; rowCount := None;
     error := Some message; limitApplied := None; pagination := None |}.

Definition handleQueryTool (render : JsNumber -> string) (st : State)
           (unsafe : Pool -> string -> RaceOutcome Row)
           (duration : Z) (input : QueryToolInput)
  : QueryToolResult * list LogRecord :=
  if String.eqb (sql input) "" then
    (failure "Invalid input: sql parameter is required and must be a string", [])
  else
    let rawLimit := match limit input with
                    | Some l => l
                    | None => ofZ QUERY_LIMITS.MAX_ROWS
                    end in
    let rawOffset := match offset input with Some o => o | None => ofZ 0 end in
    if leb rawLimit (ofZ 0) then
      (failure "Invalid limit: must be greater than 0", [])
    else if ltb rawOffset (ofZ 0) then
      (failure "Invalid offset: must be greater than or equal to 0", [])
    else
      let limit := min rawLimit (ofZ QUERY_LIMITS.MAX_ROWS) in
      let offset := rawOffset in
      let validation :=
        (fun (sql : string) (_ : bool) => validateQuery sql)
          (sql input) (isInsecureMode st) in
      if negb (isValid validation) then
        ({| success := false; data := None; rowCount := None;
            error := Security.error validation;
            limitApplied := None; pagination := None |}, [])
      else
        let paginatedSql :=
          addPaginationToQuery render (sql input) (plusOne limit) offset in
        match executeQuery st unsafe duration paginatedSql with
        | (Throws message, logs) => (failure message, logs)
        | (Returns results, logs) =>
            let hasMore := gtb (ofZ (rowsLength results)) limit in
            let data := if hasMore then slice0 results limit else results in
            ({| success := true;
                data := Some data;
                rowCount := Some (rowsLength data);
                error := None;
                limitApplied := Some (ltb limit (ofZ QUERY_LIMITS.MAX_ROWS));
                pagination := Some {| pgLimit := limit; pgOffset := offset;
                                      hasMore := hasMore |} |},
             logs)
        end.

End Handler.

Arguments success {Row} q.
Arguments data {Row} q.
Arguments rowCount {Row} q.
Arguments error {Row} q.
Arguments limitApplied {Row} q.
Arguments pagination {Row} q.
Arguments failure {Row} message.
Arguments handleQueryTool {Row} render st unsafe duration input.

End Numeric.

(* ------------------------------------------------------------------ *)
(** ** src/config.ts *)

Module Config.
Import Js Database.

(** [process.env]: a variable is unset or holds a string. *)
Definition Env := string -> option string.

(** [!process.env[name]]: unset, or set to the empty string. *)
Definition unset (env : Env) (name : string) : bool :=
  match env name with
  | None => true
  | Some value => String.eqb value ""
  end.

(** [process.env[name] || fallback] *)
Definition orDefault (env : Env) (name fallback : string) : string :=
  match env name with
  | None => fallback
  | Some value => if String.eqb value "" then fallback else value
  end.

(** [process.env[name]!] where the variable is known to be set. *)
Definition valueOf (env : Env) (name : string) : string :=
  match env name with
  | None => "undefined"
  | Some value => value
  end.

Definition digitValue (c : ascii) : Z := (Z.of_N (charCode c) - 48)%Z.

(** The integer denoted by the digits at the start of [s], behind [acc]. *)
Fixpoint leadingDigits (acc : Z) (s : string) : Z :=
  match s with
  | EmptyString => acc
  | String c r =>
      if isDigit c then leadingDigits (10 * acc + digitValue c)%Z r else acc
  end.

(** [parseInt(s, 10)]: leading white space is skipped, a sign is read, then
    the digits up to the first other character; [None] stands for [NaN].
    The result is the exact integer, as the source has it for every value
    below 2^53. *)
Definition parseInt10 (s : string) : option Z :=
  let t := trimStart s in
  let negative := headIs (Ascii.eqb "-") t in
  let body := if negative || headIs (Ascii.eqb "+") t then trimOne t else t in
  if headIs isDigit body
  then Some (if negative then Z.opp (leadingDigits 0 body)
             else leadingDigits 0 body)
  else None.

(** [list.join(sep)] *)
Fixpoint join (sep : string) (l : list string) : string :=
  match l with
  | [] => ""
  | [x] => x
  | x :: rest => x ++ sep ++ join sep rest
  end.

Definition requiredVars : list string :=
  [ "POSTGRES_HOST"; "POSTGRES_DATABASE"; "POSTGRES_USER"; "POSTGRES_PASSWORD" ].

Definition missingError (missing : list string) : string :=
  "Missing required environment variables: " ++ join ", " missing ++
  String (ascii_of_nat 10)
    "Please configure these in your .mcp.json file or .env file".

Definition invalidPortError (env : Env) : string :=
  "Invalid POSTGRES_PORT: " ++ valueOf env "POSTGRES_PORT" ++
  ". Must be between 1 and 65535".

Definition invalidMaxConnectionsError (env : Env) : string :=
  "Invalid POSTGRES_MAX_CONNECTIONS: " ++ valueOf env "POSTGRES_MAX_CONNECTIONS" ++
  ". Must be at least 1".

Definition loadDatabaseConfig (env : Env) : Completion DatabaseConfig :=
  let missing := filter (unset env) requiredVars in
  if negb (Nat.eqb (List.length missing) 0) then Throws (missingError missing)
  else
    let port := parseInt10 (orDefault env "POSTGRES_PORT" "5432") in
    let maxConnections :=
      parseInt10 (orDefault env "POSTGRES_MAX_CONNECTIONS" "10") in
    let insecure :=
      match env "POSTGRES_INSECURE" with
      | Some value => String.eqb value "true"
      | None => false
      end in
    match port with
    | None => Throws (invalidPortError env)
    | Some port =>
        if (port <? 1)%Z || (port >? 65535)%Z then Throws (invalidPortError env)
        else
          match maxConnections with
          | None => Throws (invalidMaxConnectionsError env)
          | Some maxConnections =>
              if (maxConnections <? 1)%Z
              then Throws (invalidMaxConnectionsError env)
              else
                Returns {| host := valueOf env "POSTGRES_HOST";
                           port := port;
                           database := valueOf env "POSTGRES_DATABASE";
                           username := valueOf env "POSTGRES_USER";
                           password := valueOf env "POSTGRES_PASSWORD";
                           maxConnections := maxConnections;
                           insecure := insecure |}
          end
    end.

Definition getConnectionUrl (config : DatabaseConfig) : string :=
  "postgres://" ++ username config ++ ":" ++ password config ++ "@" ++
  host config ++ ":" ++ numberToString (port config) ++ "/" ++ database config.

End Config.

(* ------------------------------------------------------------------ *)
(** ** src/ssh-tunnel.ts: the configuration of the tunnel *)

Module SshTunnel.
Import Js Database Config.

(** [port] is checked by the loader; [targetPort] and [localPort] are stored
    as parsed, [None] standing for [NaN]. *)
Record SSHTunnelConfig := {
  enabled : bool;
  sshHost : string;
  sshPort : Z;
  sshUsername : string;
  sshPassword : option string;
  privateKeyPath : option string;
  privateKey : option string;
  passphrase : option string;
  targetHost : string;
  targetPort : option Z;
  tunnelLocalPort : option Z
}.

Definition sshMissingError (missing : list string) : string :=
  "SSH tunnel enabled but missing required variables: " ++ join ", " missing.

Definition sshAuthError : string :=
  "SSH tunnel requires at least one authentication method: " ++
  "SSH_PASSWORD, SSH_PRIVATE_KEY_PATH, or SSH_PRIVATE_KEY".

Definition invalidSshPortError (env : Env) : string :=
  "Invalid SSH_PORT: " ++ valueOf env "SSH_PORT" ++
  ". Must be between 1 and 65535".

(** [null] when the tunnel is disabled. *)
Definition loadSSHTunnelConfig (env : Env) : Completion (option SSHTunnelConfig) :=
  let enabled :=
    match env "SSH_TUNNEL_ENABLED" with
    | Some value => String.eqb value "true"
    | None => false
    end in
  if negb enabled then Returns None
  else
    let missing := filter (unset env) [ "SSH_HOST"; "SSH_USERNAME" ] in
    if negb (Nat.eqb (List.length missing) 0) then Throws (sshMissingError missing)
    else if unset env "SSH_PASSWORD" && unset env "SSH_PRIVATE_KEY_PATH"
            && unset env "SSH_PRIVATE_KEY"
    then Throws sshAuthError
    else
      match parseInt10 (orDefault env "SSH_PORT" "22") with
      | None => Throws (invalidSshPortError env)
      | Some port =>
          if (port <? 1)%Z || (port >? 65535)%Z
          then Throws (invalidSshPortError env)
          else
            Returns (Some
              {| enabled := true;
                 sshHost := valueOf env "SSH_HOST";
                 sshPort := port;
                 sshUsername := valueOf env "SSH_USERNAME";
                 sshPassword := env "SSH_PASSWORD";
                 privateKeyPath := env "SSH_PRIVATE_KEY_PATH";
                 privateKey := env "SSH_PRIVATE_KEY";
                 passphrase := env "SSH_PASSPHRASE";
                 targetHost := orDefault env "POSTGRES_HOST" "localhost";
                 targetPort := parseInt10 (orDefault env "POSTGRES_PORT" "5432");
                 tunnelLocalPort := parseInt10 (orDefault env "SSH_LOCAL_PORT" "0") |})
      end.

(** [initializeSSHTunnelIfNeeded]: [createSSHTunnel config] is what opening
    the tunnel ends with. *)
Definition initializeSSHTunnelIfNeeded (env : Env)
           (createSSHTunnel : SSHTunnelConfig -> Completion SSHTunnel)
  : Completion (option SSHTunnel) :=
  match loadSSHTunnelConfig env with
  | Throws message => Throws message
  | Returns None => Returns None
  | Returns (Some config) =>
      if negb (enabled config) then Returns None
      else match createSSHTunnel config with
           | Throws message => Throws message
           | Returns tunnel => Returns (Some tunnel)
           end
  end.

(** [initializeDatabase] with its two collaborators wired in as the source
    has them: the tunnel is opened from the environment, then the
    configuration is loaded from it. *)
Definition initializeDatabaseFrom (env : Env)
           (createSSHTunnel : SSHTunnelConfig -> Completion SSHTunnel)
           (probe : Completion unit) (st : State) : State * Completion unit :=
  initializeDatabase
    {| tunnelOutcome := initializeSSHTunnelIfNeeded env createSSHTunnel;
       configOutcome := loadDatabaseConfig env;
       probeOutcome := probe |} st.

End SshTunnel.

(* ------------------------------------------------------------------ *)
(** ** src/tools/list-tables-tool.ts and src/tools/describe-table-tool.ts *)

Module Tools.
Import Js Security Database.

Section Handlers.

Variable Row : Type.

(** How the race of a tagged catalogue query against the timer ends; the
    driver resolves such a query with an array of rows. *)
Inductive CatalogueOutcome :=
| CatalogueRows (rows : list Row)
| CatalogueRejected (message : string)
| CatalogueTimeout.

Record ListTablesToolInput := { listSchema : option string }.

Record ListTablesToolResult := {
  listSuccess : bool;
  tables : option (list Row);
  tableCount : option Z;
  listError : option string
}.

(** [input.schema || 'public'] *)
Definition schemaOrPublic (schema : option string) : string :=
  match schema with
  | None => "public"
  | Some value => if String.eqb value "" then "public" else value
  end.

Definition listFailure (message : string) : ListTablesToolResult :=
  {| listSuccess := false; tables := None; tableCount := None;
     listError := Some message |}.

(** [listQuery pool schema]: the catalogue query with [schema] bound to its
    parameter. *)
Definition handleListTablesTool (st : State)
           (listQuery : Pool -> string -> CatalogueOutcome)
           (input : ListTablesToolInput) : ListTablesToolResult :=
  let schema := schemaOrPublic (listSchema input) in
  match getDatabase st with
  | Throws message => listFailure message
  | Returns db =>
      match listQuery db schema with
      | CatalogueRejected message => listFailure message
      | CatalogueTimeout => listFailure queryTimeoutError
      | CatalogueRows results =>
          {| listSuccess := true; tables := Some results;
             tableCount := Some (rowsLength results); listError := None |}
      end
  end.

Record DescribeTableToolInput := {
  table : string;
  describeSchema : option string
}.

Record DescribeTableToolResult := {
  describeSuccess : bool;
  tableName : option string;
  resultSchema : option string;
  columns : option (list Row);
  indexes : option (list Row);
  foreignKeys : option (list Row);
  describeError : option string
}.

Definition describeFailure (message : string) : DescribeTableToolResult :=
  {| describeSuccess := false; tableName := None; resultSchema := None;
     columns := None; indexes := None; foreignKeys := None;
     describeError := Some message |}.

(** The three catalogue queries, each with the schema and the table name
    bound to its parameters. *)
Record DescribeQueries := {
  columnsQuery : Pool -> string -> string -> CatalogueOutcome;
  indexesQuery : Pool -> string -> string -> CatalogueOutcome;
  foreignKeysQuery : Pool -> string -> string -> CatalogueOutcome
}.

Definition tableNotFoundError (schema tableName : string) : string :=
  "Table '" ++ schema ++ "." ++ tableName ++ "' not found".

(** The tool behind [await waitForDatabase()], with the pool in hand. *)
Definition describeWithPool (db : Pool) (queries : DescribeQueries)
           (schema tableName : string) : DescribeTableToolResult :=
  match columnsQuery queries db schema tableName with
  | CatalogueRejected message => describeFailure message
  | CatalogueTimeout => describeFailure queryTimeoutError
  | CatalogueRows columns =>
      if (rowsLength columns =? 0)%Z
      then describeFailure (tableNotFoundError schema tableName)
      else
        match indexesQuery queries db schema tableName with
        | CatalogueRejected message => describeFailure message
        | CatalogueTimeout => describeFailure queryTimeoutError
        | CatalogueRows indexes =>
            match foreignKeysQuery queries db schema tableName with
            | CatalogueRejected message => describeFailure message
            | CatalogueTimeout => describeFailure queryTimeoutError
            | CatalogueRows foreignKeys =>
                {| describeSuccess := true;
                   tableName := Some tableName;
                   resultSchema := Some schema;
                   columns := Some columns;
                   indexes := Some indexes;
                   foreignKeys := Some foreignKeys;
                   describeError := None |}
            end
        end
  end.

(** [waitForDatabase()] is called with its default timeout of 10000 ms;
    [winner] and [settled] tell how its race ends and in which state of the
    module, should it come to the race. *)
Definition handleDescribeTableTool (st : State)
           (winner : RaceWinner) (settled : State)
           (queries : DescribeQueries) (input : DescribeTableToolInput)
  : DescribeTableToolResult :=
  if String.eqb (table input) "" then
    describeFailure
      "Invalid input: table parameter is required and must be a string"
  else
    let schema := schemaOrPublic (describeSchema input) in
    let tableName := table input in
    match waitForDatabase st with
    | ReturnsNow db => describeWithPool db queries schema tableName
    | ThrowsNow message => describeFailure message
    | AwaitsRace =>
        match waitForDatabaseSettled 10000 winner settled with
        | Returns db => describeWithPool db queries schema tableName
        | Throws message => describeFailure message
        end
    end.

End Handlers.

Arguments CatalogueRows {Row} rows.
Arguments CatalogueRejected {Row} message.
Arguments CatalogueTimeout {Row}.
Arguments listSuccess {Row} l.
Arguments tables {Row} l.
Arguments tableCount {Row} l.
Arguments listError {Row} l.
Arguments listFailure {Row} message.
Arguments handleListTablesTool {Row} st listQuery input.
Arguments describeSuccess {Row} d.
Arguments tableName {Row} d.
Arguments resultSchema {Row} d.
Arguments columns {Row} d.
Arguments indexes {Row} d.
Arguments foreignKeys {Row} d.
Arguments describeError {Row} d.
Arguments describeFailure {Row} message.
Arguments columnsQuery {Row} d.
Arguments indexesQuery {Row} d.
Arguments foreignKeysQuery {Row} d.
Arguments describeWithPool {Row} db queries schema tableName.
Arguments handleDescribeTableTool {Row} st winner settled queries input.

End Tools.

Import Js Security Database QueryTool.

(* ------------------------------------------------------------------ *)
(** ** Vocabulary of the properties *)

(** Every character of [s] satisfies [p]. *)
Fixpoint allChars (p : ascii -> bool) (s : string) : bool :=
  match s with
  | EmptyString => true
  | String c r => p c && allChars p r
  end.

(** A code unit of the ASCII range. *)
Definition isAscii (c : ascii) : bool := (charCode c <? 128)%N.

(** Is the character in front of the position behind [pre] a word
    character?  [start] answers for the empty [pre]. *)
Fixpoint prevWordAfter (start : bool) (pre : string) : bool :=
  match pre with
  | EmptyString => start
  | String c r => prevWordAfter (isWordChar c) r
  end.

(** [w] is the word [keyword] up to the case of its letters. *)
Definition SameWord (w keyword : string) : Prop :=
  String.length w = String.length keyword /\
  toUpperCase w = toUpperCase keyword.

(** [keyword] occurs in [s] as a whole word: no word character touches the
    occurrence on either side. *)
Definition WholeWord (keyword s : string) : Prop :=
  exists pre w post,
    s = pre ++ w ++ post /\ SameWord w keyword /\
    prevWordAfter false pre = false /\ headIs isWordChar post = false.

(** [s] holds the clause [keyword <n>]: the keyword as the start of a word,
    white space, and a decimal literal starting with the digit [d]. *)
Definition ClauseLiteral (keyword s : string) : Prop :=
  exists pre w c ws d post,
    s = pre ++ w ++ String c ws ++ String d post /\ SameWord w keyword /\
    prevWordAfter false pre = false /\
    allChars isWhiteSpace (String c ws) = true /\ isDigit d = true.

Definition nonWord (c : ascii) : bool := negb (isWordChar c).

(** The statement the pagination rewriter works on: surrounding white space
    and one final semicolon removed. *)
Definition stripped (sql : string) : string :=
  removeTrailingSemicolon (trim sql).

(** [s] starts with the word [keyword], in whatever case. *)
Definition StartsWithWord (keyword s : string) : Prop :=
  exists w rest, s = w ++ rest /\ SameWord w keyword.

(** [s] holds a semicolon, possibly white space, and then text that starts
    with one of the seven write keywords. *)
Definition StackedWrite (s : string) : Prop :=
  exists pre ws w rest keyword,
    s = pre ++ ";" ++ ws ++ w ++ rest /\
    allChars isWhiteSpace ws = true /\ SameWord w keyword /\
    In keyword [ "INSERT"; "UPDATE"; "DELETE"; "DROP"; "ALTER"; "CREATE";
                 "TRUNCATE" ].

(** [s] holds [w1], white space and [w2], in whatever case. *)
Definition TwoWords (w1 w2 s : string) : Prop :=
  exists pre a c ws b rest,
    s = pre ++ a ++ String c ws ++ b ++ rest /\
    SameWord a w1 /\ allChars isWhiteSpace (String c ws) = true /\
    SameWord b w2.

(** The environment used in the examples. *)
Definition sampleEnvironment : Config.Env :=
  fun name =>
    if String.eqb name "POSTGRES_HOST" then Some "db.internal"
    else if String.eqb name "POSTGRES_DATABASE" then Some "app"
    else if String.eqb name "POSTGRES_USER" then Some "reader"
    else if String.eqb name "POSTGRES_PASSWORD" then Some "secret"
    else if String.eqb name "POSTGRES_PORT" then Some " 6432 "
    else if String.eqb name "POSTGRES_INSECURE" then Some "TRUE"
    else None.

(** An environment with the tunnel switched on, for the examples. *)
Definition sampleTunnelEnvironment : Config.Env :=
  fun name =>
    if String.eqb name "SSH_TUNNEL_ENABLED" then Some "true"
    else if String.eqb name "SSH_HOST" then Some "bastion"
    else if String.eqb name "SSH_USERNAME" then Some "jump"
    else if String.eqb name "SSH_PASSWORD" then Some ""
    else if String.eqb name "SSH_PRIVATE_KEY" then Some "key material"
    else if String.eqb name "POSTGRES_HOST" then Some "db.internal"
    else None.

(** A keyword made of word characters, as LIMIT and OFFSET are. *)
Definition wordy (keyword : string) : bool :=
  allChars isWordChar keyword && negb (String.eqb keyword "").

(** No [--] in [s]. *)
Fixpoint noDashDash (s : string) : bool :=
  match s with
  | EmptyString => true
  | String c r => negb (Ascii.eqb c "-" && headIs (Ascii.eqb "-") r) && noDashDash r
  end.

(** No [/*] in [s] that a later [*/] closes. *)
Fixpoint noBlockComment (s : string) : bool :=
  match s with
  | EmptyString => true
  | String c r =>
      negb (Ascii.eqb c "/" && headIs (Ascii.eqb "*") r && hasClose (trimOne r))
      && noBlockComment r
  end.

(** White space in [s] is the single space, never twice in a row, and not
    at the start when [prevSpace] is set. *)
Fixpoint singleSpaced (prevSpace : bool) (s : string) : bool :=
  match s with
  | EmptyString => true
  | String c r =>
      if isWhiteSpace c
      then Ascii.eqb c " " && negb prevSpace && singleSpaced true r
      else singleSpaced false r
  end.

(** Once [isInitialized] is set the initialization promise exists. *)
Definition promiseInvariant (st : State) : Prop :=
  isInitialized st = true -> initPromise st <> None.

(** A request whose limit and offset are whole numbers, and an answer of the
    tool to such a request, among the requests and answers over JavaScript
    numbers. *)
Definition wholeInput (input : QueryToolInput) : Numeric.QueryToolInput :=
  {| Numeric.sql := sql input;
     Numeric.limit := option_map Numeric.ofZ (limit input);
     Numeric.offset := option_map Numeric.ofZ (offset input) |}.

Definition wholePagination (page : Pagination) : Numeric.Pagination :=
  {| Numeric.pgLimit := Numeric.ofZ (pgLimit page);
     Numeric.pgOffset := Numeric.ofZ (pgOffset page);
     Numeric.hasMore := hasMore page |}.

Definition wholeResult {Row : Type} (result : QueryToolResult Row)
  : Numeric.QueryToolResult Row :=
  {| Numeric.success := success result;
     Numeric.data := data result;
     Numeric.rowCount := rowCount result;
     Numeric.error := error result;
     Numeric.limitApplied := limitApplied result;
     Numeric.pagination := option_map wholePagination (pagination result) |}.

(** The limit and the offset a request asks for, with their defaults. *)
Definition requestedLimit (input : Numeric.QueryToolInput) : Numeric.JsNumber :=
  match Numeric.limit input with
  | Some l => l
  | None => Numeric.ofZ 1000
  end.

Definition requestedOffset (input : Numeric.QueryToolInput) : Numeric.JsNumber :=
  match Numeric.offset input with
  | Some o => o
  | None => Numeric.ofZ 0
  end.

(** The error of [getDatabase]. *)
Definition notInitializedError : string :=
  "Database not initialized. Call initializeDatabase() first".

(** Once [isInitialized] is set there is a pool. *)
Definition poolInvariant (st : State) : Prop :=
  isInitialized st = true -> exists pool, connectionPool st = Some pool.

(** The statement of 10,001 characters used to exercise the length check. *)
Definition longStatement : string :=
  string_of_list_ascii (repeat "A"%char (Z.to_nat 10001)).

Definition samplePool : Pool :=
  {| poolHost := "localhost"; poolPort := 5432; poolDatabase := "app";
     poolUsername := "reader"; poolPassword := "secret"; poolMax := 10 |}.

Definition sampleConfig : DatabaseConfig :=
  {| host := "localhost"; port := 5432; database := "app";
     username := "reader"; password := "secret"; maxConnections := 10;
     insecure := false |}.

Definition sampleEnv : InitEnv :=
  {| tunnelOutcome := Returns None; configOutcome := Returns sampleConfig;
     probeOutcome := Returns tt |}.

(** Drivers for the examples: one that answers with [n] rows, one that
    answers with the statement it was given (followed by [extra]). *)
Definition rowsDriver (n : nat) : Pool -> string -> RaceOutcome unit :=
  fun _ _ => QueryResolved (RowArray (repeat tt n)).


Definition readyState (insecure : bool) : State :=
  {| connectionPool := Some samplePool; isInitialized := true;
     sshTunnel := None; insecureMode := insecure;
     initPromise := Some Fulfilled |}.

(** Case analysis over the 256 code units. *)
Ltac ascii_cases c :=
  destruct c as [[|] [|] [|] [|] [|] [|] [|] [|]];
  vm_compute; try reflexivity; try discriminate; auto.

(* ------------------------------------------------------------------ *)
(** ** The length check *)

Lemma lengthError_text :
  lengthError = "Query exceeds maximum length of 10000 characters".
Proof. reflexivity. Qed.

Lemma validateQueryLength_long (s : string) :
  (strLength s > QUERY_LIMITS.MAX_QUERY_LENGTH)%Z ->
  validateQueryLength s = invalid lengthError.
Proof.
  intros H. unfold validateQueryLength.
  destruct (Z.gtb_spec (strLength s) QUERY_LIMITS.MAX_QUERY_LENGTH); [reflexivity | lia].
Qed.

Lemma validateQueryLength_short (s : string) :
  (strLength s <= QUERY_LIMITS.MAX_QUERY_LENGTH)%Z ->
  validateQueryLength s = valid.
Proof.
  intros H. unfold validateQueryLength.
  destruct (Z.gtb_spec (strLength s) QUERY_LIMITS.MAX_QUERY_LENGTH); [lia | reflexivity].
Qed.

Lemma long_not_empty (s : string) :
  (strLength s > QUERY_LIMITS.MAX_QUERY_LENGTH)%Z -> String.eqb s "" = false.
Proof.
  destruct s; [ unfold strLength, QUERY_LIMITS.MAX_QUERY_LENGTH; simpl; lia
              | reflexivity ].
Qed.

(** C4. A statement of more than 10,000 characters is rejected by
    [validateQuery] with the length reason whatever it contains, and the
    query tool reports that reason whatever the insecure flag of the module
    and the driver are: the length is taken from the text as submitted and
    no other check of the gate is consulted. *)
Theorem validateQuery_length_precedes
        (Row : Type) (s : string) (st : State)
        (unsafe : Pool -> string -> RaceOutcome Row) (duration : Z) :
  (strLength s > 10000)%Z ->
  validateQuery s = invalid "Query exceeds maximum length of 10000 characters" /\
  handleQueryTool st unsafe duration {| sql := s; limit := None; offset := None |}
  = (failure "Query exceeds maximum length of 10000 characters", []).
Proof.
  intros H. rewrite <- lengthError_text.
  assert (Hv : validateQuery s = invalid lengthError).
  { unfold validateQuery. rewrite (validateQueryLength_long s H). reflexivity. }
  split; [exact Hv|].
  unfold handleQueryTool. cbn [sql limit offset].
  rewrite (long_not_empty s H). cbn beta iota.
  change (QUERY_LIMITS.MAX_ROWS <=? 0)%Z with false.
  change (0 <? 0)%Z with false. cbn beta iota.
  rewrite Hv. reflexivity.
Qed.

Lemma validateQuery_length_precedes_witness :
  validateQuery longStatement
  = invalid "Query exceeds maximum length of 10000 characters" /\
  handleQueryTool (readyState true) (fun _ _ => @TimeoutFirst unit) 0
                  {| sql := longStatement; limit := None; offset := None |}
  = (failure "Query exceeds maximum length of 10000 characters", []).
Proof.
  apply (validateQuery_length_precedes unit longStatement).
  vm_compute. reflexivity.
Defined.

(* ------------------------------------------------------------------ *)
(** ** The insecure flag *)

(** The result of the gate never depends on the flag the query tool hands
    to it. *)
Lemma handleQueryTool_ignores_mode
      (Row : Type) (st : State) (mode : bool)
      (unsafe : Pool -> string -> RaceOutcome Row) (duration : Z)
      (input : QueryToolInput) :
  handleQueryTool
    {| connectionPool := connectionPool st; isInitialized := isInitialized st;
       sshTunnel := sshTunnel st; insecureMode := mode;
       initPromise := initPromise st |} unsafe duration input
  = handleQueryTool st unsafe duration input.
Proof. reflexivity. Qed.

(** C1 (the code departs from it). With the module in insecure mode the query
    tool still refuses [DELETE FROM users]: [validateQuery] takes the
    statement alone, so the flag passed by the tool is dropped and the
    leading-verb check runs. *)
Theorem insecure_mode_still_blocks
        (Row : Type) (unsafe : Pool -> string -> RaceOutcome Row) (duration : Z) :
  isInsecureMode (readyState true) = true /\
  validateQuery "DELETE FROM users" = invalid startError /\
  handleQueryTool (readyState true) unsafe duration
    {| sql := "DELETE FROM users"; limit := None; offset := None |}
  = (failure startError, []).
Proof. repeat split. Qed.

(* ------------------------------------------------------------------ *)
(** ** The bounded executor *)


Lemma slice0_length_le (Row : Type) (rows : list Row) (n : Z) :
  (0 <= n)%Z -> (rowsLength (slice0 rows n) <= n)%Z.
Proof.
  intros H0. unfold rowsLength, slice0.
  rewrite List.length_firstn. lia.
Qed.


(** C7. When the driver call succeeds with more than [MAX_ROWS] = 1000 rows,
    [executeQuery] returns the first 1000 of them, exactly 1000 rows, and
    writes the warning record with the original and the limited row count;
    with at most 1000 rows it returns the rows as they are and writes no such
    record. *)
Theorem executeQuery_row_cap
        (Row : Type) (st : State) (pool : Pool)
        (unsafe : Pool -> string -> RaceOutcome Row) (duration : Z)
        (query : string) (rows : list Row) :
  getDatabase st = Returns pool ->
  unsafe pool query = QueryResolved (RowArray rows) ->
  ((rowsLength rows > 1000)%Z ->
     fst (executeQuery st unsafe duration query) = Returns (firstn 1000 rows) /\
     List.length (firstn 1000 rows) = 1000%nat /\
     In (LogLimitApplied (rowsLength rows) 1000 duration)
        (snd (executeQuery st unsafe duration query))) /\
  ((rowsLength rows <= 1000)%Z ->
     fst (executeQuery st unsafe duration query) = Returns rows /\
     forall original limited d,
       ~ In (LogLimitApplied original limited d)
            (snd (executeQuery st unsafe duration query))).
Proof.
  intros Hdb Hq. unfold executeQuery. rewrite Hdb, Hq.
  change QUERY_LIMITS.MAX_ROWS with 1000%Z.
  split; intros H.
  - destruct (Z.gtb_spec (rowsLength rows) 1000); [|lia].
    cbn [fst snd]. repeat split.
    + unfold rowsLength in H. rewrite List.length_firstn. lia.
    + cbn. auto.
  - destruct (Z.gtb_spec (rowsLength rows) 1000); [lia|].
    cbn [fst snd]. split; [reflexivity|].
    intros original limited d [Hin | [Hin | []]]; discriminate Hin.
Qed.

Lemma executeQuery_row_cap_witness :
  fst (executeQuery (readyState false) (rowsDriver 1500) 7 "SELECT * FROM big")
  = Returns (firstn 1000 (repeat tt 1500)) /\
  List.length (firstn 1000 (repeat tt 1500)) = 1000%nat /\
  In (LogLimitApplied (rowsLength (repeat tt 1500)) 1000 7)
     (snd (executeQuery (readyState false) (rowsDriver 1500) 7 "SELECT * FROM big")).
Proof.
  apply (proj1 (executeQuery_row_cap unit (readyState false) samplePool
                  (rowsDriver 1500) 7 "SELECT * FROM big" (repeat tt 1500)
                  eq_refl eq_refl)).
  vm_compute. reflexivity.
Defined.

(* ------------------------------------------------------------------ *)
(** ** The connection lifecycle *)

Lemma initializeDatabase_success (env : InitEnv) (st st' : State) :
  poolInvariant st ->
  initializeDatabase env st = (st', Returns tt) ->
  isInitialized st' = true /\ exists pool, connectionPool st' = Some pool.
Proof.
  intros Hinv. unfold initializeDatabase, initFailure.
  destruct (isInitialized st) eqn:Hi.
  - intros [= <-]. split; [exact Hi | exact (Hinv Hi)].
  - destruct (tunnelOutcome env); [|discriminate].
    destruct (configOutcome env); [|discriminate].
    destruct (probeOutcome env); [|discriminate].
    intros [= <-]. cbn. split; [reflexivity | eexists; reflexivity].
Qed.

Lemma initializeDatabase_invariant (env : InitEnv) (st : State) :
  poolInvariant st -> poolInvariant (fst (initializeDatabase env st)).
Proof.
  intros Hinv. unfold initializeDatabase, initFailure.
  destruct (isInitialized st) eqn:Hi; [exact Hinv|].
  destruct (tunnelOutcome env);
    [| cbn; unfold poolInvariant; cbn; congruence].
  destruct (configOutcome env);
    [| cbn; unfold poolInvariant; cbn; congruence].
  destruct (probeOutcome env);
    [| cbn; unfold poolInvariant; cbn; congruence].
  cbn. intros _. cbn. eexists; reflexivity.
Qed.

Lemma closeDatabase_invariant (st : State) :
  poolInvariant st -> poolInvariant (closeDatabase st).
Proof.
  intros Hinv. unfold closeDatabase, poolInvariant in *.
  destruct (connectionPool st) eqn:Hp; destruct (sshTunnel st) eqn:Ht; cbn;
    rewrite ?Ht; cbn; rewrite ?Hp; try discriminate; auto.
Qed.

Lemma stateAfter_invariant (st : State) (c : Call) :
  poolInvariant st -> poolInvariant (stateAfter st c).
Proof.
  destruct c; cbn; auto using initializeDatabase_invariant, closeDatabase_invariant.
Qed.

Lemma fold_invariant (calls : list Call) (st : State) :
  poolInvariant st -> poolInvariant (fold_left stateAfter calls st).
Proof.
  revert st. induction calls as [|c calls IH]; intros st H; cbn; [exact H|].
  apply IH, stateAfter_invariant, H.
Qed.

Lemma run_invariant (calls : list Call) : poolInvariant (run calls).
Proof. apply fold_invariant. intros H; discriminate H. Qed.

Lemma fold_without_initialize (calls : list Call) :
  forallb (fun c => negb (isInitializeCall c)) calls = true ->
  fold_left stateAfter calls initialState = initialState.
Proof.
  induction calls as [|c calls IH]; cbn; [reflexivity|].
  intros H. apply andb_prop in H. destruct H as [Hc Hrest].
  destruct c; try discriminate Hc; cbn; auto.
Qed.

Lemma notStarted_distinct (timeoutMs : Z) (message : string) :
  notStartedError <> timeoutError timeoutMs /\
  notStartedError <> poolUnavailableError /\
  notStartedError <> "Failed to initialize database connection: " ++ message /\
  notStartedError <> "Database not initialized. Call initializeDatabase() first".
Proof.
  repeat split; intros H; cbn in H; discriminate H.
Qed.

(** C6. In a module on which [initializeDatabase] was never called (whatever
    else was called), [waitForDatabase] throws the "not started" error before
    it awaits anything, and that error is none of the other errors the
    function can end with; after an [initializeDatabase] that returned
    normally, [waitForDatabase] returns the pool of the module before it
    awaits anything. *)
Theorem waitForDatabase_immediate
        (before calls : list Call) (env : InitEnv) (st' : State)
        (timeoutMs : Z) (message : string) :
  forallb (fun c => negb (isInitializeCall c)) before = true ->
  initializeDatabase env (run calls) = (st', Returns tt) ->
  (waitForDatabase (run before) = ThrowsNow notStartedError /\
   notStartedError
   = "Database initialization not started. Call initializeDatabase() first" /\
   notStartedError <> timeoutError timeoutMs /\
   notStartedError <> poolUnavailableError /\
   notStartedError <> "Failed to initialize database connection: " ++ message) /\
  exists pool, connectionPool st' = Some pool /\
               waitForDatabase st' = ReturnsNow pool.
Proof.
  intros Hbefore Hinit. split.
  - unfold run. rewrite (fold_without_initialize before Hbefore).
    destruct (notStarted_distinct timeoutMs message) as (H1 & H2 & H3 & _).
    repeat split; assumption.
  - destruct (initializeDatabase_success env (run calls) st'
                (run_invariant calls) Hinit) as [Hi [pool Hp]].
    exists pool. split; [exact Hp|].
    unfold waitForDatabase. rewrite Hi, Hp. reflexivity.
Qed.

Lemma waitForDatabase_immediate_witness :
  waitForDatabase (run [CallClose; CallIsReady]) = ThrowsNow notStartedError /\
  exists pool,
    connectionPool (fst (initializeDatabase sampleEnv (run [CallWait]))) = Some pool /\
    waitForDatabase (fst (initializeDatabase sampleEnv (run [CallWait])))
    = ReturnsNow pool.
Proof.
  destruct (waitForDatabase_immediate [CallClose; CallIsReady] [CallWait] sampleEnv
              (fst (initializeDatabase sampleEnv (run [CallWait]))) 50 "x"
              eq_refl eq_refl) as [[H _] Hpool].
  split; [exact H | exact Hpool].
Defined.

(* ------------------------------------------------------------------ *)
(** ** Characters and strings *)

Lemma whitespace_not_word (c : ascii) :
  isWhiteSpace c = true -> isWordChar c = false.
Proof. ascii_cases c. Qed.

Lemma digit_is_word (c : ascii) : isDigit c = true -> isWordChar c = true.
Proof. ascii_cases c. Qed.

Lemma toUpperChar_word (c : ascii) :
  isWordChar (toUpperChar c) = isWordChar c.
Proof. ascii_cases c. Qed.

Lemma toUpperChar_whitespace (c : ascii) :
  isWhiteSpace c = true -> toUpperChar c = c.
Proof. ascii_cases c. Qed.

Lemma semicolon_not_word (c : ascii) :
  Ascii.eqb c ";" = true -> isWordChar c = false.
Proof. intros H. apply Ascii.eqb_eq in H. subst c. reflexivity. Qed.

Lemma upper_differs (c p : ascii) :
  isWordChar c = false -> isWordChar p = true ->
  Ascii.eqb (toUpperChar c) (toUpperChar p) = false.
Proof.
  intros Hc Hp. apply Ascii.eqb_neq. intros H.
  rewrite <- (toUpperChar_word c), H, toUpperChar_word in Hc. congruence.
Qed.

Lemma append_nil_r (s : string) : s ++ "" = s.
Proof. induction s as [|c s IH]; cbn; [reflexivity | now rewrite IH]. Qed.

Lemma append_assoc (s t u : string) : (s ++ t) ++ u = s ++ t ++ u.
Proof. induction s as [|c s IH]; cbn; [reflexivity | now rewrite IH]. Qed.

Lemma allChars_app (p : ascii -> bool) (s t : string) :
  allChars p (s ++ t) = allChars p s && allChars p t.
Proof.
  induction s as [|c s IH]; cbn; [reflexivity|].
  rewrite IH. apply andb_assoc.
Qed.

Lemma whitespace_nonWord (s : string) :
  allChars isWhiteSpace s = true -> allChars nonWord s = true.
Proof.
  induction s as [|c s IH]; cbn; [reflexivity|].
  intros H. apply andb_prop in H. destruct H as [Hc Hs].
  unfold nonWord at 1. rewrite (whitespace_not_word c Hc). cbn. auto.
Qed.

(** What [trimEnd] and the removal of the final semicolon take away. *)
Lemma trimEnd_split (s : string) :
  exists u, s = trimEnd s ++ u /\ allChars isWhiteSpace u = true.
Proof.
  induction s as [|c s [u [Hs Hu]]]; cbn.
  - exists "". split; reflexivity.
  - destruct (trimEnd s) as [|d r'] eqn:Ht.
    + cbn in Hs. subst u. destruct (isWhiteSpace c) eqn:Hc.
      * exists (String c s). split; [reflexivity|]. cbn. now rewrite Hc.
      * exists s. split; [reflexivity | exact Hu].
    + exists u. split; [|exact Hu]. cbn. f_equal. exact Hs.
Qed.

Lemma removeTrailingSemicolon_cut (s : string) :
  exists u, s = removeTrailingSemicolon s ++ u /\ (u = "" \/ u = ";").
Proof.
  induction s as [|c s [u [Hs Hu]]]; cbn.
  - exists "". split; auto.
  - destruct s as [|d r].
    + destruct (Ascii.eqb_spec c ";") as [-> | Hc].
      * exists ";". split; auto.
      * exists "". split; auto.
    + exists u. split; [|exact Hu]. cbn. f_equal. exact Hs.
Qed.

Lemma removeTrailingSemicolon_split (s : string) :
  exists u, s = removeTrailingSemicolon s ++ u /\ allChars nonWord u = true.
Proof.
  destruct (removeTrailingSemicolon_cut s) as [u [Hs [-> | ->]]];
    eexists; split; try exact Hs; reflexivity.
Qed.

Lemma trimStart_split (s : string) :
  exists u, s = u ++ trimStart s /\ allChars isWhiteSpace u = true.
Proof.
  induction s as [|c s [u [Hs Hu]]]; cbn.
  - exists "". split; reflexivity.
  - destruct (isWhiteSpace c) eqn:Hc.
    + exists (String c u). cbn. rewrite Hc. split; [now f_equal | exact Hu].
    + exists "". split; reflexivity.
Qed.

(* ------------------------------------------------------------------ *)
(** ** The clause tests of the pagination rewriter *)

Section ClauseTests.

Variable keyword : string.
Hypothesis keyword_wordy : wordy keyword = true.

Lemma keyword_shape :
  exists k rest, keyword = String k rest /\ isWordChar k = true /\
                 allChars isWordChar rest = true.
Proof.
  unfold wordy in keyword_wordy. destruct keyword as [|k rest].
  - discriminate keyword_wordy.
  - apply andb_prop in keyword_wordy. destruct keyword_wordy as [H _].
    cbn in H. apply andb_prop in H. destruct H.
    exists k, rest. auto.
Qed.

Lemma matchPrefixCI_nonWord (kw u : string) :
  kw <> "" -> allChars isWordChar kw = true -> allChars nonWord u = true ->
  matchPrefixCI kw u = None.
Proof.
  destruct kw as [|k kw]; [congruence|]. intros _ Hk Hu.
  destruct u as [|c u]; cbn; [reflexivity|].
  cbn in Hk, Hu. apply andb_prop in Hk. apply andb_prop in Hu.
  destruct Hk as [Hk _]. destruct Hu as [Hc _].
  unfold nonWord in Hc. apply negb_true_iff in Hc.
  now rewrite (upper_differs c k Hc Hk).
Qed.

Lemma matchPrefixCI_app (kw t u : string) :
  allChars isWordChar kw = true -> allChars nonWord u = true ->
  matchPrefixCI kw (t ++ u) =
  match matchPrefixCI kw t with
  | Some rest => Some (rest ++ u)
  | None => if String.eqb kw "" then Some (t ++ u) else None
  end.
Proof.
  revert t. induction kw as [|k kw IH]; intros t Hk Hu; [reflexivity|].
  destruct t as [|c t].
  - cbn [append]. rewrite matchPrefixCI_nonWord by (auto; discriminate).
    reflexivity.
  - cbn. destruct (Ascii.eqb (toUpperChar c) (toUpperChar k)); [|reflexivity].
    cbn in Hk. apply andb_prop in Hk. destruct Hk as [_ Hk].
    rewrite IH by assumption.
    destruct (matchPrefixCI kw t) eqn:E; [reflexivity|].
    destruct kw; [discriminate E | reflexivity].
Qed.

Lemma digit_after_nonWord (u : string) :
  allChars nonWord u = true -> headIs isDigit (trimStart u) = false.
Proof.
  induction u as [|c u IH]; cbn; [reflexivity|].
  intros H. apply andb_prop in H. destruct H as [Hc Hu].
  destruct (isWhiteSpace c); [auto|]. cbn.
  unfold nonWord in Hc. apply negb_true_iff in Hc.
  destruct (isDigit c) eqn:Hd; [|reflexivity].
  rewrite (digit_is_word c Hd) in Hc. discriminate.
Qed.

Lemma digit_after_app (r u : string) :
  allChars nonWord u = true ->
  headIs isDigit (trimStart (r ++ u)) = headIs isDigit (trimStart r).
Proof.
  intros Hu. induction r as [|c r IH]; cbn.
  - apply digit_after_nonWord, Hu.
  - destruct (isWhiteSpace c); [exact IH | reflexivity].
Qed.

Lemma afterSpaces1_app (r u : string) :
  allChars nonWord u = true ->
  afterSpaces1 (headIs isDigit) (r ++ u) = afterSpaces1 (headIs isDigit) r.
Proof.
  intros Hu. destruct r as [|c r]; cbn.
  - destruct u as [|c u]; cbn; [reflexivity|].
    cbn in Hu. apply andb_prop in Hu. destruct Hu as [_ Hu].
    rewrite (digit_after_nonWord u Hu). apply andb_false_r.
  - now rewrite digit_after_app.
Qed.

Lemma clauseAt_app (p : bool) (t u : string) :
  allChars nonWord u = true ->
  clauseAt keyword p (t ++ u) = clauseAt keyword p t.
Proof.
  intros Hu. destruct keyword_shape as (k & rest & Hkw & Hk & Hrest).
  unfold clauseAt. rewrite matchPrefixCI_app; auto.
  - destruct (matchPrefixCI keyword t).
    + now rewrite afterSpaces1_app.
    + rewrite Hkw. reflexivity.
  - rewrite Hkw. cbn. now rewrite Hk, Hrest.
Qed.

Lemma clauseAt_nonWord (p : bool) (u : string) :
  allChars nonWord u = true -> clauseAt keyword p u = false.
Proof.
  intros Hu. destruct keyword_shape as (k & rest & Hkw & Hk & Hrest).
  unfold clauseAt. rewrite matchPrefixCI_nonWord; auto.
  - apply andb_false_r.
  - rewrite Hkw. discriminate.
  - rewrite Hkw. cbn. now rewrite Hk, Hrest.
Qed.

Lemma clauseAt_nonWord_head (p : bool) (c : ascii) (s : string) :
  isWordChar c = false -> clauseAt keyword p (String c s) = false.
Proof.
  intros Hc. destruct keyword_shape as (k & rest & Hkw & Hk & Hrest).
  unfold clauseAt. rewrite Hkw. cbn.
  rewrite (upper_differs c k Hc Hk). apply andb_false_r.
Qed.

Lemma search_nonWord (p : bool) (u : string) :
  allChars nonWord u = true -> regexSearch (clauseAt keyword) p u = false.
Proof.
  revert p. induction u as [|c u IH]; intros p Hu; cbn.
  - now rewrite clauseAt_nonWord.
  - rewrite clauseAt_nonWord by exact Hu. cbn in Hu.
    apply andb_prop in Hu. destruct Hu as [_ Hu]. cbn. now apply IH.
Qed.

Lemma search_app (p : bool) (t u : string) :
  allChars nonWord u = true ->
  regexSearch (clauseAt keyword) p (t ++ u) = regexSearch (clauseAt keyword) p t.
Proof.
  intros Hu. revert p. induction t as [|c t IH]; intros p.
  - cbn [append]. rewrite search_nonWord by exact Hu. cbn.
    now rewrite (clauseAt_nonWord p "").
  - change (String c t ++ u) with (String c (t ++ u)). cbn.
    rewrite IH. f_equal. apply (clauseAt_app p (String c t) u Hu).
Qed.

Lemma search_trimStart (s : string) :
  regexSearch (clauseAt keyword) false (trimStart s)
  = regexSearch (clauseAt keyword) false s.
Proof.
  induction s as [|c s IH]; [reflexivity|].
  cbn [trimStart]. destruct (isWhiteSpace c) eqn:Hc; [|reflexivity].
  rewrite IH. cbn [regexSearch]. rewrite (whitespace_not_word c Hc).
  now rewrite (clauseAt_nonWord_head false c s (whitespace_not_word c Hc)).
Qed.

Lemma testClause_stripped (s : string) :
  testClause keyword (removeTrailingSemicolon (trim s)) = testClause keyword s.
Proof.
  unfold testClause, regexTest, trim.
  rewrite <- (search_trimStart s).
  destruct (trimEnd_split (trimStart s)) as [u [Hs Hu]].
  destruct (removeTrailingSemicolon_split (trimEnd (trimStart s))) as [v [Ht Hv]].
  rewrite Hs at 2. rewrite search_app by (apply whitespace_nonWord, Hu).
  rewrite Ht at 2. now rewrite search_app.
Qed.

End ClauseTests.

(* ------------------------------------------------------------------ *)
(** ** What the scanners find *)

Lemma regexSearch_spec (matchAt : bool -> string -> bool) (s : string) :
  forall p,
    regexSearch matchAt p s = true <->
    exists pre suf, s = pre ++ suf /\ matchAt (prevWordAfter p pre) suf = true.
Proof.
  induction s as [|c r IH]; intros p; cbn [regexSearch].
  - rewrite orb_false_r. split.
    + intros H. exists "", "". auto.
    + intros (pre & suf & Hs & Hm). destruct pre; [|discriminate Hs].
      cbn in Hs. subst suf. exact Hm.
  - rewrite orb_true_iff, IH. split.
    + intros [H | (pre & suf & Hs & Hm)].
      * exists "", (String c r). auto.
      * exists (String c pre), suf. cbn. split; [now rewrite Hs | exact Hm].
    + intros (pre & suf & Hs & Hm). destruct pre as [|c' pre].
      * left. cbn in Hs, Hm. now subst suf.
      * right. cbn in Hs. injection Hs as -> ->. exists pre, suf. auto.
Qed.

Lemma matchPrefixCI_spec (kw : string) :
  forall s rest,
    matchPrefixCI kw s = Some rest <->
    exists w, s = w ++ rest /\ SameWord w kw.
Proof.
  unfold SameWord. induction kw as [|k kw IH]; intros s rest; cbn.
  - split.
    + intros [= ->]. exists "". auto.
    + intros (w & -> & Hl & _). destruct w; [reflexivity | discriminate Hl].
  - destruct s as [|c r].
    + split; [discriminate|].
      intros (w & Hs & Hl & _). destruct w; discriminate.
    + destruct (Ascii.eqb_spec (toUpperChar c) (toUpperChar k)) as [Hck | Hck].
      * rewrite IH. split.
        -- intros (w & -> & Hl & Hu). exists (String c w). cbn.
           repeat split; congruence.
        -- intros (w & Hs & Hl & Hu). destruct w as [|c' w]; [discriminate Hl|].
           cbn in Hs, Hl, Hu. injection Hs as -> ->. injection Hu as _ Hu.
           exists w. auto.
      * split; [discriminate|].
        intros (w & Hs & Hl & Hu). destruct w as [|c' w]; [discriminate Hl|].
        cbn in Hs, Hu. injection Hs as -> ->. injection Hu as Hc _.
        contradiction.
Qed.

Lemma digit_not_whitespace (d : ascii) :
  isDigit d = true -> isWhiteSpace d = false.
Proof. ascii_cases d. Qed.

Lemma digit_after_spaces_spec (r : string) :
  headIs isDigit (trimStart r) = true <->
  exists ws d post,
    r = ws ++ String d post /\ allChars isWhiteSpace ws = true /\ isDigit d = true.
Proof.
  induction r as [|c r IH]; cbn.
  - split; [discriminate|]. intros (ws & d & post & H & _).
    destruct ws; discriminate.
  - destruct (isWhiteSpace c) eqn:Hc.
    + rewrite IH. split.
      * intros (ws & d & post & -> & Hws & Hd).
        exists (String c ws), d, post. cbn. rewrite Hc. auto.
      * intros (ws & d & post & H & Hws & Hd). destruct ws as [|c' ws].
        -- cbn in H. injection H as -> ->.
           rewrite (digit_not_whitespace d Hd) in Hc. discriminate.
        -- cbn in H, Hws. injection H as -> ->.
           apply andb_prop in Hws. destruct Hws. exists ws, d, post. auto.
    + cbn. split.
      * intros Hd. exists "", c, r. auto.
      * intros (ws & d & post & H & Hws & Hd). destruct ws as [|c' ws].
        -- cbn in H. injection H as -> ->. exact Hd.
        -- cbn in H, Hws. injection H as -> ->. rewrite Hc in Hws. discriminate.
Qed.

Lemma afterSpaces1_digit_spec (rest : string) :
  afterSpaces1 (headIs isDigit) rest = true <->
  exists c ws d post,
    rest = String c ws ++ String d post /\
    allChars isWhiteSpace (String c ws) = true /\ isDigit d = true.
Proof.
  destruct rest as [|c r]; cbn.
  - split; [discriminate|]. intros (c & ws & d & post & H & _). discriminate.
  - rewrite andb_true_iff, digit_after_spaces_spec. split.
    + intros (Hc & ws & d & post & -> & Hws & Hd).
      exists c, ws, d, post. rewrite Hc. auto.
    + intros (c' & ws & d & post & H & Hws & Hd). injection H as -> ->.
      apply andb_prop in Hws. destruct Hws. split; [assumption|].
      exists ws, d, post. auto.
Qed.

(** The clause test succeeds exactly on the statements that hold the
    keyword, white space and a digit. *)
Lemma testClause_spec (keyword s : string) :
  testClause keyword s = true <-> ClauseLiteral keyword s.
Proof.
  unfold testClause, regexTest, ClauseLiteral. rewrite regexSearch_spec. split.
  - intros (pre & suf & -> & Hm). unfold clauseAt in Hm.
    apply andb_prop in Hm. destruct Hm as [Hp Hm].
    destruct (matchPrefixCI keyword suf) as [rest|] eqn:E; [|discriminate].
    apply matchPrefixCI_spec in E. destruct E as (w & -> & Hw).
    apply afterSpaces1_digit_spec in Hm.
    destruct Hm as (c & ws & d & post & -> & Hws & Hd).
    exists pre, w, c, ws, d, post. apply negb_true_iff in Hp. auto.
  - intros (pre & w & c & ws & d & post & -> & Hw & Hp & Hws & Hd).
    exists pre, (w ++ String c ws ++ String d post). split; [reflexivity|].
    unfold clauseAt. rewrite Hp.
    assert (E : matchPrefixCI keyword (w ++ String c ws ++ String d post)
                = Some (String c ws ++ String d post)).
    { apply matchPrefixCI_spec. exists w. auto. }
    rewrite E. cbn [negb andb]. apply afterSpaces1_digit_spec.
    exists c, ws, d, post. auto.
Qed.

(** The keyword test succeeds exactly on the statements that hold the
    keyword as a whole word. *)
Lemma testKeyword_spec (keyword s : string) :
  testKeyword keyword s = true <-> WholeWord keyword s.
Proof.
  unfold testKeyword, regexTest, WholeWord. rewrite regexSearch_spec. split.
  - intros (pre & suf & -> & Hm). unfold keywordAt in Hm.
    apply andb_prop in Hm. destruct Hm as [Hp Hm].
    destruct (matchPrefixCI keyword suf) as [rest|] eqn:E; [|discriminate].
    apply matchPrefixCI_spec in E. destruct E as (w & -> & Hw).
    exists pre, w, rest. apply negb_true_iff in Hp, Hm. auto.
  - intros (pre & w & post & -> & Hw & Hp & Hpost).
    exists pre, (w ++ post). split; [reflexivity|].
    unfold keywordAt. rewrite Hp.
    assert (E : matchPrefixCI keyword (w ++ post) = Some post).
    { apply matchPrefixCI_spec. exists w. auto. }
    rewrite E, Hpost. reflexivity.
Qed.

(* ------------------------------------------------------------------ *)
(** ** The pagination rewriter *)

Lemma LIMIT_wordy : wordy "LIMIT" = true.
Proof. reflexivity. Qed.

Lemma OFFSET_wordy : wordy "OFFSET" = true.
Proof. reflexivity. Qed.

Lemma hasLimit_stripped (sql : string) :
  testClause "LIMIT" (stripped sql) = testClause "LIMIT" sql.
Proof. apply testClause_stripped, LIMIT_wordy. Qed.

Lemma hasOffset_stripped (sql : string) :
  testClause "OFFSET" (stripped sql) = testClause "OFFSET" sql.
Proof. apply testClause_stripped, OFFSET_wordy. Qed.

(** The rewriter in terms of the two tests on the statement as submitted. *)
Lemma addPaginationToQuery_cases (sql : string) (limit offset : Z) :
  addPaginationToQuery sql limit offset =
  stripped sql
  ++ (if testClause "LIMIT" sql then "" else " LIMIT " ++ numberToString limit)
  ++ (if negb (testClause "OFFSET" sql) && (offset >? 0)%Z
      then " OFFSET " ++ numberToString offset else "").
Proof.
  unfold addPaginationToQuery. fold (stripped sql).
  rewrite hasLimit_stripped, hasOffset_stripped.
  destruct (testClause "LIMIT" sql), (testClause "OFFSET" sql),
    (offset >? 0)%Z; cbn [andb negb];
    rewrite ?append_nil_r, ?append_assoc; reflexivity.
Qed.

Lemma stripped_shape (sql : string) :
  exists lead semi trail,
    sql = lead ++ stripped sql ++ semi ++ trail /\
    allChars isWhiteSpace lead = true /\ allChars isWhiteSpace trail = true /\
    (semi = "" \/ semi = ";").
Proof.
  destruct (trimStart_split sql) as [lead [H1 Hlead]].
  destruct (trimEnd_split (trimStart sql)) as [trail [H2 Htrail]].
  destruct (removeTrailingSemicolon_cut (trimEnd (trimStart sql)))
    as [semi [H3 Hsemi]].
  exists lead, semi, trail. repeat split; auto.
  unfold stripped, trim.
  rewrite <- (append_assoc (removeTrailingSemicolon (trimEnd (trimStart sql)))).
  rewrite <- H3, <- H2. exact H1.
Qed.

(** C3 (as the code has it). When the statement holds both a [LIMIT <n>] and
    an [OFFSET <n>] clause, [addPaginationToQuery] appends nothing, whatever
    limit and offset it is given: it returns the statement with the white
    space around it and one final semicolon removed, which is the statement
    itself when there is nothing of the kind to remove. *)
Theorem addPagination_keeps_explicit_window (sql : string) (limit offset : Z) :
  testClause "LIMIT" sql = true ->
  testClause "OFFSET" sql = true ->
  addPaginationToQuery sql limit offset = removeTrailingSemicolon (trim sql) /\
  (exists lead semi trail,
      sql = lead ++ addPaginationToQuery sql limit offset ++ semi ++ trail /\
      allChars isWhiteSpace lead = true /\ allChars isWhiteSpace trail = true /\
      (semi = "" \/ semi = ";")) /\
  (removeTrailingSemicolon (trim sql) = sql ->
   addPaginationToQuery sql limit offset = sql).
Proof.
  intros HL HO.
  assert (E : addPaginationToQuery sql limit offset = stripped sql).
  { rewrite addPaginationToQuery_cases, HL, HO. cbn.
    now rewrite !append_nil_r. }
  split; [exact E|]. split.
  - rewrite E. apply stripped_shape.
  - intros H. rewrite E. exact H.
Qed.

Lemma addPagination_keeps_explicit_window_witness :
  addPaginationToQuery "SELECT * FROM t limit 5 OFFSET 2" 10 20
  = "SELECT * FROM t limit 5 OFFSET 2".
Proof.
  apply (addPagination_keeps_explicit_window "SELECT * FROM t limit 5 OFFSET 2" 10 20);
    reflexivity.
Defined.

(** C3 (as stated, refuted). A statement with both clauses and a final
    semicolon does not come back unmodified: the semicolon is gone. *)
Lemma addPagination_not_identity :
  testClause "LIMIT" "SELECT * FROM t LIMIT 5 OFFSET 2;" = true /\
  testClause "OFFSET" "SELECT * FROM t LIMIT 5 OFFSET 2;" = true /\
  addPaginationToQuery "SELECT * FROM t LIMIT 5 OFFSET 2;" 10 0
  = "SELECT * FROM t LIMIT 5 OFFSET 2" /\
  addPaginationToQuery "SELECT * FROM t LIMIT 5 OFFSET 2;" 10 0
  <> "SELECT * FROM t LIMIT 5 OFFSET 2;".
Proof. repeat split. intros H. vm_compute in H. discriminate H. Qed.

(** C8. When the statement holds neither a [LIMIT <n>] nor an [OFFSET <n>]
    clause, [addPaginationToQuery] appends [" LIMIT <limit>"] to it and, only
    when [offset > 0], [" OFFSET <offset>"] after that; the two scenarios of
    the design document come out as written there. *)
Theorem addPagination_appends (sql : string) (limit offset : Z) :
  testClause "LIMIT" sql = false ->
  testClause "OFFSET" sql = false ->
  addPaginationToQuery sql limit offset
  = removeTrailingSemicolon (trim sql) ++ " LIMIT " ++ numberToString limit
    ++ (if (offset >? 0)%Z then " OFFSET " ++ numberToString offset else "") /\
  addPaginationToQuery "SELECT * FROM t" 10 0 = "SELECT * FROM t LIMIT 10" /\
  addPaginationToQuery "SELECT * FROM t" 10 20
  = "SELECT * FROM t LIMIT 10 OFFSET 20".
Proof.
  intros HL HO. split; [|split; reflexivity].
  rewrite addPaginationToQuery_cases, HL, HO. cbn [negb andb].
  now rewrite append_assoc.
Qed.

Lemma addPagination_appends_witness :
  addPaginationToQuery "  select id from users where age > 18 ; " 50 100
  = "select id from users where age > 18  LIMIT 50 OFFSET 100".
Proof.
  apply (addPagination_appends "  select id from users where age > 18 ; " 50 100);
    reflexivity.
Defined.

(** C10. A clause counts as present only in the form keyword, white space,
    digit.  A statement that holds no LIMIT of that form, however else a
    LIMIT is written in it, gets [" LIMIT <limit>"] appended behind all of
    its text, and the same goes for OFFSET when [offset > 0]. *)
Theorem addPagination_literal_clauses_only (sql : string) (limit offset : Z) :
  (testClause "LIMIT" (removeTrailingSemicolon (trim sql)) = true ->
   ClauseLiteral "LIMIT" sql) /\
  (testClause "OFFSET" (removeTrailingSemicolon (trim sql)) = true ->
   ClauseLiteral "OFFSET" sql) /\
  (~ ClauseLiteral "LIMIT" sql ->
   exists tail,
     addPaginationToQuery sql limit offset
     = removeTrailingSemicolon (trim sql) ++ " LIMIT " ++ numberToString limit ++ tail /\
     (tail = "" \/ tail = " OFFSET " ++ numberToString offset)) /\
  (~ ClauseLiteral "OFFSET" sql -> (offset > 0)%Z ->
   exists front,
     addPaginationToQuery sql limit offset
     = front ++ " OFFSET " ++ numberToString offset) /\
  addPaginationToQuery "SELECT * FROM t LIMIT ALL" 10 0
  = "SELECT * FROM t LIMIT ALL LIMIT 10" /\
  addPaginationToQuery "SELECT * FROM t LIMIT $1" 10 0
  = "SELECT * FROM t LIMIT $1 LIMIT 10" /\
  addPaginationToQuery "SELECT * FROM t LIMIT ALL OFFSET 5" 10 0
  = "SELECT * FROM t LIMIT ALL OFFSET 5 LIMIT 10".
Proof.
  split; [|split; [|split; [|split; [|repeat split]]]].
  - fold (stripped sql). rewrite hasLimit_stripped. apply testClause_spec.
  - fold (stripped sql). rewrite hasOffset_stripped. apply testClause_spec.
  - intros H. rewrite addPaginationToQuery_cases. fold (stripped sql).
    destruct (testClause "LIMIT" sql) eqn:HL.
    { exfalso. apply H, testClause_spec, HL. }
    eexists. split; [rewrite append_assoc; reflexivity|].
    destruct (negb (testClause "OFFSET" sql) && (offset >? 0)%Z); auto.
  - intros H Hpos. rewrite addPaginationToQuery_cases.
    destruct (testClause "OFFSET" sql) eqn:HO.
    { exfalso. apply H, testClause_spec, HO. }
    destruct (Z.gtb_spec offset 0); [|lia]. cbn [negb andb].
    eexists. rewrite <- append_assoc. reflexivity.
Qed.

Lemma addPagination_literal_clauses_only_witness :
  exists tail,
    addPaginationToQuery "SELECT * FROM t LIMIT ALL;" 25 0
    = "SELECT * FROM t LIMIT ALL" ++ " LIMIT " ++ "25" ++ tail /\
    (tail = "" \/ tail = " OFFSET " ++ "0").
Proof.
  apply (addPagination_literal_clauses_only "SELECT * FROM t LIMIT ALL;" 25 0).
  intros H. apply testClause_spec in H. vm_compute in H. discriminate H.
Defined.

(* ------------------------------------------------------------------ *)
(** ** The query tool *)







Lemma startsWith_app (p tail : string) : startsWith (p ++ tail) p = true.
Proof.
  induction p as [|c p IH]; cbn; [reflexivity|].
  now rewrite Ascii.eqb_refl, IH.
Qed.

Lemma includes_app (front p tail : string) :
  includes (front ++ p ++ tail) p = true.
Proof.
  induction front as [|c front IH].
  - cbn [append]. destruct (p ++ tail) eqn:E; cbn [includes];
      rewrite <- E, startsWith_app; reflexivity.
  - cbn [append includes]. rewrite IH. apply orb_true_r.
Qed.


(** With the default limit the extra row never survives the executor's own
    cap, so [hasMore] stays unset however many rows the statement has. *)
Lemma hasMore_unset_at_max_rows :
  pagination (fst (handleQueryTool (readyState false) (rowsDriver 1001) 0
                     {| sql := "SELECT * FROM t"; limit := None; offset := None |}))
  = Some {| pgLimit := 1000; pgOffset := 0; hasMore := false |}.
Proof. vm_compute. reflexivity. Qed.

(* ------------------------------------------------------------------ *)
(** ** The keyword scan of the gate *)

Lemma find_first (A : Type) (f : A -> bool) (l : list A) (x : A) :
  find f l = Some x ->
  exists before after,
    l = (before ++ x :: after)%list /\ f x = true /\
    forall y, In y before -> f y = false.
Proof.
  induction l as [|a l IH]; cbn; [discriminate|].
  destruct (f a) eqn:Ha.
  - intros [= ->]. exists [], l. repeat split; [exact Ha | intros y []].
  - intros H. destruct (IH H) as (before & after & -> & Hx & Hb).
    exists (a :: before), after. repeat split; [exact Hx|].
    intros y [<- | Hy]; auto.
Qed.

Lemma keywordError_names (keyword : string) :
  includes (keywordError keyword) keyword = true.
Proof. apply includes_app. Qed.

Lemma leading_verb_not_empty (s : string) :
  startsWith (toUpperCase (normalizeQuery s)) "SELECT"
  || startsWith (toUpperCase (normalizeQuery s)) "WITH" = true ->
  String.eqb s "" = false /\ (strLength (normalizeQuery s) =? 0)%Z = false.
Proof.
  intros H. split.
  - destruct s; [discriminate H | reflexivity].
  - destruct (normalizeQuery s); [discriminate H | reflexivity].
Qed.

(** The gate behind its first three checks. *)
Lemma validateQuery_scans (s : string) :
  (strLength s <= QUERY_LIMITS.MAX_QUERY_LENGTH)%Z ->
  startsWith (toUpperCase (normalizeQuery s)) "SELECT"
  || startsWith (toUpperCase (normalizeQuery s)) "WITH" = true ->
  validateQuery s =
  match firstBlockedKeyword (normalizeQuery s) with
  | Some keyword => invalid (keywordError keyword)
  | None => if matchesBlockedPattern (normalizeQuery s)
            then invalid patternError else valid
  end.
Proof.
  intros Hlen Hverb. unfold validateQuery.
  rewrite (validateQueryLength_short s Hlen). cbn [isValid valid negb].
  unfold validateReadOnlyQuery.
  destruct (leading_verb_not_empty s Hverb) as [-> ->].
  rewrite <- negb_orb, Hverb. cbn [negb].
  destruct (firstBlockedKeyword (normalizeQuery s)); [reflexivity|].
  destruct (matchesBlockedPattern (normalizeQuery s)); reflexivity.
Qed.

(** A statement whose normalized text holds a keyword is not blank. *)
Lemma wholeWord_not_blank (keyword s : string) :
  In keyword BLOCKED_KEYWORDS -> WholeWord keyword (normalizeQuery s) ->
  String.eqb s "" = false /\ (strLength (normalizeQuery s) =? 0)%Z = false.
Proof.
  intros Hin (pre & w & post & Hs & [Hlen _] & _).
  assert (Hw : w <> "").
  { intros ->. cbn in Hin.
    repeat (destruct Hin as [<- | Hin]; [discriminate Hlen|]). exact Hin. }
  assert (Hn : normalizeQuery s <> "").
  { rewrite Hs. destruct pre; cbn; [|discriminate].
    destruct w; [congruence | discriminate]. }
  split.
  - destruct s; [exfalso; apply Hn; reflexivity | reflexivity].
  - destruct (normalizeQuery s); [congruence | reflexivity].
Qed.

(** The two reasons given before the keyword scan name no keyword. *)
Lemma early_reasons_name_no_keyword (keyword : string) :
  In keyword BLOCKED_KEYWORDS ->
  includes lengthError keyword = false /\ includes startError keyword = false.
Proof.
  intros Hin.
  assert (H : forallb (fun k => negb (includes lengthError k)
                                && negb (includes startError k))
                      BLOCKED_KEYWORDS = true) by (vm_compute; reflexivity).
  rewrite forallb_forall in H. specialize (H keyword Hin).
  apply andb_prop in H. destruct H as [H1 H2].
  apply negb_true_iff in H1, H2. auto.
Qed.

(** C5 (as the code has it). A statement whose normalized text holds some
    blocked keyword as a whole word, in whatever case and also inside a
    string literal, is always blocked.  When the statement has at most 10,000
    characters and its normalized text starts with SELECT or WITH, the reason
    is the keyword reason, and the keyword it names is the first of the list
    that so occurs; a longer statement is blocked with the length reason and
    one with another leading verb with the leading-verb reason, and these two
    reasons name no keyword of the list.  When no keyword occurs as a whole
    word, the reason is never a keyword reason - a keyword that is only part
    of a longer identifier does not block - and behind the length and
    leading-verb checks the answer is left to the pattern scan.  The scan
    reads the normalized text: a keyword inside a comment is not seen. *)
Theorem keyword_scan_names_first (s : string) :
  ((exists keyword,
       In keyword BLOCKED_KEYWORDS /\ WholeWord keyword (normalizeQuery s)) ->
   exists reason,
     validateQuery s = invalid reason /\
     ((10000 < strLength s)%Z /\
      reason = "Query exceeds maximum length of 10000 characters" /\
      (forall k, In k BLOCKED_KEYWORDS -> includes reason k = false) \/
      (strLength s <= 10000)%Z /\
      startsWith (toUpperCase (normalizeQuery s)) "SELECT"
      || startsWith (toUpperCase (normalizeQuery s)) "WITH" = false /\
      reason = "Only SELECT queries are allowed. Query must start with SELECT or WITH (for CTEs)" /\
      (forall k, In k BLOCKED_KEYWORDS -> includes reason k = false) \/
      (strLength s <= 10000)%Z /\
      startsWith (toUpperCase (normalizeQuery s)) "SELECT"
      || startsWith (toUpperCase (normalizeQuery s)) "WITH" = true /\
      exists before keyword after,
        BLOCKED_KEYWORDS = (before ++ keyword :: after)%list /\
        WholeWord keyword (normalizeQuery s) /\
        (forall k, In k before -> ~ WholeWord k (normalizeQuery s)) /\
        reason = "Blocked keyword detected: " ++ keyword ++
                 ". Only read-only SELECT queries are allowed" /\
        includes reason keyword = true)) /\
  ((forall keyword,
       In keyword BLOCKED_KEYWORDS -> ~ WholeWord keyword (normalizeQuery s)) ->
   (forall keyword,
       validateQuery s
       <> invalid ("Blocked keyword detected: " ++ keyword ++
                   ". Only read-only SELECT queries are allowed")) /\
   ((strLength s <= 10000)%Z ->
    startsWith (toUpperCase (normalizeQuery s)) "SELECT"
    || startsWith (toUpperCase (normalizeQuery s)) "WITH" = true ->
    validateQuery s
    = if matchesBlockedPattern (normalizeQuery s)
      then invalid patternError else valid)) /\
  validateQuery "SELECT * FROM users WHERE name = 'INSERT'"
  = invalid "Blocked keyword detected: INSERT. Only read-only SELECT queries are allowed" /\
  validateQuery "SELECT created_at, updates FROM imports" = valid /\
  (WholeWord "DROP" "SELECT 1 /* DROP */" /\
   validateQuery "SELECT 1 /* DROP */" = valid).
Proof.
  split; [|split; [|split; [|split; [|split]]]]; try reflexivity.
  - intros (kw & Hin & Hkw).
    destruct (Z.leb_spec (strLength s) 10000) as [Hlen | Hlen].
    + destruct (startsWith (toUpperCase (normalizeQuery s)) "SELECT"
                || startsWith (toUpperCase (normalizeQuery s)) "WITH") eqn:Hverb.
      * pose proof (validateQuery_scans s Hlen Hverb) as Hscan.
        destruct (firstBlockedKeyword (normalizeQuery s)) as [keyword|] eqn:E.
        -- unfold firstBlockedKeyword in E.
           destruct (find_first _ _ _ _ E) as (before & after & Hl & Hk & Hb).
           eexists. split; [exact Hscan|]. right. right.
           split; [exact Hlen|]. split; [reflexivity|].
           exists before, keyword, after. repeat split.
           ++ exact Hl.
           ++ apply testKeyword_spec, Hk.
           ++ intros k Hkin Hw. apply testKeyword_spec in Hw.
              rewrite (Hb k Hkin) in Hw. discriminate Hw.
           ++ apply keywordError_names.
        -- exfalso. unfold firstBlockedKeyword in E.
           pose proof (List.find_none _ _ E kw Hin) as Hnone. cbn beta in Hnone.
           apply testKeyword_spec in Hkw. rewrite Hkw in Hnone. discriminate Hnone.
      * exists startError. split.
        -- unfold validateQuery. rewrite (validateQueryLength_short s Hlen).
           cbn [isValid valid negb]. unfold validateReadOnlyQuery.
           destruct (wholeWord_not_blank kw s Hin Hkw) as [-> ->].
           rewrite <- negb_orb, Hverb. reflexivity.
        -- right. left. split; [exact Hlen|]. split; [reflexivity|].
           split; [reflexivity|]. intros k Hk.
           apply (early_reasons_name_no_keyword k Hk).
    + exists lengthError. split.
      * unfold validateQuery.
        rewrite validateQueryLength_long
          by (unfold QUERY_LIMITS.MAX_QUERY_LENGTH; lia).
        reflexivity.
      * left. split; [exact Hlen|]. split; [reflexivity|]. intros k Hk.
        apply (early_reasons_name_no_keyword k Hk).
  - intros Hnone.
    assert (E : firstBlockedKeyword (normalizeQuery s) = None).
    { destruct (firstBlockedKeyword (normalizeQuery s)) as [keyword|] eqn:E;
        [|reflexivity].
      exfalso. unfold firstBlockedKeyword in E.
      apply List.find_some in E. destruct E as [Hin Hk].
      apply (Hnone keyword Hin), testKeyword_spec, Hk. }
    split.
    + intros keyword. unfold validateQuery, validateQueryLength.
      destruct (strLength s >? QUERY_LIMITS.MAX_QUERY_LENGTH)%Z;
        [cbn; discriminate|].
      cbn [isValid valid negb]. unfold validateReadOnlyQuery.
      destruct (String.eqb s ""); [cbn; discriminate|].
      destruct (strLength (normalizeQuery s) =? 0)%Z; [cbn; discriminate|].
      destruct (negb _ && negb _); [cbn; discriminate|].
      rewrite E.
      destruct (matchesBlockedPattern (normalizeQuery s)); cbn; discriminate.
    + intros Hlen Hverb. rewrite (validateQuery_scans s Hlen Hverb), E.
      reflexivity.
  - apply testKeyword_spec. reflexivity.
Qed.

Lemma keyword_scan_names_first_witness :
  exists reason,
    validateQuery "select 1; drop table t; update t set a = 1" = invalid reason /\
    ((10000 < strLength "select 1; drop table t; update t set a = 1")%Z /\
     reason = "Query exceeds maximum length of 10000 characters" /\
     (forall k, In k BLOCKED_KEYWORDS -> includes reason k = false) \/
     (strLength "select 1; drop table t; update t set a = 1" <= 10000)%Z /\
     startsWith
       (toUpperCase (normalizeQuery "select 1; drop table t; update t set a = 1"))
       "SELECT"
     || startsWith
          (toUpperCase (normalizeQuery "select 1; drop table t; update t set a = 1"))
          "WITH" = false /\
     reason = "Only SELECT queries are allowed. Query must start with SELECT or WITH (for CTEs)" /\
     (forall k, In k BLOCKED_KEYWORDS -> includes reason k = false) \/
     (strLength "select 1; drop table t; update t set a = 1" <= 10000)%Z /\
     startsWith
       (toUpperCase (normalizeQuery "select 1; drop table t; update t set a = 1"))
       "SELECT"
     || startsWith
          (toUpperCase (normalizeQuery "select 1; drop table t; update t set a = 1"))
          "WITH" = true /\
     exists before keyword after,
       BLOCKED_KEYWORDS = (before ++ keyword :: after)%list /\
       WholeWord keyword
         (normalizeQuery "select 1; drop table t; update t set a = 1") /\
       (forall k, In k before ->
                  ~ WholeWord k
                      (normalizeQuery "select 1; drop table t; update t set a = 1")) /\
       reason = "Blocked keyword detected: " ++ keyword ++
                ". Only read-only SELECT queries are allowed" /\
       includes reason keyword = true).
Proof.
  apply (proj1 (keyword_scan_names_first
                  "select 1; drop table t; update t set a = 1")).
  exists "DROP". split.
  - cbn. auto.
  - apply testKeyword_spec. reflexivity.
Defined.

(** C5 (as stated, refuted). [DELETE FROM users] holds the blocked keyword
    DELETE as a whole word; the gate blocks it at the leading-verb check, and
    the reason it gives does not name DELETE. *)
Lemma leading_verb_reason_names_no_keyword :
  WholeWord "DELETE" "DELETE FROM users" /\
  In "DELETE" BLOCKED_KEYWORDS /\
  validateQuery "DELETE FROM users"
  = invalid "Only SELECT queries are allowed. Query must start with SELECT or WITH (for CTEs)" /\
  includes "Only SELECT queries are allowed. Query must start with SELECT or WITH (for CTEs)"
           "DELETE" = false.
Proof.
  repeat split.
  - apply testKeyword_spec. reflexivity.
  - cbn. auto.
Qed.

(* ------------------------------------------------------------------ *)
(** ** The normalizer: what each pass leaves behind *)

Lemma linebreak_not_dash (c : ascii) :
  isLineBreak c = true -> Ascii.eqb c "-" = false.
Proof. ascii_cases c. Qed.

Lemma whitespace_not_mark (c : ascii) :
  isWhiteSpace c = true ->
  Ascii.eqb c "-" = false /\ Ascii.eqb c "/" = false /\ Ascii.eqb c "*" = false.
Proof. ascii_cases c. Qed.

Lemma noDashDash_tail (c : ascii) (r : string) :
  noDashDash (String c r) = true -> noDashDash r = true.
Proof. cbn. intros H. apply andb_prop in H. tauto. Qed.

Lemma noBlockComment_tail (c : ascii) (r : string) :
  noBlockComment (String c r) = true -> noBlockComment r = true.
Proof. cbn. intros H. apply andb_prop in H. tauto. Qed.

Lemma hasClose_tail (c : ascii) (r : string) :
  hasClose (String c r) = false -> hasClose r = false.
Proof. cbn. intros H. apply orb_false_elim in H. tauto. Qed.

(** *** Line comments *)

Lemma head_removeLineComments (x : ascii) (r : string) :
  Ascii.eqb x " " = false ->
  headIs (Ascii.eqb x) (removeLineComments false r) = true ->
  headIs (Ascii.eqb x) r = true.
Proof.
  destruct r as [|d r]; cbn [removeLineComments]; [auto|].
  destruct (Ascii.eqb d "-" && headIs (Ascii.eqb "-") r); cbn [headIs];
    intros Hx H; [congruence | exact H].
Qed.

Lemma removeLineComments_clean (s : string) :
  forall b, noDashDash (removeLineComments b s) = true.
Proof.
  induction s as [|c r IH]; intros b; [reflexivity|].
  cbn [removeLineComments]. destruct b.
  - destruct (isLineBreak c) eqn:Hl; [|apply IH].
    cbn [noDashDash]. now rewrite IH, (linebreak_not_dash c Hl).
  - destruct (Ascii.eqb c "-" && headIs (Ascii.eqb "-") r) eqn:E.
    + cbn [noDashDash]. rewrite IH. reflexivity.
    + cbn [noDashDash]. rewrite IH, andb_true_r. apply negb_true_iff.
      destruct (Ascii.eqb c "-") eqn:Hc; [|reflexivity]. cbn in E |- *.
      destruct (headIs (Ascii.eqb "-") (removeLineComments false r)) eqn:H;
        [|reflexivity].
      apply head_removeLineComments in H; [congruence | reflexivity].
Qed.

Lemma removeLineComments_fixed (s : string) :
  noDashDash s = true -> removeLineComments false s = s.
Proof.
  induction s as [|c r IH]; [reflexivity|].
  cbn. intros H. apply andb_prop in H. destruct H as [H1 H2].
  apply negb_true_iff in H1. rewrite H1. f_equal. auto.
Qed.

(** *** Block comments *)

Lemma string_pair_ind (P : string -> Prop) :
  P "" -> (forall c, P (String c "")) ->
  (forall c d r, P r -> P (String d r) -> P (String c (String d r))) ->
  forall s, P s.
Proof.
  intros H0 H1 H2 s.
  assert (H : P s /\ forall c, P (String c s)).
  { induction s as [|d r [IHr IHc]]; [auto|]. split; auto. }
  apply H.
Qed.

Lemma removeBlockComments_pair (b : bool) (c d : ascii) (r : string) :
  removeBlockComments b (String c (String d r)) =
  if b then
    if Ascii.eqb c "*" && Ascii.eqb d "/"
    then removeBlockComments false r
    else removeBlockComments true (String d r)
  else if Ascii.eqb c "/" && Ascii.eqb d "*" && hasClose r
       then String " " (removeBlockComments true r)
       else String c (removeBlockComments false (String d r)).
Proof. reflexivity. Qed.

Lemma removeBlockComments_step (c : ascii) (r : string) :
  Ascii.eqb c "/" = false ->
  removeBlockComments false (String c r) = String c (removeBlockComments false r).
Proof.
  intros Hc. cbn [removeBlockComments]. destruct r as [|d r]; [reflexivity|].
  now rewrite Hc.
Qed.

Lemma head_removeBlockComments (x : ascii) (r : string) :
  Ascii.eqb x " " = false ->
  headIs (Ascii.eqb x) (removeBlockComments false r) = true ->
  headIs (Ascii.eqb x) r = true.
Proof.
  destruct r as [|d r]; cbn [removeBlockComments]; [auto|].
  destruct r as [|e r]; [auto|].
  destruct (Ascii.eqb d "/" && Ascii.eqb e "*" && hasClose r); cbn [headIs];
    intros Hx H; [congruence | exact H].
Qed.

Lemma removeBlockComments_noClose (s : string) :
  hasClose s = false -> removeBlockComments false s = s.
Proof.
  induction s as [|c r IH]; [reflexivity|]. intros H.
  pose proof (hasClose_tail c r H) as Hr.
  cbn [removeBlockComments]. destruct r as [|d r]; [reflexivity|].
  rewrite (hasClose_tail d r Hr), andb_false_r. f_equal. apply IH, Hr.
Qed.

Lemma removeBlockComments_keeps_clean (s : string) :
  noDashDash s = true -> forall b, noDashDash (removeBlockComments b s) = true.
Proof.
  induction s as [| c | c d r IHr IHd] using string_pair_ind; intros H b.
  - reflexivity.
  - cbn. destruct b; [reflexivity | exact H].
  - pose proof (noDashDash_tail _ _ H) as Hd.
    pose proof (noDashDash_tail _ _ Hd) as Hr.
    rewrite removeBlockComments_pair. destruct b.
    + destruct (Ascii.eqb c "*" && Ascii.eqb d "/"); auto.
    + destruct (Ascii.eqb c "/" && Ascii.eqb d "*" && hasClose r).
      * cbn [noDashDash]. rewrite (IHr Hr). reflexivity.
      * cbn [noDashDash]. rewrite (IHd Hd), andb_true_r. apply negb_true_iff.
        destruct (Ascii.eqb c "-") eqn:Hc; [|reflexivity]. cbn [andb].
        destruct (headIs (Ascii.eqb "-")
                    (removeBlockComments false (String d r))) eqn:Hh;
          [|reflexivity].
        apply head_removeBlockComments in Hh; [|reflexivity].
        cbn in H. rewrite Hc in H. cbn in Hh. rewrite Hh in H. discriminate H.
Qed.

Lemma removeBlockComments_clean (s : string) :
  forall b, noBlockComment (removeBlockComments b s) = true.
Proof.
  induction s as [| c | c d r IHr IHd] using string_pair_ind; intros b.
  - reflexivity.
  - cbn. destruct b; [reflexivity|]. unfold noBlockComment, headIs.
    now rewrite andb_false_r.
  - rewrite removeBlockComments_pair. destruct b.
    + destruct (Ascii.eqb c "*" && Ascii.eqb d "/"); auto.
    + destruct (Ascii.eqb c "/" && Ascii.eqb d "*" && hasClose r) eqn:E.
      * cbn [noBlockComment]. rewrite IHr. reflexivity.
      * cbn [noBlockComment]. rewrite IHd, andb_true_r. apply negb_true_iff.
        destruct (Ascii.eqb c "/") eqn:Hc; [|reflexivity]. cbn [andb] in E |- *.
        destruct (headIs (Ascii.eqb "*")
                    (removeBlockComments false (String d r))) eqn:Hh;
          [|reflexivity].
        pose proof Hh as Hd.
        apply head_removeBlockComments in Hd; [|reflexivity].
        cbn [headIs] in Hd. rewrite Ascii.eqb_sym in Hd. rewrite Hd in E.
        cbn [andb] in E.
        rewrite removeBlockComments_step.
        -- cbn [trimOne andb].
           now rewrite (removeBlockComments_noClose r E).
        -- apply Ascii.eqb_eq in Hd. subst d. reflexivity.
Qed.

Lemma removeBlockComments_fixed (s : string) :
  noBlockComment s = true -> removeBlockComments false s = s.
Proof.
  induction s as [|c r IH]; [reflexivity|]. intros H.
  pose proof (noBlockComment_tail c r H) as Hr.
  cbn [removeBlockComments]. destruct r as [|d r]; [reflexivity|].
  cbn [noBlockComment headIs trimOne] in H.
  apply andb_prop in H. destruct H as [H _].
  apply negb_true_iff in H. rewrite (Ascii.eqb_sym "*" d) in H.
  rewrite H. f_equal. apply IH, Hr.
Qed.

(** *** White space *)

Lemma collapseWhitespace_cons (b : bool) (c : ascii) (r : string) :
  collapseWhitespace b (String c r) =
  if isWhiteSpace c then
    if b then collapseWhitespace true r
    else String " " (collapseWhitespace true r)
  else String c (collapseWhitespace false r).
Proof. reflexivity. Qed.

Lemma head_collapseWhitespace (x : ascii) (r : string) :
  isWhiteSpace x = false ->
  headIs (Ascii.eqb x) (collapseWhitespace false r) = true ->
  headIs (Ascii.eqb x) r = true.
Proof.
  intros Hx. destruct r as [|d r]; [auto|].
  rewrite collapseWhitespace_cons. destruct (isWhiteSpace d); [|auto].
  cbn [headIs]. intros H. apply Ascii.eqb_eq in H. subst x. discriminate Hx.
Qed.

Lemma collapseWhitespace_keeps_clean (s : string) :
  noDashDash s = true -> forall b, noDashDash (collapseWhitespace b s) = true.
Proof.
  induction s as [|c r IH]; intros H b; [reflexivity|].
  pose proof (noDashDash_tail _ _ H) as Hr.
  rewrite collapseWhitespace_cons. destruct (isWhiteSpace c) eqn:Hc.
  - destruct b; [auto|]. cbn [noDashDash]. rewrite (IH Hr). reflexivity.
  - cbn [noDashDash]. rewrite (IH Hr), andb_true_r. apply negb_true_iff.
    destruct (Ascii.eqb c "-") eqn:Hd; [|reflexivity]. cbn [andb].
    destruct (headIs (Ascii.eqb "-") (collapseWhitespace false r)) eqn:Hh;
      [|reflexivity].
    apply head_collapseWhitespace in Hh; [|reflexivity].
    cbn [noDashDash] in H. rewrite Hd, Hh in H. discriminate H.
Qed.

Lemma collapseWhitespace_close (s : string) :
  forall b, hasClose (collapseWhitespace b s) = true -> hasClose s = true.
Proof.
  induction s as [|c r IH]; intros b; [auto|].
  rewrite collapseWhitespace_cons. cbn [hasClose].
  destruct (isWhiteSpace c) eqn:Hc.
  - intros H. assert (Hr : hasClose r = true).
    { destruct b; [exact (IH _ H)|]. cbn [hasClose] in H.
      apply orb_prop in H. destruct H as [H | H]; [discriminate H | exact (IH _ H)]. }
    rewrite Hr. apply orb_true_r.
  - cbn [hasClose]. intros H. apply orb_prop in H. destruct H as [H | H].
    + apply andb_prop in H. destruct H as [H1 H2].
      apply head_collapseWhitespace in H2; [|reflexivity].
      now rewrite H1, H2.
    + rewrite (IH _ H). apply orb_true_r.
Qed.

Lemma collapseWhitespace_keeps_block_free (s : string) :
  noBlockComment s = true ->
  forall b, noBlockComment (collapseWhitespace b s) = true.
Proof.
  induction s as [|c r IH]; intros H b; [reflexivity|].
  pose proof (noBlockComment_tail _ _ H) as Hr.
  rewrite collapseWhitespace_cons. destruct (isWhiteSpace c) eqn:Hc.
  - destruct b; [auto|]. cbn [noBlockComment]. rewrite (IH Hr). reflexivity.
  - cbn [noBlockComment]. rewrite (IH Hr), andb_true_r. apply negb_true_iff.
    destruct (Ascii.eqb c "/") eqn:Hd; [|reflexivity]. cbn [andb].
    destruct (headIs (Ascii.eqb "*") (collapseWhitespace false r)) eqn:Hh;
      [|reflexivity].
    cbn [andb]. pose proof Hh as Hstar.
    apply head_collapseWhitespace in Hstar; [|reflexivity].
    destruct r as [|d r]; [discriminate Hstar|].
    cbn [headIs] in Hstar.
    assert (Hdw : isWhiteSpace d = false).
    { apply Ascii.eqb_eq in Hstar. subst d. reflexivity. }
    rewrite collapseWhitespace_cons, Hdw. cbn [trimOne].
    destruct (hasClose (collapseWhitespace false r)) eqn:Hcl; [|reflexivity].
    apply collapseWhitespace_close in Hcl.
    cbn [noBlockComment headIs trimOne] in H.
    rewrite Hd, Hstar, Hcl in H. discriminate H.
Qed.

Lemma collapseWhitespace_spaced (s : string) :
  forall b, singleSpaced b (collapseWhitespace b s) = true.
Proof.
  induction s as [|c r IH]; intros b; [reflexivity|].
  rewrite collapseWhitespace_cons. destruct (isWhiteSpace c) eqn:Hc.
  - destruct b; [apply IH|]. cbn [singleSpaced].
    change (isWhiteSpace " ") with true. cbn iota. rewrite IH. reflexivity.
  - cbn [singleSpaced]. rewrite Hc. apply IH.
Qed.

Lemma collapseWhitespace_fixed (s : string) :
  forall b, singleSpaced b s = true -> collapseWhitespace b s = s.
Proof.
  induction s as [|c r IH]; intros b H; [reflexivity|].
  rewrite collapseWhitespace_cons. cbn [singleSpaced] in H.
  destruct (isWhiteSpace c).
  - apply andb_prop in H. destruct H as [H Hr].
    apply andb_prop in H. destruct H as [Hc Hb].
    apply Ascii.eqb_eq in Hc. subst c. apply negb_true_iff in Hb. subst b.
    f_equal. apply IH, Hr.
  - f_equal. apply IH, H.
Qed.

Lemma singleSpaced_weaken (b : bool) (s : string) :
  singleSpaced b s = true -> singleSpaced false s = true.
Proof.
  destruct s as [|c r]; [auto|]. cbn [singleSpaced].
  destruct (isWhiteSpace c); [|auto]. intros H.
  apply andb_prop in H. destruct H as [H Hr].
  apply andb_prop in H. destruct H as [Hc _]. now rewrite Hc, Hr.
Qed.

(** *** Trimming *)

Section Suffixes.

Variable clean : string -> bool.
Hypothesis clean_tail : forall c r, clean (String c r) = true -> clean r = true.

Lemma trimStart_keeps (s : string) :
  clean s = true -> clean (trimStart s) = true.
Proof.
  induction s as [|c r IH]; [auto|]. cbn [trimStart].
  destruct (isWhiteSpace c); [|auto]. intros H. apply IH, (clean_tail c r H).
Qed.

End Suffixes.

Lemma trimStart_spaced (s : string) :
  forall b, singleSpaced b s = true -> singleSpaced false (trimStart s) = true.
Proof.
  induction s as [|c r IH]; intros b H; [reflexivity|].
  cbn [trimStart]. cbn [singleSpaced] in H.
  destruct (isWhiteSpace c) eqn:Hc.
  - apply andb_prop in H. destruct H as [_ Hr]. exact (IH _ Hr).
  - cbn [singleSpaced]. now rewrite Hc.
Qed.

Lemma noDashDash_prefix (s u : string) :
  noDashDash (s ++ u) = true -> noDashDash s = true.
Proof.
  induction s as [|c r IH]; [reflexivity|].
  cbn [append noDashDash]. intros H. apply andb_prop in H. destruct H as [H Hr].
  rewrite (IH Hr), andb_true_r.
  destruct (Ascii.eqb c "-"); [|reflexivity].
  destruct r as [|d r]; [reflexivity | exact H].
Qed.

Lemma hasClose_app (s u : string) :
  hasClose s = true -> hasClose (s ++ u) = true.
Proof.
  induction s as [|c r IH]; [discriminate|].
  cbn [append hasClose]. intros H. apply orb_prop in H. destruct H as [H | H].
  - destruct r as [|d r]; [now rewrite andb_false_r in H|].
    cbn [append headIs] in *. now rewrite H.
  - rewrite (IH H). apply orb_true_r.
Qed.

Lemma noBlockComment_prefix (s u : string) :
  noBlockComment (s ++ u) = true -> noBlockComment s = true.
Proof.
  induction s as [|c r IH]; [reflexivity|].
  cbn [append noBlockComment]. intros H. apply andb_prop in H.
  destruct H as [H Hr]. rewrite (IH Hr), andb_true_r.
  destruct r as [|d r]; [cbn [headIs]; now rewrite andb_false_r|].
  cbn [append headIs trimOne] in *.
  destruct (Ascii.eqb c "/" && Ascii.eqb "*" d); [|reflexivity].
  cbn [andb negb] in *. apply negb_true_iff in H. apply negb_true_iff.
  destruct (hasClose r) eqn:E; [|reflexivity].
  now rewrite (hasClose_app r u E) in H.
Qed.

Lemma singleSpaced_prefix (s u : string) :
  forall b, singleSpaced b (s ++ u) = true -> singleSpaced b s = true.
Proof.
  induction s as [|c r IH]; intros b; [reflexivity|].
  cbn [append singleSpaced]. destruct (isWhiteSpace c); [|apply IH].
  intros H. apply andb_prop in H. destruct H as [H Hr].
  now rewrite H, (IH _ Hr).
Qed.

Section Prefixes.

Variable clean : string -> bool.
Hypothesis clean_prefix : forall s u, clean (s ++ u) = true -> clean s = true.

Lemma trimEnd_keeps (s : string) : clean s = true -> clean (trimEnd s) = true.
Proof.
  intros H. destruct (trimEnd_split s) as [u [Hs _]].
  apply (clean_prefix (trimEnd s) u). now rewrite <- Hs.
Qed.

End Prefixes.

Lemma trimStart_fixed (s : string) :
  headIs isWhiteSpace s = false -> trimStart s = s.
Proof. destruct s as [|c r]; cbn; [auto | now intros ->]. Qed.

Lemma trimStart_head (s : string) : headIs isWhiteSpace (trimStart s) = false.
Proof.
  induction s as [|c r IH]; [reflexivity|]. cbn [trimStart].
  destruct (isWhiteSpace c) eqn:Hc; [exact IH | cbn; exact Hc].
Qed.

Lemma trimEnd_head (s : string) :
  headIs isWhiteSpace s = false -> headIs isWhiteSpace (trimEnd s) = false.
Proof.
  destruct s as [|c r]; [auto|]. cbn [headIs trimEnd]. intros Hc.
  destruct (trimEnd r); [rewrite Hc|]; exact Hc.
Qed.

Lemma trimEnd_idempotent (s : string) : trimEnd (trimEnd s) = trimEnd s.
Proof.
  induction s as [|c r IH]; [reflexivity|]. cbn [trimEnd].
  destruct (trimEnd r) as [|d r'] eqn:E.
  - destruct (isWhiteSpace c) eqn:Hc; [reflexivity|]. cbn. now rewrite Hc.
  - cbn [trimEnd]. cbn [trimEnd] in IH. now rewrite IH.
Qed.

Lemma trim_fixed (s : string) : trim (trim s) = trim s.
Proof.
  unfold trim.
  rewrite (trimStart_fixed (trimEnd (trimStart s))).
  - apply trimEnd_idempotent.
  - apply trimEnd_head, trimStart_head.
Qed.

(* ------------------------------------------------------------------ *)
(** ** The passes of the normalizer on one match of their expression *)

Lemma removeLineComments_skip (body rest : string) :
  allChars (fun c => negb (isLineBreak c)) body = true ->
  removeLineComments true (body ++ rest) = removeLineComments true rest.
Proof.
  induction body as [|c body IH]; [reflexivity|]. cbn [allChars append].
  intros H. apply andb_prop in H. destruct H as [Hc Hb].
  apply negb_true_iff in Hc. cbn [removeLineComments]. rewrite Hc. auto.
Qed.

(** [--], then everything up to the end of the line, becomes one space. *)
Lemma removeLineComments_match (body rest : string) :
  allChars (fun c => negb (isLineBreak c)) body = true ->
  rest = "" \/ headIs isLineBreak rest = true ->
  removeLineComments false ("--" ++ body ++ rest)
  = " " ++ removeLineComments false rest.
Proof.
  intros Hb Hrest.
  change (removeLineComments false ("--" ++ body ++ rest))
    with (String " " (removeLineComments true (body ++ rest))).
  rewrite (removeLineComments_skip body rest Hb). cbn [append]. f_equal.
  destruct Hrest as [-> | H]; [reflexivity|].
  destruct rest as [|c r]; [discriminate H|]. cbn [headIs] in H.
  cbn [removeLineComments]. now rewrite H, (linebreak_not_dash c H).
Qed.

Lemma removeBlockComments_skip (body rest : string) :
  hasClose body = false ->
  removeBlockComments true (body ++ "*/" ++ rest)
  = removeBlockComments false rest.
Proof.
  induction body as [|c body IH]; intros H.
  - destruct rest; reflexivity.
  - pose proof (hasClose_tail c body H) as Hb.
    destruct body as [|d body].
    + change (String c "" ++ "*/" ++ rest) with (String c (String "*" ("/" ++ rest))).
      rewrite removeBlockComments_pair.
      change (Ascii.eqb "*" "/") with false. rewrite andb_false_r.
      destruct rest; reflexivity.
    + cbn [append]. rewrite removeBlockComments_pair.
      cbn [hasClose headIs] in H. apply orb_false_elim in H.
      destruct H as [H _]. rewrite (Ascii.eqb_sym "/" d) in H. rewrite H.
      apply (IH Hb).
Qed.

Lemma hasClose_behind (body rest : string) :
  hasClose (body ++ "*/" ++ rest) = true.
Proof.
  induction body as [|c body IH]; [reflexivity|].
  change (String c body ++ "*/" ++ rest) with (String c (body ++ "*/" ++ rest)).
  cbn [hasClose]. rewrite IH. apply orb_true_r.
Qed.

(** [/*], then everything up to the first [*/], becomes one space. *)
Lemma removeBlockComments_match (body rest : string) :
  hasClose body = false ->
  removeBlockComments false ("/*" ++ body ++ "*/" ++ rest)
  = " " ++ removeBlockComments false rest.
Proof.
  intros H.
  change ("/*" ++ body ++ "*/" ++ rest)
    with (String "/" (String "*" (body ++ "*/" ++ rest))).
  rewrite removeBlockComments_pair, hasClose_behind. cbn [andb Ascii.eqb].
  change (Ascii.eqb "/" "/" && Ascii.eqb "*" "*") with true. cbn iota.
  now rewrite (removeBlockComments_skip body rest H).
Qed.

(** A run of white space becomes one space. *)
Lemma collapseWhitespace_match (c : ascii) (ws rest : string) :
  allChars isWhiteSpace (String c ws) = true ->
  headIs isWhiteSpace rest = false ->
  collapseWhitespace false (String c ws ++ rest)
  = " " ++ collapseWhitespace false rest.
Proof.
  cbn [allChars]. intros H Hrest. apply andb_prop in H. destruct H as [Hc Hws].
  cbn [append]. rewrite collapseWhitespace_cons, Hc. f_equal.
  induction ws as [|d ws IH]; cbn [append].
  - destruct rest as [|e r]; [reflexivity|]. cbn [headIs] in Hrest.
    now rewrite !collapseWhitespace_cons, Hrest.
  - cbn [allChars] in Hws. apply andb_prop in Hws. destruct Hws as [Hd Hws].
    rewrite collapseWhitespace_cons, Hd. auto.
Qed.

(* ------------------------------------------------------------------ *)
(** ** The normalizer is idempotent *)

(** What a normalized text looks like: no [--], no closed [/* */], white
    space only as single spaces between other characters. *)
Lemma normalizeQuery_shape (s : string) :
  noDashDash (normalizeQuery s) = true /\
  noBlockComment (normalizeQuery s) = true /\
  singleSpaced false (normalizeQuery s) = true /\
  trim (normalizeQuery s) = normalizeQuery s.
Proof.
  unfold normalizeQuery.
  set (a := removeLineComments false s).
  set (b := removeBlockComments false a).
  set (c := collapseWhitespace false b).
  assert (Ha : noDashDash a = true) by apply removeLineComments_clean.
  assert (Hb1 : noDashDash b = true)
    by (apply removeBlockComments_keeps_clean, Ha).
  assert (Hb2 : noBlockComment b = true) by apply removeBlockComments_clean.
  assert (Hc1 : noDashDash c = true)
    by (apply collapseWhitespace_keeps_clean, Hb1).
  assert (Hc2 : noBlockComment c = true)
    by (apply collapseWhitespace_keeps_block_free, Hb2).
  assert (Hc3 : singleSpaced false c = true) by apply collapseWhitespace_spaced.
  unfold trim at 1 2 3. repeat split.
  - apply (trimEnd_keeps noDashDash noDashDash_prefix).
    apply (trimStart_keeps noDashDash noDashDash_tail), Hc1.
  - apply (trimEnd_keeps noBlockComment noBlockComment_prefix).
    apply (trimStart_keeps noBlockComment noBlockComment_tail), Hc2.
  - apply (trimEnd_keeps (singleSpaced false)
             (fun s u => singleSpaced_prefix s u false)).
    apply (trimStart_spaced c false), Hc3.
  - apply trim_fixed.
Qed.

(** C9. [normalizeQuery] is idempotent: normalizing a normalized text gives
    the same text again, for every input; no pass of the second run (line
    comments, block comments, white-space runs, trimming) finds anything left
    to change. *)
Theorem normalizeQuery_idempotent (s : string) :
  normalizeQuery (normalizeQuery s) = normalizeQuery s /\
  removeLineComments false (normalizeQuery s) = normalizeQuery s /\
  removeBlockComments false (normalizeQuery s) = normalizeQuery s /\
  collapseWhitespace false (normalizeQuery s) = normalizeQuery s /\
  trim (normalizeQuery s) = normalizeQuery s.
Proof.
  destruct (normalizeQuery_shape s) as (H1 & H2 & H3 & H4).
  pose proof (removeLineComments_fixed _ H1) as E1.
  pose proof (removeBlockComments_fixed _ H2) as E2.
  pose proof (collapseWhitespace_fixed _ false H3) as E3.
  repeat split; try assumption.
  unfold normalizeQuery at 1. cbv zeta. now rewrite E1, E2, E3.
Qed.

(** The normalizer on the inputs of the repository's test suite. *)
Example normalizeQuery_line_comment :
  normalizeQuery "SELECT * FROM users -- this is a comment" = "SELECT * FROM users".
Proof. reflexivity. Qed.

Example normalizeQuery_block_comment :
  normalizeQuery "SELECT /* comment */ * FROM users" = "SELECT * FROM users".
Proof. reflexivity. Qed.

Example normalizeQuery_nested_like :
  normalizeQuery "SELECT * /* outer /* inner */ still outer */ FROM users"
  = "SELECT * still outer */ FROM users".
Proof. reflexivity. Qed.

Example normalizeQuery_whitespace :
  normalizeQuery
    ("SELECT    *   FROM" ++ String (ascii_of_nat 10) (String (ascii_of_nat 9)
       "users  WHERE   id = 1"))
  = "SELECT * FROM users WHERE id = 1".
Proof. reflexivity. Qed.

Example validateQuery_comment_is_stripped :
  validateQuery "SELECT * FROM t -- DROP TABLE t" = valid.
Proof. reflexivity. Qed.

Example validateQuery_stacked_statement :
  validateQuery "SELECT * FROM users; dropped" = invalid patternError.
Proof. reflexivity. Qed.

(* ------------------------------------------------------------------ *)
(** ** More on the gate: what it lets through *)

Lemma trimStart_whitespace (ws t : string) :
  allChars isWhiteSpace ws = true -> trimStart (ws ++ t) = trimStart t.
Proof.
  induction ws as [|c ws IH]; [reflexivity|]. cbn [allChars append trimStart].
  intros H. apply andb_prop in H. destruct H as [-> H]. auto.
Qed.

Lemma sameWord_head (w keyword : string) :
  SameWord w keyword -> allChars isWordChar keyword = true ->
  keyword <> "" -> headIs isWhiteSpace w = false.
Proof.
  intros [Hl Hu] Hk Hne. destruct keyword as [|k keyword]; [congruence|].
  destruct w as [|c w]; [discriminate Hl|]. cbn in Hu |- *.
  injection Hu as Hc _. cbn in Hk. apply andb_prop in Hk. destruct Hk as [Hk _].
  destruct (isWhiteSpace c) eqn:Hw; [|reflexivity].
  rewrite (toUpperChar_whitespace c Hw) in Hc.
  pose proof (toUpperChar_word k) as Hword. rewrite <- Hc, Hk in Hword.
  rewrite (whitespace_not_word c Hw) in Hword. discriminate Hword.
Qed.

Lemma matchPrefixCI_some (keyword s : string) :
  (exists rest, matchPrefixCI keyword s = Some rest) <-> StartsWithWord keyword s.
Proof.
  unfold StartsWithWord. split.
  - intros [rest H]. apply matchPrefixCI_spec in H. destruct H as (w & -> & Hw).
    exists w, rest. auto.
  - intros (w & rest & -> & Hw). exists rest. apply matchPrefixCI_spec.
    exists w. auto.
Qed.

Lemma startsWith_upper (s p : string) :
  toUpperCase p = p ->
  (startsWith (toUpperCase s) p = true <-> StartsWithWord p s).
Proof.
  unfold StartsWithWord, SameWord. revert s.
  induction p as [|a p IH]; intros s Hp.
  - split; [|reflexivity]. intros _. exists "", s. auto.
  - cbn in Hp. injection Hp as Ha Hp. destruct s as [|c s]; cbn [toUpperCase startsWith].
    + split; [discriminate|]. intros (w & rest & H & Hl & _).
      destruct w; discriminate.
    + rewrite andb_true_iff, (IH s Hp), Ascii.eqb_eq. split.
      * intros (Hc & w & rest & -> & Hl & Hu). exists (String c w), rest.
        cbn. rewrite Hl, Hu, Ha, Hp, <- Hc. auto.
      * intros (w & rest & H & Hl & Hu). destruct w as [|c' w]; [discriminate Hl|].
        cbn in H, Hl, Hu. injection H as -> ->. injection Hu as Hc Hu.
        rewrite Ha in Hc. rewrite Hp in Hu. split; [congruence|].
        exists w, rest. rewrite Hp. auto.
Qed.

Lemma stackedWrite_spec (s : string) :
  regexTest stackedWriteAt s = true <-> StackedWrite s.
Proof.
  unfold regexTest, StackedWrite. rewrite regexSearch_spec. split.
  - intros (pre & suf & -> & Hm). destruct suf as [|c r]; [discriminate Hm|].
    cbn [stackedWriteAt] in Hm. apply andb_prop in Hm. destruct Hm as [Hc Hm].
    apply Ascii.eqb_eq in Hc. subst c.
    apply existsb_exists in Hm. destruct Hm as (kw & Hin & Hm).
    destruct (matchPrefixCI kw (trimStart r)) as [rest|] eqn:E; [|discriminate].
    apply matchPrefixCI_spec in E. destruct E as (w & Hr & Hw).
    destruct (trimStart_split r) as (ws & Hs & Hws).
    exists pre, ws, w, rest, kw.
    split; [|split; [exact Hws | split; [exact Hw | exact Hin]]].
    cbn [append]. now rewrite <- Hr, <- Hs.
  - intros (pre & ws & w & rest & kw & -> & Hws & Hw & Hin).
    exists pre, (";" ++ ws ++ w ++ rest). split; [reflexivity|].
    cbn [append stackedWriteAt]. rewrite Ascii.eqb_refl. cbn [andb].
    apply existsb_exists. exists kw. split; [exact Hin|].
    rewrite (trimStart_whitespace ws _ Hws), trimStart_fixed.
    + assert (E : matchPrefixCI kw (w ++ rest) = Some rest)
        by (apply matchPrefixCI_spec; exists w; auto).
      now rewrite E.
    + assert (Hh : headIs isWhiteSpace w = false).
      { apply (sameWord_head w kw Hw);
          cbn in Hin; intuition (subst; (reflexivity || discriminate)). }
      destruct w as [|c w]; [destruct Hw as [Hl _]|exact Hh].
      cbn in Hin. intuition (subst; discriminate).
Qed.

Lemma twoWords_spec (w1 w2 s : string) :
  allChars isWordChar w2 = true -> w2 <> "" ->
  (regexTest (twoWordsAt w1 w2) s = true <-> TwoWords w1 w2 s).
Proof.
  intros Hw2 Hne. unfold regexTest, TwoWords. rewrite regexSearch_spec. split.
  - intros (pre & suf & -> & Hm). unfold twoWordsAt in Hm.
    destruct (matchPrefixCI w1 suf) as [rest1|] eqn:E1; [|discriminate].
    apply matchPrefixCI_spec in E1. destruct E1 as (a & -> & Ha).
    destruct rest1 as [|c r]; [discriminate Hm|]. cbn [afterSpaces1] in Hm.
    apply andb_prop in Hm. destruct Hm as [Hc Hm].
    destruct (matchPrefixCI w2 (trimStart r)) as [rest|] eqn:E2; [|discriminate].
    apply matchPrefixCI_spec in E2. destruct E2 as (b & Hr & Hb).
    destruct (trimStart_split r) as (ws & Hs & Hws).
    exists pre, a, c, ws, b, rest.
    split; [|split; [exact Ha | split; [|exact Hb]]].
    + cbn [append]. now rewrite <- Hr, <- Hs.
    + cbn [allChars]. now rewrite Hc, Hws.
  - intros (pre & a & c & ws & b & rest & -> & Ha & Hws & Hb).
    exists pre, (a ++ String c ws ++ b ++ rest). split; [reflexivity|].
    unfold twoWordsAt.
    assert (E1 : matchPrefixCI w1 (a ++ String c ws ++ b ++ rest)
                 = Some (String c ws ++ b ++ rest))
      by (apply matchPrefixCI_spec; exists a; auto).
    rewrite E1. cbn [append afterSpaces1 allChars] in *.
    apply andb_prop in Hws. destruct Hws as [Hc Hws]. rewrite Hc. cbn [andb].
    rewrite (trimStart_whitespace ws _ Hws), trimStart_fixed.
    + assert (E2 : matchPrefixCI w2 (b ++ rest) = Some rest)
        by (apply matchPrefixCI_spec; exists b; auto).
      now rewrite E2.
    + pose proof (sameWord_head b w2 Hb Hw2 Hne) as Hh.
      destruct b as [|c' b]; [|exact Hh].
      destruct Hb as [Hl _]. destruct w2; [congruence | discriminate Hl].
Qed.

Lemma matchesBlockedPattern_spec (s : string) :
  matchesBlockedPattern s = true <->
  StackedWrite s \/ TwoWords "INTO" "OUTFILE" s \/ TwoWords "LOAD" "DATA" s.
Proof.
  unfold matchesBlockedPattern, BLOCKED_PATTERNS. cbn [existsb].
  rewrite orb_false_r, !orb_true_iff, stackedWrite_spec.
  rewrite !twoWords_spec by (reflexivity || discriminate). tauto.
Qed.

Lemma firstBlockedKeyword_none (s : string) :
  firstBlockedKeyword s = None <->
  forall keyword, In keyword BLOCKED_KEYWORDS -> ~ WholeWord keyword s.
Proof.
  unfold firstBlockedKeyword. split.
  - intros H kw Hin Hw. apply testKeyword_spec in Hw.
    pose proof (List.find_none _ _ H kw Hin) as Hn. cbn beta in Hn. congruence.
  - intros H. destruct (find _ BLOCKED_KEYWORDS) as [kw|] eqn:E; [|reflexivity].
    apply List.find_some in E. destruct E as [Hin Hk].
    exfalso. apply (H kw Hin), testKeyword_spec, Hk.
Qed.

(** X1. The gate lets a statement of ASCII characters through exactly when
    it has at most 10,000 characters and its normalized text starts with
    SELECT or WITH, holds no blocked keyword as a whole word, no semicolon
    followed by a write keyword, and neither INTO OUTFILE nor LOAD DATA.
    The statement is about ASCII text: beyond it the upper-casing of the
    source reaches further than the letters a-z (it takes U+017F to S and
    U+0131 to I), so that a statement can pass the leading-verb test through
    such a character. *)
Theorem validateQuery_allows_exactly (s : string) :
  allChars isAscii s = true ->
  (validateQuery s = valid <->
   (strLength s <= 10000)%Z /\
   (StartsWithWord "SELECT" (normalizeQuery s) \/
    StartsWithWord "WITH" (normalizeQuery s)) /\
   (forall keyword,
       In keyword BLOCKED_KEYWORDS -> ~ WholeWord keyword (normalizeQuery s)) /\
   ~ StackedWrite (normalizeQuery s) /\
   ~ TwoWords "INTO" "OUTFILE" (normalizeQuery s) /\
   ~ TwoWords "LOAD" "DATA" (normalizeQuery s)).
Proof.
  intros _.
  rewrite <- (startsWith_upper (normalizeQuery s) "SELECT") by reflexivity.
  rewrite <- (startsWith_upper (normalizeQuery s) "WITH") by reflexivity.
  rewrite <- firstBlockedKeyword_none, <- orb_true_iff.
  pose proof (matchesBlockedPattern_spec (normalizeQuery s)) as Hpat.
  destruct (Z.leb_spec (strLength s) 10000) as [Hlen | Hlen].
  - destruct (startsWith (toUpperCase (normalizeQuery s)) "SELECT"
              || startsWith (toUpperCase (normalizeQuery s)) "WITH") eqn:Hverb.
    + rewrite (validateQuery_scans s Hlen Hverb).
      destruct (firstBlockedKeyword (normalizeQuery s)) as [kw|].
      * split; [discriminate|]. intros (_ & _ & H & _). discriminate H.
      * destruct (matchesBlockedPattern (normalizeQuery s)).
        -- split; [discriminate|]. intros (_ & _ & _ & H1 & H2 & H3).
           exfalso. destruct Hpat as [Hpat _]. destruct (Hpat eq_refl) as [H|[H|H]]; auto.
        -- split; [|reflexivity]. intros _. repeat split; auto;
             intros H; destruct Hpat as [_ Hpat]; discriminate Hpat; auto.
    + split; [|intros (_ & H & _); discriminate H].
      unfold validateQuery. rewrite (validateQueryLength_short s Hlen).
      cbn [isValid valid negb]. unfold validateReadOnlyQuery.
      destruct (String.eqb s ""); [discriminate|].
      destruct (strLength (normalizeQuery s) =? 0)%Z; [discriminate|].
      rewrite <- negb_orb, Hverb. discriminate.
  - split; [|intros (H & _); lia].
    unfold validateQuery.
    rewrite validateQueryLength_long
      by (unfold QUERY_LIMITS.MAX_QUERY_LENGTH; lia).
    discriminate.
Qed.

Lemma validateQuery_allows_exactly_witness :
  (strLength "SELECT id FROM users" <= 10000)%Z /\
  (StartsWithWord "SELECT" (normalizeQuery "SELECT id FROM users") \/
   StartsWithWord "WITH" (normalizeQuery "SELECT id FROM users")) /\
  (forall keyword,
      In keyword BLOCKED_KEYWORDS ->
      ~ WholeWord keyword (normalizeQuery "SELECT id FROM users")) /\
  ~ StackedWrite (normalizeQuery "SELECT id FROM users") /\
  ~ TwoWords "INTO" "OUTFILE" (normalizeQuery "SELECT id FROM users") /\
  ~ TwoWords "LOAD" "DATA" (normalizeQuery "SELECT id FROM users").
Proof.
  apply (proj1 (validateQuery_allows_exactly "SELECT id FROM users" eq_refl)).
  reflexivity.
Defined.

(** X2. Whatever the statement, the gate answers either "valid" with no
    reason, or "invalid" with one of its six reasons; a keyword reason names
    a keyword of the list that occurs in the normalized text as a whole
    word. *)
Theorem validateQuery_outcomes (s : string) :
  validateQuery s = valid \/
  exists reason,
    validateQuery s = invalid reason /\
    (reason = "Query exceeds maximum length of 10000 characters" \/
     reason = "SQL query must be a non-empty string" \/
     reason = "SQL query cannot be empty" \/
     reason = "Only SELECT queries are allowed. Query must start with SELECT or WITH (for CTEs)" \/
     reason = "Query contains blocked pattern. Only read-only SELECT queries are allowed" \/
     exists keyword,
       In keyword BLOCKED_KEYWORDS /\
       WholeWord keyword (normalizeQuery s) /\
       reason = "Blocked keyword detected: " ++ keyword ++
                ". Only read-only SELECT queries are allowed").
Proof.
  unfold validateQuery, validateQueryLength.
  destruct (strLength s >? QUERY_LIMITS.MAX_QUERY_LENGTH)%Z.
  { right. eexists. split; [reflexivity|]. auto. }
  cbn [isValid valid negb]. unfold validateReadOnlyQuery.
  destruct (String.eqb s "").
  { right. eexists. split; [reflexivity|]. auto. }
  destruct (strLength (normalizeQuery s) =? 0)%Z.
  { right. eexists. split; [reflexivity|]. auto. }
  destruct (negb (startsWith (toUpperCase (normalizeQuery s)) "SELECT") &&
            negb (startsWith (toUpperCase (normalizeQuery s)) "WITH")).
  { right. eexists. split; [reflexivity|]. auto 6. }
  destruct (firstBlockedKeyword (normalizeQuery s)) as [kw|] eqn:E.
  { right. eexists. split; [reflexivity|]. do 5 right.
    unfold firstBlockedKeyword in E. apply List.find_some in E.
    destruct E as [Hin Hk]. exists kw. repeat split; auto.
    apply testKeyword_spec, Hk. }
  destruct (matchesBlockedPattern (normalizeQuery s)).
  { right. eexists. split; [reflexivity|]. auto 6. }
  left. reflexivity.
Qed.

(* ------------------------------------------------------------------ *)
(** ** More on the normalizer *)

Lemma whitespace_clean (s : string) :
  allChars isWhiteSpace s = true ->
  noDashDash s = true /\ noBlockComment s = true.
Proof.
  induction s as [|c r IH]; [auto|]. cbn [allChars noDashDash noBlockComment].
  intros H. apply andb_prop in H. destruct H as [Hc Hr].
  destruct (IH Hr) as [-> ->].
  destruct (whitespace_not_mark c Hc) as (-> & -> & _). auto.
Qed.

Lemma collapseWhitespace_blank (s : string) :
  allChars isWhiteSpace s = true ->
  forall b, allChars isWhiteSpace (collapseWhitespace b s) = true.
Proof.
  induction s as [|c r IH]; [auto|]. cbn [allChars]. intros H b.
  apply andb_prop in H. destruct H as [Hc Hr].
  rewrite collapseWhitespace_cons, Hc. destruct b; [auto|].
  cbn [allChars]. now rewrite (IH Hr).
Qed.

Lemma trim_blank (s : string) : allChars isWhiteSpace s = true -> trim s = "".
Proof.
  intros H. unfold trim.
  rewrite <- (append_nil_r s), (trimStart_whitespace s "" H). reflexivity.
Qed.

Lemma normalizeQuery_blank (s : string) :
  allChars isWhiteSpace s = true -> normalizeQuery s = "".
Proof.
  intros H. destruct (whitespace_clean s H) as [H1 H2]. unfold normalizeQuery.
  rewrite (removeLineComments_fixed s H1), (removeBlockComments_fixed s H2).
  apply trim_blank, collapseWhitespace_blank, H.
Qed.

Lemma removeLineComments_whitespace (ws t : string) :
  allChars isWhiteSpace ws = true ->
  removeLineComments false (ws ++ t) = ws ++ removeLineComments false t.
Proof.
  induction ws as [|c ws IH]; [reflexivity|]. cbn [allChars append].
  intros H. apply andb_prop in H. destruct H as [Hc Hws].
  cbn [removeLineComments].
  destruct (whitespace_not_mark c Hc) as (-> & _). cbn [andb].
  now rewrite (IH Hws).
Qed.

Lemma normalizeQuery_comment_only (ws body : string) :
  allChars isWhiteSpace ws = true ->
  allChars (fun c => negb (isLineBreak c)) body = true ->
  normalizeQuery (ws ++ "--" ++ body) = "".
Proof.
  intros Hws Hbody. unfold normalizeQuery.
  rewrite (removeLineComments_whitespace ws _ Hws).
  rewrite <- (append_nil_r body), (removeLineComments_match body "" Hbody)
    by auto.
  assert (Hall : allChars isWhiteSpace (ws ++ " " ++ removeLineComments false "")
                 = true)
    by (rewrite allChars_app, Hws; reflexivity).
  destruct (whitespace_clean _ Hall) as [_ H2].
  rewrite (removeBlockComments_fixed _ H2).
  apply trim_blank, collapseWhitespace_blank, Hall.
Qed.

Lemma length_app (s t : string) :
  String.length (s ++ t) = String.length s + String.length t.
Proof. induction s as [|c s IH]; cbn; [reflexivity | now rewrite IH]. Qed.

(** X3. A statement of at most 10,000 characters that consists of white space
    only, or of white space followed by one line comment, normalizes to the
    empty text and is refused with "SQL query cannot be empty"; the empty
    statement itself is refused with "SQL query must be a non-empty
    string". *)
Theorem validateQuery_blank (ws body : string) :
  allChars isWhiteSpace ws = true ->
  allChars (fun c => negb (isLineBreak c)) body = true ->
  (ws <> "" -> (strLength ws <= 10000)%Z ->
   validateQuery ws = invalid "SQL query cannot be empty") /\
  ((strLength (ws ++ "--" ++ body) <= 10000)%Z ->
   validateQuery (ws ++ "--" ++ body) = invalid "SQL query cannot be empty") /\
  validateQuery "" = invalid "SQL query must be a non-empty string".
Proof.
  intros Hws Hbody.
  split; [|split; [|reflexivity]].
  - intros Hne Hlen. unfold validateQuery.
    rewrite (validateQueryLength_short ws Hlen). cbn [isValid valid negb].
    unfold validateReadOnlyQuery. apply String.eqb_neq in Hne. rewrite Hne.
    rewrite (normalizeQuery_blank ws Hws). reflexivity.
  - intros Hlen. unfold validateQuery. rewrite (validateQueryLength_short _ Hlen).
    cbn [isValid valid negb]. unfold validateReadOnlyQuery.
    assert (Hne : String.eqb (ws ++ "--" ++ body) "" = false)
      by (destruct ws; reflexivity).
    rewrite Hne, (normalizeQuery_comment_only ws body Hws Hbody). reflexivity.
Qed.

Lemma validateQuery_blank_witness :
  validateQuery (String (ascii_of_nat 10) "  -- DROP TABLE users")
  = invalid "SQL query cannot be empty".
Proof.
  apply (validateQuery_blank (String (ascii_of_nat 10) "  ") " DROP TABLE users");
    try reflexivity.
  vm_compute. discriminate.
Defined.

Lemma removeLineComments_length (s : string) :
  forall b, String.length (removeLineComments b s) <= String.length s.
Proof.
  induction s as [|c r IH]; intros b; [reflexivity|].
  cbn [removeLineComments]. pose proof (IH true). pose proof (IH false).
  destruct b; [destruct (isLineBreak c)|
               destruct (Ascii.eqb c "-" && headIs (Ascii.eqb "-") r)];
    cbn [String.length]; lia.
Qed.

Lemma removeBlockComments_length (s : string) :
  forall b, String.length (removeBlockComments b s) <= String.length s.
Proof.
  induction s as [| c | c d r IHr IHd] using string_pair_ind; intros b.
  - reflexivity.
  - destruct b; cbn; lia.
  - rewrite removeBlockComments_pair.
    pose proof (IHr true). pose proof (IHr false).
    pose proof (IHd true). pose proof (IHd false).
    cbn [String.length] in *.
    destruct b;
      [destruct (Ascii.eqb c "*" && Ascii.eqb d "/")|
       destruct (Ascii.eqb c "/" && Ascii.eqb d "*" && hasClose r)];
      cbn [String.length]; lia.
Qed.

Lemma collapseWhitespace_length (s : string) :
  forall b, String.length (collapseWhitespace b s) <= String.length s.
Proof.
  induction s as [|c r IH]; intros b; [reflexivity|].
  rewrite collapseWhitespace_cons. pose proof (IH true). pose proof (IH false).
  destruct (isWhiteSpace c), b; cbn [String.length]; lia.
Qed.

Lemma trim_length (s : string) : String.length (trim s) <= String.length s.
Proof.
  unfold trim. destruct (trimStart_split s) as (u & Hs & _).
  destruct (trimEnd_split (trimStart s)) as (v & Ht & _).
  rewrite Hs at 2. rewrite Ht at 2. rewrite !length_app. lia.
Qed.

(** X4. Normalizing never makes a statement longer: comments and runs of white
    space are replaced by single spaces, and nothing is inserted. *)
Theorem normalizeQuery_never_longer (s : string) :
  (strLength (normalizeQuery s) <= strLength s)%Z.
Proof.
  unfold strLength, normalizeQuery.
  pose proof (removeLineComments_length s false).
  pose proof (removeBlockComments_length (removeLineComments false s) false).
  pose proof (collapseWhitespace_length
                (removeBlockComments false (removeLineComments false s)) false).
  pose proof (trim_length
                (collapseWhitespace false
                   (removeBlockComments false (removeLineComments false s)))).
  lia.
Qed.

(* ------------------------------------------------------------------ *)
(** ** The gate and the case of letters *)

Lemma toUpperChar_idempotent (c : ascii) :
  toUpperChar (toUpperChar c) = toUpperChar c.
Proof. ascii_cases c. Qed.

Lemma toUpperChar_whitespace_class (c : ascii) :
  isWhiteSpace (toUpperChar c) = isWhiteSpace c.
Proof. ascii_cases c. Qed.

Lemma toUpperChar_linebreak (c : ascii) :
  isLineBreak (toUpperChar c) = isLineBreak c.
Proof. ascii_cases c. Qed.

Lemma toUpperChar_marks (c : ascii) :
  Ascii.eqb (toUpperChar c) "-" = Ascii.eqb c "-" /\
  Ascii.eqb (toUpperChar c) "/" = Ascii.eqb c "/" /\
  Ascii.eqb (toUpperChar c) "*" = Ascii.eqb c "*" /\
  Ascii.eqb (toUpperChar c) ";" = Ascii.eqb c ";" /\
  Ascii.eqb "-" (toUpperChar c) = Ascii.eqb "-" c /\
  Ascii.eqb "/" (toUpperChar c) = Ascii.eqb "/" c /\
  Ascii.eqb "*" (toUpperChar c) = Ascii.eqb "*" c.
Proof. ascii_cases c; repeat split. Qed.

Lemma toUpperCase_idempotent (s : string) :
  toUpperCase (toUpperCase s) = toUpperCase s.
Proof.
  induction s as [|c r IH]; cbn; [reflexivity|].
  now rewrite toUpperChar_idempotent, IH.
Qed.

Lemma toUpperCase_length (s : string) :
  String.length (toUpperCase s) = String.length s.
Proof. induction s as [|c r IH]; cbn; [reflexivity | now rewrite IH]. Qed.

Lemma toUpperCase_app (s t : string) :
  toUpperCase (s ++ t) = toUpperCase s ++ toUpperCase t.
Proof. induction s as [|c r IH]; cbn; [reflexivity | now rewrite IH]. Qed.

Lemma headIs_upper (p : ascii -> bool) (s : string) :
  (forall c, p (toUpperChar c) = p c) ->
  headIs p (toUpperCase s) = headIs p s.
Proof. intros H. destruct s as [|c r]; cbn; auto. Qed.

Lemma head_dash_upper (s : string) :
  headIs (Ascii.eqb "-") (toUpperCase s) = headIs (Ascii.eqb "-") s.
Proof. apply headIs_upper. intros c. apply (toUpperChar_marks c). Qed.

Lemma head_slash_upper (s : string) :
  headIs (Ascii.eqb "/") (toUpperCase s) = headIs (Ascii.eqb "/") s.
Proof. apply headIs_upper. intros c. apply (toUpperChar_marks c). Qed.

Lemma removeLineComments_upper (s : string) :
  forall b, removeLineComments b (toUpperCase s)
            = toUpperCase (removeLineComments b s).
Proof.
  induction s as [|c r IH]; intros b; [reflexivity|].
  cbn [toUpperCase removeLineComments].
  rewrite toUpperChar_linebreak, head_dash_upper.
  destruct (toUpperChar_marks c) as (-> & _).
  destruct b; [destruct (isLineBreak c)|
               destruct (Ascii.eqb c "-" && headIs (Ascii.eqb "-") r)];
    cbn [toUpperCase]; now rewrite ?IH.
Qed.

Lemma hasClose_upper (s : string) : hasClose (toUpperCase s) = hasClose s.
Proof.
  induction s as [|c r IH]; [reflexivity|]. cbn [toUpperCase hasClose].
  rewrite head_slash_upper, IH.
  now destruct (toUpperChar_marks c) as (_ & _ & -> & _).
Qed.

Lemma removeBlockComments_upper (s : string) :
  forall b, removeBlockComments b (toUpperCase s)
            = toUpperCase (removeBlockComments b s).
Proof.
  induction s as [| c | c d r IHr IHd] using string_pair_ind; intros b.
  - reflexivity.
  - destruct b; reflexivity.
  - change (toUpperCase (String c (String d r)))
      with (String (toUpperChar c) (String (toUpperChar d) (toUpperCase r))).
    rewrite !removeBlockComments_pair, hasClose_upper.
    destruct (toUpperChar_marks c) as (_ & Hc1 & Hc2 & _).
    destruct (toUpperChar_marks d) as (_ & Hd1 & Hd2 & _).
    rewrite Hc1, Hc2, Hd1, Hd2.
    change (String (toUpperChar d) (toUpperCase r))
      with (toUpperCase (String d r)).
    destruct b;
      [destruct (Ascii.eqb c "*" && Ascii.eqb d "/")|
       destruct (Ascii.eqb c "/" && Ascii.eqb d "*" && hasClose r)];
      rewrite ?IHr, ?IHd; reflexivity.
Qed.

Lemma collapseWhitespace_upper (s : string) :
  forall b, collapseWhitespace b (toUpperCase s)
            = toUpperCase (collapseWhitespace b s).
Proof.
  induction s as [|c r IH]; intros b; [reflexivity|].
  cbn [toUpperCase]. rewrite !collapseWhitespace_cons, toUpperChar_whitespace_class.
  destruct (isWhiteSpace c), b; cbn [toUpperCase]; now rewrite ?IH.
Qed.

Lemma trimStart_upper (s : string) :
  trimStart (toUpperCase s) = toUpperCase (trimStart s).
Proof.
  induction s as [|c r IH]; [reflexivity|]. cbn [toUpperCase trimStart].
  rewrite toUpperChar_whitespace_class. now destruct (isWhiteSpace c).
Qed.

Lemma trimEnd_upper (s : string) :
  trimEnd (toUpperCase s) = toUpperCase (trimEnd s).
Proof.
  induction s as [|c r IH]; [reflexivity|]. cbn [toUpperCase trimEnd].
  rewrite IH, toUpperChar_whitespace_class.
  destruct (trimEnd r); [destruct (isWhiteSpace c)|]; reflexivity.
Qed.

Lemma normalizeQuery_upper (s : string) :
  normalizeQuery (toUpperCase s) = toUpperCase (normalizeQuery s).
Proof.
  unfold normalizeQuery, trim.
  now rewrite removeLineComments_upper, removeBlockComments_upper,
    collapseWhitespace_upper, trimStart_upper, trimEnd_upper.
Qed.

Lemma matchPrefixCI_upper (keyword s : string) :
  matchPrefixCI keyword (toUpperCase s)
  = option_map toUpperCase (matchPrefixCI keyword s).
Proof.
  revert s. induction keyword as [|k keyword IH]; intros s; [reflexivity|].
  destruct s as [|c r]; [reflexivity|]. cbn [toUpperCase matchPrefixCI].
  rewrite toUpperChar_idempotent, IH.
  now destruct (Ascii.eqb (toUpperChar c) (toUpperChar k)).
Qed.

Lemma regexSearch_upper (matchAt : bool -> string -> bool) (s : string) :
  (forall p t, matchAt p (toUpperCase t) = matchAt p t) ->
  forall p, regexSearch matchAt p (toUpperCase s) = regexSearch matchAt p s.
Proof.
  intros H. induction s as [|c r IH]; intros p.
  - reflexivity.
  - cbn [regexSearch toUpperCase]. rewrite toUpperChar_word, IH.
    f_equal. apply (H p (String c r)).
Qed.

Lemma existsb_same (A : Type) (f g : A -> bool) (l : list A) :
  (forall x, f x = g x) -> existsb f l = existsb g l.
Proof.
  intros H. induction l as [|a l IH]; cbn; [reflexivity | now rewrite H, IH].
Qed.

Lemma find_same (A : Type) (f g : A -> bool) (l : list A) :
  (forall x, f x = g x) -> find f l = find g l.
Proof.
  intros H. induction l as [|a l IH]; cbn; [reflexivity | now rewrite H, IH].
Qed.

Lemma keywordAt_upper (keyword : string) (p : bool) (t : string) :
  keywordAt keyword p (toUpperCase t) = keywordAt keyword p t.
Proof.
  unfold keywordAt. rewrite matchPrefixCI_upper.
  destruct (matchPrefixCI keyword t); cbn [option_map]; [|reflexivity].
  now rewrite (headIs_upper isWordChar _ toUpperChar_word).
Qed.

Lemma stackedWriteAt_upper (p : bool) (t : string) :
  stackedWriteAt p (toUpperCase t) = stackedWriteAt p t.
Proof.
  destruct t as [|c r]; [reflexivity|]. cbn [toUpperCase stackedWriteAt].
  destruct (toUpperChar_marks c) as (_ & _ & _ & -> & _).
  rewrite trimStart_upper. f_equal. apply existsb_same. intros kw.
  rewrite matchPrefixCI_upper. now destruct (matchPrefixCI kw (trimStart r)).
Qed.

Lemma twoWordsAt_upper (w1 w2 : string) (p : bool) (t : string) :
  twoWordsAt w1 w2 p (toUpperCase t) = twoWordsAt w1 w2 p t.
Proof.
  unfold twoWordsAt. rewrite matchPrefixCI_upper.
  destruct (matchPrefixCI w1 t) as [rest|]; cbn [option_map]; [|reflexivity].
  destruct rest as [|c r]; [reflexivity|]. cbn [toUpperCase afterSpaces1].
  rewrite toUpperChar_whitespace_class, trimStart_upper, matchPrefixCI_upper.
  now destruct (matchPrefixCI w2 (trimStart r)).
Qed.

Lemma validateQuery_upper (s : string) :
  validateQuery (toUpperCase s) = validateQuery s.
Proof.
  unfold validateQuery, validateQueryLength, validateReadOnlyQuery, strLength.
  rewrite normalizeQuery_upper, toUpperCase_idempotent, !toUpperCase_length.
  assert (He : String.eqb (toUpperCase s) "" = String.eqb s "")
    by (destruct s; reflexivity).
  assert (Hk : firstBlockedKeyword (toUpperCase (normalizeQuery s))
               = firstBlockedKeyword (normalizeQuery s)).
  { unfold firstBlockedKeyword. apply find_same. intros kw.
    apply regexSearch_upper. intros p t. apply keywordAt_upper. }
  assert (Hp : matchesBlockedPattern (toUpperCase (normalizeQuery s))
               = matchesBlockedPattern (normalizeQuery s)).
  { unfold matchesBlockedPattern, BLOCKED_PATTERNS, regexTest. cbn [existsb].
    rewrite !regexSearch_upper;
      auto using stackedWriteAt_upper, twoWordsAt_upper. }
  now rewrite He, Hk, Hp.
Qed.

(** X5. The gate does not look at the case of ASCII letters: two statements
    that differ only in the case of their letters a-z get the same answer,
    reason included. *)
Theorem validateQuery_case_insensitive (s s' : string) :
  toUpperCase s = toUpperCase s' -> validateQuery s = validateQuery s'.
Proof.
  intros H. now rewrite <- (validateQuery_upper s), H, validateQuery_upper.
Qed.

Lemma validateQuery_case_insensitive_witness :
  validateQuery "select * from t; Drop table t"
  = validateQuery "SeLeCt * FROM T; dROP TABLE t".
Proof.
  apply (validateQuery_case_insensitive "select * from t; Drop table t"
           "SeLeCt * FROM T; dROP TABLE t").
  reflexivity.
Defined.

(* ------------------------------------------------------------------ *)
(** ** More on the pagination rewriter *)



















(* ------------------------------------------------------------------ *)
(** ** More on the executor *)

Lemma getDatabase_cases (st : State) :
  (exists pool, getDatabase st = Returns pool /\
                connectionPool st = Some pool /\ isInitialized st = true) \/
  (getDatabase st = Throws notInitializedError /\ isDatabaseReady st = false).
Proof.
  unfold getDatabase, isDatabaseReady.
  destruct (connectionPool st) as [pool|], (isInitialized st); eauto.
Qed.

(** X8. [executeQuery] hands back at most [MAX_ROWS] rows, and they are the
    first rows of what the driver produced; when it throws, the error is the
    "not initialized" one, raised before the driver is asked, or a driver or
    timeout error behind the prefix "Query execution failed: ". *)
Theorem executeQuery_outcomes
        (Row : Type) (st : State) (unsafe : Pool -> string -> RaceOutcome Row)
        (duration : Z) (query : string) :
  (forall rows,
      fst (executeQuery st unsafe duration query) = Returns rows ->
      (rowsLength rows <= 1000)%Z /\
      exists pool,
        getDatabase st = Returns pool /\
        (unsafe pool query = QueryResolved NotAnArray /\ rows = [] \/
         exists produced,
           unsafe pool query = QueryResolved (RowArray produced) /\
           rows = firstn (List.length rows) produced)) /\
  (forall message,
      fst (executeQuery st unsafe duration query) = Throws message ->
      (message = "Database not initialized. Call initializeDatabase() first" /\
       isDatabaseReady st = false /\
       snd (executeQuery st unsafe duration query) = []) \/
      exists pool cause,
        getDatabase st = Returns pool /\
        message = "Query execution failed: " ++ cause /\
        (unsafe pool query = QueryRejected cause \/
         unsafe pool query = TimeoutFirst /\
         cause = "Query timeout: exceeded 30000ms")).
Proof.
  unfold executeQuery.
  destruct (getDatabase_cases st) as [(pool & -> & _) | [-> Hready]].
  - destruct (unsafe pool query) as [[produced|] | cause |] eqn:Hq.
    + change QUERY_LIMITS.MAX_ROWS with 1000%Z.
      destruct (Z.gtb_spec (rowsLength produced) 1000) as [Hbig | Hsmall];
        cbn [fst]; (split; [|discriminate]); intros rows [= <-].
      * split; [apply slice0_length_le; lia|]. exists pool. split; [reflexivity|].
        right. exists produced. split; [exact Hq|]. unfold slice0.
        rewrite List.length_firstn. unfold rowsLength in Hbig.
        f_equal. lia.
      * split; [exact Hsmall|]. exists pool. split; [reflexivity|].
        right. exists produced. split; [exact Hq|].
        symmetry. apply List.firstn_all.
    + cbn [fst]. split; [|discriminate]. intros rows [= <-].
      split; [cbn; lia|]. exists pool. auto.
    + cbn [fst]. split; [discriminate|]. intros message [= <-].
      right. exists pool, cause. auto.
    + cbn [fst]. split; [discriminate|]. intros message [= <-].
      right. exists pool, queryTimeoutError. auto.
  - cbn [fst snd]. split; [discriminate|]. intros message [= <-]. left. auto.
Qed.

(** X9. [executeParameterizedQuery] keeps the same bounds: at most
    [MAX_ROWS] rows, the first ones the driver produced, and the same two
    kinds of error; beyond the cap it writes the console line with both
    counts. *)
Theorem executeParameterizedQuery_outcomes
        (Row Param : Type) (st : State)
        (tagged : Pool -> list string -> list Param -> RaceOutcome Row)
        (strings : list string) (values : list Param) :
  (forall rows,
      fst (executeParameterizedQuery st tagged strings values) = Returns rows ->
      (rowsLength rows <= 1000)%Z /\
      exists pool,
        getDatabase st = Returns pool /\
        (tagged pool strings values = QueryResolved NotAnArray /\ rows = [] \/
         exists produced,
           tagged pool strings values = QueryResolved (RowArray produced) /\
           rows = firstn (List.length rows) produced /\
           ((rowsLength produced > 1000)%Z ->
            snd (executeParameterizedQuery st tagged strings values)
            = [ConsoleLimit (rowsLength produced) 1000]))) /\
  (forall message,
      fst (executeParameterizedQuery st tagged strings values) = Throws message ->
      message = "Database not initialized. Call initializeDatabase() first" /\
      isDatabaseReady st = false \/
      exists cause, message = "Query execution failed: " ++ cause).
Proof.
  unfold executeParameterizedQuery.
  destruct (getDatabase_cases st) as [(pool & -> & _) | [-> Hready]].
  - destruct (tagged pool strings values) as [[produced|] | cause |] eqn:Hq.
    + change QUERY_LIMITS.MAX_ROWS with 1000%Z.
      destruct (Z.gtb_spec (rowsLength produced) 1000) as [Hbig | Hsmall];
        cbn [fst snd]; (split; [|discriminate]); intros rows [= <-].
      * split; [apply slice0_length_le; lia|]. exists pool. split; [reflexivity|].
        right. exists produced. split; [exact Hq|]. split; [|reflexivity].
        unfold slice0. rewrite List.length_firstn. unfold rowsLength in Hbig.
        f_equal. lia.
      * split; [exact Hsmall|]. exists pool. split; [reflexivity|].
        right. exists produced. split; [exact Hq|]. split; [|lia].
        symmetry. apply List.firstn_all.
    + cbn [fst]. split; [|discriminate]. intros rows [= <-].
      split; [cbn; lia|]. exists pool. auto.
    + cbn [fst]. split; [discriminate|]. intros message [= <-]. right.
      exists cause. reflexivity.
    + cbn [fst]. split; [discriminate|]. intros message [= <-]. right.
      exists queryTimeoutError. reflexivity.
  - cbn [fst]. split; [discriminate|]. intros message [= <-]. left. auto.
Qed.

(* ------------------------------------------------------------------ *)
(** ** More on the query tool *)

Lemma validateQuery_shape (s : string) :
  validateQuery s = valid \/ exists reason, validateQuery s = invalid reason.
Proof.
  unfold validateQuery, validateQueryLength, validateReadOnlyQuery.
  destruct (strLength s >? QUERY_LIMITS.MAX_QUERY_LENGTH)%Z; [right; eexists; reflexivity|].
  cbn [isValid valid negb].
  destruct (String.eqb s ""); [right; eexists; reflexivity|].
  destruct (strLength (normalizeQuery s) =? 0)%Z; [right; eexists; reflexivity|].
  destruct (negb _ && negb _); [right; eexists; reflexivity|].
  destruct (firstBlockedKeyword (normalizeQuery s)); [right; eexists; reflexivity|].
  destruct (matchesBlockedPattern (normalizeQuery s)); [right; eexists; reflexivity | left; reflexivity].
Qed.

(** The pattern loop of the gate and its logged form stop together. *)
Lemma firstBlockedPattern_matches (s : string) :
  matchesBlockedPattern s
  = match WithLogger.firstBlockedPattern s with Some _ => true | None => false end.
Proof.
  unfold matchesBlockedPattern, WithLogger.firstBlockedPattern,
    WithLogger.patternSources, BLOCKED_PATTERNS.
  cbn [combine find existsb snd].
  destruct (regexTest stackedWriteAt s); [reflexivity|].
  destruct (regexTest (twoWordsAt "INTO" "OUTFILE") s); [reflexivity|].
  destruct (regexTest (twoWordsAt "LOAD" "DATA") s); reflexivity.
Qed.

(** The gate with its logger calls gives the answer of the gate, and calls
    the logger once: [debug] when it lets the statement through, [security]
    when it refuses. *)
Lemma validateQuery_with_logger (s : string) :
  validateQuery s = valid /\
  WithLogger.validateQuery s
  = (valid, [Logger.debug "Query validation passed" None]) \/
  exists reason text ctx,
    validateQuery s = invalid reason /\
    WithLogger.validateQuery s = (invalid reason, [Logger.security text ctx]).
Proof.
  unfold validateQuery, WithLogger.validateQuery, validateQueryLength,
    WithLogger.validateQueryLength.
  destruct (strLength s >? QUERY_LIMITS.MAX_QUERY_LENGTH)%Z;
    [right; do 3 eexists; split; reflexivity|].
  cbn [isValid valid negb].
  unfold validateReadOnlyQuery, WithLogger.validateReadOnlyQuery.
  destruct (String.eqb s ""); [right; do 3 eexists; split; reflexivity|].
  destruct (strLength (normalizeQuery s) =? 0)%Z;
    [right; do 3 eexists; split; reflexivity|].
  destruct (negb _ && negb _); [right; do 3 eexists; split; reflexivity|].
  destruct (firstBlockedKeyword (normalizeQuery s));
    [right; do 3 eexists; split; reflexivity|].
  rewrite firstBlockedPattern_matches.
  destruct (WithLogger.firstBlockedPattern (normalizeQuery s));
    [right; do 3 eexists; split; reflexivity | left; split; reflexivity].
Qed.

(** The tool with the logger calls written out answers as the tool does, and
    its executor records are the same. *)
Lemma handleQueryTool_with_logger
      (Row : Type) (st : State) (unsafe : Pool -> string -> RaceOutcome Row)
      (duration : Z) (input : QueryToolInput) :
  fst (WithLogger.handleQueryTool st unsafe duration input)
  = fst (handleQueryTool st unsafe duration input) /\
  snd (snd (WithLogger.handleQueryTool st unsafe duration input))
  = snd (handleQueryTool st unsafe duration input).
Proof.
  unfold WithLogger.handleQueryTool, handleQueryTool.
  destruct (String.eqb (sql input) ""); [split; reflexivity|].
  destruct (_ <=? 0)%Z; [split; reflexivity|].
  destruct (_ <? 0)%Z; [split; reflexivity|].
  cbn beta.
  destruct (validateQuery_with_logger (sql input))
    as [[-> ->] | (reason & text & ctx & -> & ->)]; [|split; reflexivity].
  cbn [isValid valid negb].
  destruct (executeQuery st unsafe duration _) as [[results | message] logs];
    split; reflexivity.
Qed.

(** X10. A request that fails the tool's own checks - no statement, a limit
    that is not positive, a negative offset, a statement the gate refuses -
    is answered with a failure that carries a reason; neither the module
    state nor the driver has any part in the answer or in what is logged,
    and the executor writes no record: nothing is executed.  When it is the
    statement, the limit or the offset that is missing or out of range, the
    logger is not called at all.  When it is the gate that refuses, the
    logger is called exactly once, by the gate, through [security]: a record
    of level WARN, written under every minimum level but ERROR. *)
Theorem handleQueryTool_rejects_before_executing
        (Row : Type) (st st' : State)
        (unsafe unsafe' : Pool -> string -> RaceOutcome Row)
        (duration duration' : Z) (input : QueryToolInput) :
  sql input = "" \/
  (match limit input with Some l => l | None => 1000 end <= 0)%Z \/
  (match offset input with Some o => o | None => 0 end < 0)%Z \/
  validateQuery (sql input) <> valid ->
  WithLogger.handleQueryTool st unsafe duration input
  = WithLogger.handleQueryTool st' unsafe' duration' input /\
  snd (snd (WithLogger.handleQueryTool st unsafe duration input)) = [] /\
  success (fst (WithLogger.handleQueryTool st unsafe duration input)) = false /\
  data (fst (WithLogger.handleQueryTool st unsafe duration input)) = None /\
  (exists reason,
      error (fst (WithLogger.handleQueryTool st unsafe duration input))
      = Some reason) /\
  (sql input = "" \/
   (match limit input with Some l => l | None => 1000 end <= 0)%Z \/
   (match offset input with Some o => o | None => 0 end < 0)%Z ->
   fst (snd (WithLogger.handleQueryTool st unsafe duration input)) = []) /\
  (sql input <> "" ->
   (0 < match limit input with Some l => l | None => 1000 end)%Z ->
   (0 <= match offset input with Some o => o | None => 0 end)%Z ->
   exists text ctx,
     fst (snd (WithLogger.handleQueryTool st unsafe duration input))
     = [Logger.security text ctx] /\
     Logger.level (Logger.security text ctx) = Logger.WARN /\
     forall minLevel,
       minLevel <> Logger.ERROR ->
       Logger.written minLevel
         (fst (snd (WithLogger.handleQueryTool st unsafe duration input)))
       = [Logger.security text ctx]).
Proof.
  intros H. unfold WithLogger.handleQueryTool.
  change QUERY_LIMITS.MAX_ROWS with 1000%Z.
  destruct (String.eqb_spec (sql input) "") as [He | He].
  { cbn. repeat split; eauto. intros Hne. congruence. }
  destruct (Z.leb_spec (match limit input with Some l => l | None => 1000 end) 0)
    as [Hl | Hl].
  { cbn. repeat split; eauto. intros _ Hpos. lia. }
  destruct (Z.ltb_spec (match offset input with Some o => o | None => 0 end) 0)
    as [Ho | Ho].
  { cbn. repeat split; eauto. intros _ _ Hpos. lia. }
  cbn beta.
  destruct (validateQuery_with_logger (sql input))
    as [[Hv _] | (reason & text & ctx & _ & ->)].
  - exfalso. destruct H as [H | [H | [H | H]]]; auto; lia.
  - cbn [isValid invalid negb fst snd success data error Security.error].
    repeat split; eauto.
    + intros [Hc | [Hc | Hc]]; [congruence | lia | lia].
    + intros _ _ _. exists text, ctx. repeat split.
      intros minLevel Hmin. destruct minLevel; [reflexivity.. | congruence].
Qed.

Lemma handleQueryTool_rejects_before_executing_witness :
  WithLogger.handleQueryTool (readyState false) (rowsDriver 3) 5
    {| sql := "DROP TABLE t"; limit := Some 10%Z; offset := None |}
  = WithLogger.handleQueryTool initialState (rowsDriver 1500) 9
      {| sql := "DROP TABLE t"; limit := Some 10%Z; offset := None |}.
Proof.
  apply (handleQueryTool_rejects_before_executing unit (readyState false)
           initialState (rowsDriver 3) (rowsDriver 1500) 5 9
           {| sql := "DROP TABLE t"; limit := Some 10%Z; offset := None |}).
  right. right. right. cbn. discriminate.
Defined.

Lemma executeQuery_capped
      (Row : Type) (st : State) (unsafe : Pool -> string -> RaceOutcome Row)
      (duration : Z) (query : string) (rows : list Row) :
  fst (executeQuery st unsafe duration query) = Returns rows ->
  (rowsLength rows <= 1000)%Z.
Proof.
  unfold executeQuery. change QUERY_LIMITS.MAX_ROWS with 1000%Z.
  destruct (getDatabase st) as [pool | message]; [|discriminate].
  destruct (unsafe pool query) as [[produced|] | cause |]; try discriminate.
  - destruct (Z.gtb_spec (rowsLength produced) 1000); cbn [fst]; intros [= <-].
    + apply slice0_length_le. lia.
    + assumption.
  - cbn [fst]. intros [= <-]. cbn. lia.
Qed.

Section JavaScriptNumbers.

Import QArith Qround.

Lemma ofZ_leb (a b : Z) : Numeric.leb (Numeric.ofZ a) (Numeric.ofZ b) = (a <=? b)%Z.
Proof.
  unfold Numeric.leb, Numeric.ofZ, Qle_bool, inject_Z. cbn [Qnum Qden].
  now rewrite !Z.mul_1_r.
Qed.

Lemma ofZ_ltb (a b : Z) : Numeric.ltb (Numeric.ofZ a) (Numeric.ofZ b) = (a <? b)%Z.
Proof.
  unfold Numeric.ltb, Numeric.ofZ, Qle_bool, inject_Z. cbn [Qnum Qden].
  rewrite !Z.mul_1_r. rewrite Z.ltb_antisym. reflexivity.
Qed.

Lemma ofZ_min (a b : Z) :
  Numeric.min (Numeric.ofZ a) (Numeric.ofZ b) = Numeric.ofZ (Z.min a b).
Proof.
  unfold Numeric.min. change (Numeric.ofZ a) with (Numeric.Finite (inject_Z a)) at 1.
  change (Numeric.ofZ b) with (Numeric.Finite (inject_Z b)) at 1.
  cbv iota beta. fold (Numeric.ofZ a) (Numeric.ofZ b). rewrite ofZ_ltb.
  destruct (Z.ltb_spec b a); f_equal; lia.
Qed.

Lemma ofZ_plusOne (a : Z) : Numeric.plusOne (Numeric.ofZ a) = Numeric.ofZ (a + 1).
Proof.
  unfold Numeric.plusOne, Numeric.ofZ, Qplus, inject_Z. cbn [Qnum Qden].
  f_equal. f_equal. lia.
Qed.

Lemma truncate_whole (a : Z) : Numeric.truncate (inject_Z a) = a.
Proof.
  unfold Numeric.truncate. destruct (Qle_bool (inject_Z 0) (inject_Z a)).
  - apply Qfloor_Z.
  - apply Qceiling_Z.
Qed.

Lemma addPaginationToQuery_whole
      (render : Numeric.JsNumber -> string) (sql : string) (limit offset : Z) :
  (forall z, render (Numeric.ofZ z) = numberToString z) ->
  Numeric.addPaginationToQuery render sql (Numeric.ofZ limit) (Numeric.ofZ offset)
  = addPaginationToQuery sql limit offset.
Proof.
  intros Hr. unfold Numeric.addPaginationToQuery, addPaginationToQuery, Numeric.gtb.
  rewrite ofZ_ltb, !Hr, Z.gtb_ltb. reflexivity.
Qed.

(** On whole numbers the tool over JavaScript numbers is the tool. *)
Lemma handleQueryTool_on_whole_numbers
      (Row : Type) (render : Numeric.JsNumber -> string) (st : State)
      (unsafe : Pool -> string -> RaceOutcome Row) (duration : Z)
      (input : QueryToolInput) :
  (forall z, render (Numeric.ofZ z) = numberToString z) ->
  Numeric.handleQueryTool render st unsafe duration (wholeInput input)
  = (wholeResult (fst (handleQueryTool st unsafe duration input)),
     snd (handleQueryTool st unsafe duration input)).
Proof.
  intros Hr. unfold Numeric.handleQueryTool, handleQueryTool, wholeInput.
  cbn [Numeric.sql Numeric.limit Numeric.offset].
  destruct (String.eqb (sql input) ""); [reflexivity|].
  assert (HL : match option_map Numeric.ofZ (limit input) with
               | Some l => l
               | None => Numeric.ofZ QUERY_LIMITS.MAX_ROWS
               end
               = Numeric.ofZ (match limit input with
                              | Some l => l
                              | None => QUERY_LIMITS.MAX_ROWS
                              end))
    by (destruct (limit input); reflexivity).
  assert (HO : match option_map Numeric.ofZ (offset input) with
               | Some o => o
               | None => Numeric.ofZ 0
               end
               = Numeric.ofZ (match offset input with
                              | Some o => o
                              | None => 0%Z
                              end))
    by (destruct (offset input); reflexivity).
  rewrite HL, HO. cbv zeta. rewrite ofZ_leb, ofZ_ltb.
  destruct (Z.leb_spec (match limit input with
                        | Some l => l
                        | None => QUERY_LIMITS.MAX_ROWS
                        end) 0) as [Hle | Hgt]; [reflexivity|].
  destruct (_ <? 0)%Z; [reflexivity|].
  cbn beta.
  destruct (negb (isValid (validateQuery (sql input)))); [reflexivity|].
  rewrite ofZ_min, ofZ_plusOne, (addPaginationToQuery_whole render _ _ _ Hr).
  destruct (executeQuery st unsafe duration _) as [[results | message] logs];
    [|reflexivity].
  unfold Numeric.gtb. rewrite !ofZ_ltb, Z.gtb_ltb.
  cbn [fst snd wholeResult success data rowCount error limitApplied pagination
       option_map wholePagination pgLimit pgOffset hasMore].
  destruct (Z.ltb_spec
              (Z.min (match limit input with
                      | Some l => l
                      | None => QUERY_LIMITS.MAX_ROWS
                      end) QUERY_LIMITS.MAX_ROWS)
              (rowsLength results)) as [Hmore | Hless]; [|reflexivity].
  assert (Hslice :
            Numeric.slice0 results
              (Numeric.ofZ (Z.min (match limit input with
                                   | Some l => l
                                   | None => QUERY_LIMITS.MAX_ROWS
                                   end) QUERY_LIMITS.MAX_ROWS))
            = slice0 results
                (Z.min (match limit input with
                        | Some l => l
                        | None => QUERY_LIMITS.MAX_ROWS
                        end) QUERY_LIMITS.MAX_ROWS)).
  { unfold Numeric.slice0, Numeric.ofZ, slice0. rewrite truncate_whole.
    destruct (Z.ltb_spec
                (Z.min (match limit input with
                        | Some l => l
                        | None => QUERY_LIMITS.MAX_ROWS
                        end) QUERY_LIMITS.MAX_ROWS) 0) as [Hneg | Hpos].
    - unfold QUERY_LIMITS.MAX_ROWS in *. lia.
    - rewrite Z.min_l by lia. reflexivity. }
  rewrite Hslice. reflexivity.
Qed.

(** The effective limit of a request that gets past the limit check. *)
Lemma effective_limit (rawLimit : Numeric.JsNumber) :
  Numeric.leb rawLimit (Numeric.ofZ 0) = false ->
  rawLimit = Numeric.NaN /\ Numeric.min rawLimit (Numeric.ofZ 1000) = Numeric.NaN \/
  exists q,
    Numeric.min rawLimit (Numeric.ofZ 1000) = Numeric.Finite q /\
    0 < q /\ q <= inject_Z 1000.
Proof.
  destruct rawLimit as [a | | |]; cbn [Numeric.leb Numeric.ofZ]; intros H.
  - right. unfold Numeric.min, Numeric.ofZ. cbv iota beta. unfold Numeric.ltb.
    assert (Ha : 0 < a).
    { apply Qnot_le_lt. intros Hle. apply Qle_bool_iff in Hle.
      change (inject_Z 0) with 0 in H. congruence. }
    destruct (Qle_bool a (inject_Z 1000)) eqn:E; cbn [negb].
    + exists a. apply Qle_bool_iff in E. auto.
    + exists (inject_Z 1000). repeat split. apply Qle_refl.
  - right. exists (inject_Z 1000). repeat split. apply Qle_refl.
  - discriminate H.
  - left. split; reflexivity.
Qed.

(** The offset of a request that gets past the offset check. *)
Lemma effective_offset (rawOffset : Numeric.JsNumber) :
  Numeric.ltb rawOffset (Numeric.ofZ 0) = false ->
  rawOffset = Numeric.NaN \/ rawOffset = Numeric.PlusInfinity \/
  exists q, rawOffset = Numeric.Finite q /\ 0 <= q.
Proof.
  destruct rawOffset as [a | | |]; cbn [Numeric.ltb Numeric.ofZ]; intros H; auto.
  - right. right. exists a. split; [reflexivity|].
    apply negb_false_iff, Qle_bool_iff in H. exact H.
  - discriminate H.
Qed.

(** The rows the tool keeps never outnumber the rows it was handed. *)
Lemma page_within (Row : Type) (results : list Row) (limit : Numeric.JsNumber) :
  (rowsLength (if Numeric.gtb (Numeric.ofZ (rowsLength results)) limit
               then Numeric.slice0 results limit else results)
   <= rowsLength results)%Z.
Proof.
  destruct (Numeric.gtb _ limit); [|lia].
  unfold Numeric.slice0, rowsLength.
  destruct limit as [q | | |]; cbn [List.length]; try lia.
  destruct (_ <? 0)%Z; rewrite List.length_firstn; lia.
Qed.

(** A finite positive limit bounds the rows the tool keeps. *)
Lemma page_bounded (Row : Type) (results : list Row) (q : Q) :
  0 < q ->
  inject_Z (rowsLength (if Numeric.gtb (Numeric.ofZ (rowsLength results))
                             (Numeric.Finite q)
                        then Numeric.slice0 results (Numeric.Finite q)
                        else results))
  <= q.
Proof.
  intros Hq. unfold Numeric.gtb, Numeric.ltb, Numeric.ofZ.
  destruct (Qle_bool (inject_Z (rowsLength results)) q) eqn:E; cbn [negb].
  - apply Qle_bool_iff, E.
  - unfold Numeric.slice0, Numeric.truncate.
    assert (H0 : Qle_bool (inject_Z 0) q = true)
      by (apply Qle_bool_iff, Qlt_le_weak, Hq).
    rewrite H0.
    assert (Hf : (0 <= Qfloor q)%Z).
    { rewrite <- (Qfloor_Z 0). apply Qfloor_resp_le, Qlt_le_weak, Hq. }
    destruct (Z.ltb_spec (Qfloor q) 0) as [Hneg | _]; [lia|].
    apply Qle_trans with (inject_Z (Qfloor q)); [|apply Qfloor_le].
    rewrite <- Zle_Qle. unfold rowsLength. rewrite List.length_firstn. lia.
Qed.

(** X11. Every answer of the query tool is well formed, whatever numbers the
    request brings as its limit and offset, and whatever the module state
    and the driver.  A success carries its rows, at most [MAX_ROWS], their
    count, no error, and a pagination record: its limit is the smaller of
    the requested limit (1000 when none is given) and [MAX_ROWS] - a number
    above 0 and at most 1000 that bounds the number of rows, or NaN when the
    request says NaN - and its offset is the requested one (0 when none is
    given), never negative.  The source does not ask the limit to be whole:
    a whole limit gives a pagination limit between 1 and [MAX_ROWS], while a
    limit of one half passes, is handed back as it is, and leaves no row.
    A failure carries a reason and neither rows nor a pagination record. *)
Theorem handleQueryTool_result_shape
        (Row : Type) (render : Numeric.JsNumber -> string) (st : State)
        (unsafe : Pool -> string -> RaceOutcome Row)
        (duration : Z) (input : Numeric.QueryToolInput) :
  (Numeric.success (fst (Numeric.handleQueryTool render st unsafe duration input))
   = true ->
   exists rows page,
     Numeric.data (fst (Numeric.handleQueryTool render st unsafe duration input))
     = Some rows /\
     Numeric.rowCount (fst (Numeric.handleQueryTool render st unsafe duration input))
     = Some (rowsLength rows) /\
     Numeric.error (fst (Numeric.handleQueryTool render st unsafe duration input))
     = None /\
     Numeric.pagination
       (fst (Numeric.handleQueryTool render st unsafe duration input))
     = Some page /\
     (rowsLength rows <= 1000)%Z /\
     Numeric.pgLimit page
     = Numeric.min (requestedLimit input) (Numeric.ofZ 1000) /\
     Numeric.pgOffset page = requestedOffset input /\
     (requestedLimit input = Numeric.NaN /\ Numeric.pgLimit page = Numeric.NaN \/
      exists q,
        Numeric.pgLimit page = Numeric.Finite q /\
        0 < q /\ q <= inject_Z 1000 /\ inject_Z (rowsLength rows) <= q) /\
     (Numeric.pgOffset page = Numeric.NaN \/
      Numeric.pgOffset page = Numeric.PlusInfinity \/
      exists q, Numeric.pgOffset page = Numeric.Finite q /\ 0 <= q) /\
     (forall z,
         requestedLimit input = Numeric.ofZ z ->
         Numeric.pgLimit page = Numeric.ofZ (Z.min z 1000) /\
         (1 <= Z.min z 1000 <= 1000)%Z /\
         (rowsLength rows <= Z.min z 1000)%Z)) /\
  (Numeric.success (fst (Numeric.handleQueryTool render st unsafe duration input))
   = false ->
   Numeric.data (fst (Numeric.handleQueryTool render st unsafe duration input))
   = None /\
   Numeric.pagination
     (fst (Numeric.handleQueryTool render st unsafe duration input))
   = None /\
   exists reason,
     Numeric.error (fst (Numeric.handleQueryTool render st unsafe duration input))
     = Some reason) /\
  fst (Numeric.handleQueryTool render (readyState false) (rowsDriver 3) 0
         {| Numeric.sql := "SELECT * FROM t";
            Numeric.limit := Some (Numeric.Finite (1 # 2));
            Numeric.offset := None |})
  = {| Numeric.success := true; Numeric.data := Some [];
       Numeric.rowCount := Some 0%Z; Numeric.error := None;
       Numeric.limitApplied := Some true;
       Numeric.pagination :=
         Some {| Numeric.pgLimit := Numeric.Finite (1 # 2);
                 Numeric.pgOffset := Numeric.ofZ 0;
                 Numeric.hasMore := true |} |}.
Proof.
  split; [|split; [|reflexivity]];
    unfold Numeric.handleQueryTool; change QUERY_LIMITS.MAX_ROWS with 1000%Z;
    fold (requestedLimit input) (requestedOffset input).
  - destruct (String.eqb (Numeric.sql input) ""); [cbn; discriminate|].
    destruct (Numeric.leb (requestedLimit input) (Numeric.ofZ 0)) eqn:Hl;
      [cbn; discriminate|].
    destruct (Numeric.ltb (requestedOffset input) (Numeric.ofZ 0)) eqn:Ho;
      [cbn; discriminate|].
    cbn beta.
    destruct (validateQuery_shape (Numeric.sql input)) as [-> | [reason ->]];
      [|cbn; discriminate].
    cbn [isValid valid negb].
    destruct (executeQuery st unsafe duration _) as [[results | message] logs] eqn:Hex;
      [|cbn; discriminate].
    intros _.
    pose proof (executeQuery_capped Row st unsafe duration _ results
                  (f_equal fst Hex)) as Hcap.
    pose proof (page_within Row results
                  (Numeric.min (requestedLimit input) (Numeric.ofZ 1000))) as Hin.
    cbn [fst Numeric.success Numeric.data Numeric.rowCount Numeric.error
         Numeric.pagination].
    eexists. eexists.
    split; [reflexivity|]. split; [reflexivity|]. split; [reflexivity|].
    split; [reflexivity|]. cbn [Numeric.pgLimit Numeric.pgOffset].
    split; [lia|]. split; [reflexivity|]. split; [reflexivity|].
    split; [|split].
    + destruct (effective_limit _ Hl) as [[HN HM] | (q & Hq & Hpos & Hmax)];
        [auto|].
      right. exists q. rewrite Hq. repeat split; auto.
      apply page_bounded, Hpos.
    + apply effective_offset, Ho.
    + intros z Hz. rewrite Hz in *. rewrite ofZ_min in *.
      rewrite ofZ_leb in Hl. apply Z.leb_gt in Hl.
      split; [reflexivity|]. split; [lia|].
      rewrite Zle_Qle.
      apply (page_bounded Row results (inject_Z (Z.min z 1000))).
      change 0 with (inject_Z 0). rewrite <- Zlt_Qlt. lia.
  - destruct (String.eqb (Numeric.sql input) ""); [cbn; eauto|].
    destruct (Numeric.leb (requestedLimit input) (Numeric.ofZ 0)); [cbn; eauto|].
    destruct (Numeric.ltb (requestedOffset input) (Numeric.ofZ 0)); [cbn; eauto|].
    cbn beta.
    destruct (validateQuery_shape (Numeric.sql input)) as [-> | [reason ->]];
      [|cbn; eauto].
    cbn [isValid valid negb].
    destruct (executeQuery st unsafe duration _) as [[results | message] logs];
      [cbn; discriminate | cbn; eauto].
Qed.

End JavaScriptNumbers.

(** X12. On a module that is not ready - never initialized, initialization
    failed or still running, or closed - a request that passes the tool's
    checks is answered with the "not initialized" failure.  The driver is
    not asked and the executor writes no record; the one call to the logger
    is the gate's [debug] call "Query validation passed", made before the
    pool is looked for and written only when the minimum level is DEBUG.  In
    particular this is what happens after [closeDatabase]. *)
Theorem handleQueryTool_needs_ready_module
        (Row : Type) (st : State) (unsafe : Pool -> string -> RaceOutcome Row)
        (duration : Z) (input : QueryToolInput) :
  sql input <> "" ->
  (0 < match limit input with Some l => l | None => 1000 end)%Z ->
  (0 <= match offset input with Some o => o | None => 0 end)%Z ->
  validateQuery (sql input) = valid ->
  (isDatabaseReady st = false ->
   WithLogger.handleQueryTool st unsafe duration input
   = (failure "Database not initialized. Call initializeDatabase() first",
      ([Logger.debug "Query validation passed" None], []))) /\
  WithLogger.handleQueryTool (closeDatabase st) unsafe duration input
  = (failure "Database not initialized. Call initializeDatabase() first",
     ([Logger.debug "Query validation passed" None], [])) /\
  (forall minLevel,
      Logger.written minLevel [Logger.debug "Query validation passed" None]
      = if Logger.shouldLog minLevel Logger.DEBUG
        then [Logger.debug "Query validation passed" None] else []) /\
  (forall minLevel,
      Logger.shouldLog minLevel Logger.DEBUG = true <-> minLevel = Logger.DEBUG).
Proof.
  intros Hsql Hl Ho Hv.
  assert (Hgen : forall st0, isDatabaseReady st0 = false ->
            WithLogger.handleQueryTool st0 unsafe duration input
            = (failure notInitializedError,
               ([Logger.debug "Query validation passed" None], []))).
  { intros st0 Hr. unfold WithLogger.handleQueryTool.
    change QUERY_LIMITS.MAX_ROWS with 1000%Z.
    apply String.eqb_neq in Hsql. rewrite Hsql.
    destruct (Z.leb_spec (match limit input with Some l => l | None => 1000 end) 0);
      [lia|].
    destruct (Z.ltb_spec (match offset input with Some o => o | None => 0 end) 0);
      [lia|].
    cbn beta.
    destruct (validateQuery_with_logger (sql input))
      as [[_ ->] | (reason & text & ctx & Hbad & _)];
      [|rewrite Hv in Hbad; discriminate Hbad].
    cbn [isValid valid negb]. unfold executeQuery.
    destruct (getDatabase_cases st0) as [(pool & _ & Hp & Hi) | [-> _]];
      [|reflexivity].
    unfold isDatabaseReady in Hr. rewrite Hp, Hi in Hr. discriminate Hr. }
  split; [apply Hgen|]. split; [|split].
  - apply Hgen.
    unfold closeDatabase, isDatabaseReady.
    destruct (connectionPool st) eqn:Hp; destruct (sshTunnel st) eqn:Ht; cbn;
      rewrite ?Ht; cbn; rewrite ?Hp; auto using andb_false_r.
  - intros minLevel. destruct minLevel; reflexivity.
  - intros minLevel. destruct minLevel; cbn; split; congruence.
Qed.

Lemma handleQueryTool_needs_ready_module_witness :
  WithLogger.handleQueryTool (closeDatabase (readyState false)) (rowsDriver 3) 5
    {| sql := "SELECT * FROM t"; limit := None; offset := None |}
  = (failure "Database not initialized. Call initializeDatabase() first",
     ([Logger.debug "Query validation passed" None], [])).
Proof.
  apply (handleQueryTool_needs_ready_module unit (readyState false) (rowsDriver 3) 5
           {| sql := "SELECT * FROM t"; limit := None; offset := None |});
    try reflexivity; try discriminate; cbn; lia.
Defined.

(* ------------------------------------------------------------------ *)
(** ** More on the connection lifecycle *)

(** X13. The three accessors agree on every state of the module:
    [getDatabase] returns a pool exactly when [waitForDatabase] returns that
    pool without awaiting, and exactly then [isDatabaseReady] answers true;
    otherwise [getDatabase] throws the "not initialized" error and
    [waitForDatabase] either throws "not started" or goes on to await. *)
Theorem accessors_agree (st : State) :
  (forall pool,
      getDatabase st = Returns pool <-> waitForDatabase st = ReturnsNow pool) /\
  (isDatabaseReady st = true <-> exists pool, getDatabase st = Returns pool) /\
  (isDatabaseReady st = false ->
   getDatabase st = Throws "Database not initialized. Call initializeDatabase() first" /\
   (waitForDatabase st = ThrowsNow notStartedError /\ initPromise st = None \/
    waitForDatabase st = AwaitsRace /\ initPromise st <> None)).
Proof.
  unfold getDatabase, waitForDatabase, isDatabaseReady.
  destruct (connectionPool st) as [pool|], (isInitialized st),
    (initPromise st) as [p|]; cbn;
    repeat split; intros; try discriminate; try congruence; eauto;
    try (destruct H; discriminate);
    try (right; split; [reflexivity | discriminate]).
Qed.

Lemma initializeDatabase_sets_flag (env : InitEnv) (st st' : State) :
  initializeDatabase env st = (st', Returns tt) -> isInitialized st' = true.
Proof.
  unfold initializeDatabase, initFailure.
  destruct (isInitialized st) eqn:Hi; [now intros [= <-]|].
  destruct (tunnelOutcome env); [|discriminate].
  destruct (configOutcome env); [|discriminate].
  destruct (probeOutcome env); [|discriminate].
  now intros [= <-].
Qed.

(** X14. After an [initializeDatabase] that returned normally, calling it
    again does nothing, whatever the environment answers: the state is the
    same, so no second pool or tunnel is created. *)
Theorem initializeDatabase_once (env env' : InitEnv) (st st' : State) :
  initializeDatabase env st = (st', Returns tt) ->
  initializeDatabase env' st' = (st', Returns tt).
Proof.
  intros H. apply initializeDatabase_sets_flag in H.
  unfold initializeDatabase. now rewrite H.
Qed.

Lemma initializeDatabase_once_witness :
  initializeDatabase
    {| tunnelOutcome := Throws "unreachable"; configOutcome := Throws "gone";
       probeOutcome := Throws "down" |}
    (fst (initializeDatabase sampleEnv initialState))
  = (fst (initializeDatabase sampleEnv initialState), Returns tt).
Proof.
  apply (initializeDatabase_once sampleEnv _ initialState). reflexivity.
Defined.

(** X15. An [initializeDatabase] that throws leaves the module not ready and
    without a tunnel; the error it throws is the cause behind the prefix
    "Failed to initialize database connection: ", and a promise that was
    still unsettled is rejected with that same error, so that
    [waitForDatabase] goes on to the race and the waiters see it. *)
Theorem initializeDatabase_failure
        (env : InitEnv) (st st' : State) (message : string) :
  initializeDatabase env st = (st', Throws message) ->
  (exists cause,
      message = "Failed to initialize database connection: " ++ cause /\
      (tunnelOutcome env = Throws cause \/ configOutcome env = Throws cause \/
       probeOutcome env = Throws cause)) /\
  isInitialized st' = false /\
  sshTunnel st' = None /\
  isDatabaseReady st' = false /\
  waitForDatabase st' = AwaitsRace /\
  (initPromise st = None \/ initPromise st = Some Pending ->
   initPromise st' = Some (Rejected message)).
Proof.
  unfold initializeDatabase, initFailure.
  destruct (isInitialized st) eqn:Hi; [discriminate|].
  assert (Hgen : forall cause pool insecure,
    tunnelOutcome env = Throws cause \/ configOutcome env = Throws cause \/
    probeOutcome env = Throws cause ->
    ({| connectionPool := pool; isInitialized := false; sshTunnel := None;
        insecureMode := insecure;
        initPromise :=
          rejectPromise (match initPromise st with
                         | Some p => Some p
                         | None => Some Pending
                         end)
                        ("Failed to initialize database connection: " ++ cause) |},
     @Throws unit ("Failed to initialize database connection: " ++ cause))
    = (st', Throws message) ->
    (exists cause0,
        message = "Failed to initialize database connection: " ++ cause0 /\
        (tunnelOutcome env = Throws cause0 \/ configOutcome env = Throws cause0 \/
         probeOutcome env = Throws cause0)) /\
    isInitialized st' = false /\ sshTunnel st' = None /\
    isDatabaseReady st' = false /\ waitForDatabase st' = AwaitsRace /\
    (initPromise st = None \/ initPromise st = Some Pending ->
     initPromise st' = Some (Rejected message))).
  { intros cause pool insecure Hc [= <- <-].
    split; [exists cause; auto|].
    unfold isDatabaseReady, waitForDatabase. cbn.
    repeat split.
    - destruct (initPromise st) as [[| |m]|]; reflexivity.
    - intros [-> | ->]; reflexivity. }
  destruct (tunnelOutcome env) as [tunnel|cause] eqn:Ht;
    [|cbn; apply (Hgen cause _ _); auto].
  destruct (configOutcome env) as [config|cause] eqn:Hc;
    [|cbn; apply (Hgen cause _ _); auto].
  destruct (probeOutcome env) as [[]|cause] eqn:Hp; [discriminate|].
  cbn. apply (Hgen cause _ _); auto.
Qed.

Lemma initializeDatabase_failure_witness :
  initPromise
    (fst (initializeDatabase
            {| tunnelOutcome := Returns (Some {| localPort := 40000 |});
               configOutcome := Returns sampleConfig;
               probeOutcome := Throws "connection refused" |} initialState))
  = Some (Rejected
            "Failed to initialize database connection: connection refused").
Proof.
  apply (initializeDatabase_failure
           {| tunnelOutcome := Returns (Some {| localPort := 40000 |});
              configOutcome := Returns sampleConfig;
              probeOutcome := Throws "connection refused" |}
           initialState _ _ eq_refl).
  left. reflexivity.
Defined.

(** X16. [closeDatabase] can be called any number of times: a second call
    changes nothing.  After it there is no pool and no tunnel, the module is
    not ready, [getDatabase] throws, and the insecure flag and the
    initialization promise are what they were. *)
Theorem closeDatabase_idempotent (st : State) :
  closeDatabase (closeDatabase st) = closeDatabase st /\
  connectionPool (closeDatabase st) = None /\
  sshTunnel (closeDatabase st) = None /\
  isDatabaseReady (closeDatabase st) = false /\
  getDatabase (closeDatabase st)
  = Throws "Database not initialized. Call initializeDatabase() first" /\
  insecureMode (closeDatabase st) = insecureMode st /\
  initPromise (closeDatabase st) = initPromise st.
Proof.
  unfold closeDatabase, isDatabaseReady, getDatabase.
  destruct st as [pool init tunnel mode promise].
  destruct pool, tunnel, init; cbn; repeat split.
Qed.

Lemma initializeDatabase_promise (env : InitEnv) (st : State) :
  promiseInvariant st ->
  initPromise (fst (initializeDatabase env st)) <> None /\
  promiseInvariant (fst (initializeDatabase env st)).
Proof.
  intros Hinv. unfold initializeDatabase, initFailure, promiseInvariant.
  destruct (isInitialized st) eqn:Hi; [cbn; rewrite Hi; auto|].
  destruct (tunnelOutcome env), (configOutcome env), (probeOutcome env); cbn;
    destruct (initPromise st) as [[| |m]|]; cbn; split; try discriminate;
    intros; discriminate.
Qed.

Lemma closeDatabase_promise (st : State) :
  initPromise (closeDatabase st) = initPromise st /\
  (promiseInvariant st -> promiseInvariant (closeDatabase st)).
Proof.
  unfold closeDatabase, promiseInvariant.
  destruct st as [pool init tunnel mode promise].
  destruct pool, tunnel, init; cbn; auto; split; auto; discriminate.
Qed.

Lemma fold_promise (calls : list Call) (st : State) :
  promiseInvariant st ->
  initPromise st <> None \/ existsb isInitializeCall calls = true ->
  initPromise (fold_left stateAfter calls st) <> None.
Proof.
  revert st. induction calls as [|c calls IH]; intros st Hinv H; cbn.
  - destruct H as [H | H]; [exact H | discriminate H].
  - destruct c as [env| | | |]; cbn in *;
      try (apply IH; [exact Hinv | exact H]).
    + destruct (initializeDatabase_promise env st Hinv) as [H1 H2].
      apply IH; auto.
    + destruct (closeDatabase_promise st) as [H1 H2].
      apply IH; [auto | rewrite H1; exact H].
Qed.

(** X17. Once [initializeDatabase] has been called - whether it succeeded or
    failed, and whatever was called afterwards, [closeDatabase] included -
    the initialization promise stays in place, so [waitForDatabase] never
    again answers with the "not started" error. *)
Theorem not_started_only_before_first_initialize (calls : list Call) :
  existsb isInitializeCall calls = true ->
  initPromise (run calls) <> None /\
  waitForDatabase (run calls) <> ThrowsNow notStartedError.
Proof.
  intros H.
  assert (Hp : initPromise (run calls) <> None).
  { apply fold_promise; [intros Hi; discriminate Hi | auto]. }
  split; [exact Hp|]. unfold waitForDatabase.
  destruct (isInitialized (run calls)), (connectionPool (run calls)),
    (initPromise (run calls)); congruence.
Qed.

Lemma not_started_only_before_first_initialize_witness :
  waitForDatabase (run [CallInitialize sampleEnv; CallClose])
  <> ThrowsNow notStartedError.
Proof.
  apply (not_started_only_before_first_initialize
           [CallInitialize sampleEnv; CallClose]).
  reflexivity.
Defined.

(** X18. An [initializeDatabase] that starts from a module that is not
    initialized and returns normally has opened the pool with the database,
    user, password and connection limit of the configuration, against
    127.0.0.1 and the tunnel's local port when a tunnel was opened and against
    the configured host and port otherwise; the module is ready, keeps the
    tunnel, and its insecure flag is the one of the configuration. *)
Theorem initializeDatabase_endpoint (env : InitEnv) (st st' : State) :
  isInitialized st = false ->
  initializeDatabase env st = (st', Returns tt) ->
  exists tunnel config,
    tunnelOutcome env = Returns tunnel /\
    configOutcome env = Returns config /\
    probeOutcome env = Returns tt /\
    connectionPool st'
    = Some {| poolHost := match tunnel with
                          | Some _ => "127.0.0.1"
                          | None => host config
                          end;
              poolPort := match tunnel with
                          | Some t => localPort t
                          | None => port config
                          end;
              poolDatabase := database config;
              poolUsername := username config;
              poolPassword := password config;
              poolMax := maxConnections config |} /\
    sshTunnel st' = tunnel /\
    insecureMode st' = insecure config /\
    isDatabaseReady st' = true /\
    (initPromise st = None \/ initPromise st = Some Pending ->
     initPromise st' = Some Fulfilled).
Proof.
  intros Hi. unfold initializeDatabase, initFailure. rewrite Hi.
  destruct (tunnelOutcome env) as [tunnel|]; [|discriminate].
  destruct (configOutcome env) as [config|]; [|discriminate].
  destruct (probeOutcome env) as [[]|]; [|discriminate].
  intros [= <-]. exists tunnel, config. cbn.
  repeat split. intros [-> | ->]; reflexivity.
Qed.

Lemma initializeDatabase_endpoint_witness :
  exists tunnel config,
    Returns (Some {| localPort := 40000 |}) = Returns tunnel /\
    Returns sampleConfig = Returns config /\
    Returns tt = Returns tt /\
    connectionPool
      (fst (initializeDatabase
              {| tunnelOutcome := Returns (Some {| localPort := 40000 |});
                 configOutcome := Returns sampleConfig;
                 probeOutcome := Returns tt |} initialState))
    = Some {| poolHost := match tunnel with
                          | Some _ => "127.0.0.1"
                          | None => host config
                          end;
              poolPort := match tunnel with
                          | Some t => localPort t
                          | None => port config
                          end;
              poolDatabase := database config;
              poolUsername := username config;
              poolPassword := password config;
              poolMax := maxConnections config |} /\
    sshTunnel
      (fst (initializeDatabase
              {| tunnelOutcome := Returns (Some {| localPort := 40000 |});
                 configOutcome := Returns sampleConfig;
                 probeOutcome := Returns tt |} initialState)) = tunnel /\
    insecureMode
      (fst (initializeDatabase
              {| tunnelOutcome := Returns (Some {| localPort := 40000 |});
                 configOutcome := Returns sampleConfig;
                 probeOutcome := Returns tt |} initialState)) = insecure config /\
    isDatabaseReady
      (fst (initializeDatabase
              {| tunnelOutcome := Returns (Some {| localPort := 40000 |});
                 configOutcome := Returns sampleConfig;
                 probeOutcome := Returns tt |} initialState)) = true /\
    (initPromise initialState = None \/ initPromise initialState = Some Pending ->
     initPromise
       (fst (initializeDatabase
               {| tunnelOutcome := Returns (Some {| localPort := 40000 |});
                  configOutcome := Returns sampleConfig;
                  probeOutcome := Returns tt |} initialState)) = Some Fulfilled).
Proof.
  apply (initializeDatabase_endpoint
           {| tunnelOutcome := Returns (Some {| localPort := 40000 |});
              configOutcome := Returns sampleConfig;
              probeOutcome := Returns tt |} initialState _ eq_refl eq_refl).
Defined.

(* ------------------------------------------------------------------ *)
(** ** The configuration loader *)

Section ConfigurationLoader.
Import Config.

Lemma required_all_set (env : Env) :
  filter (unset env) requiredVars = [] ->
  unset env "POSTGRES_HOST" = false /\ unset env "POSTGRES_DATABASE" = false /\
  unset env "POSTGRES_USER" = false /\ unset env "POSTGRES_PASSWORD" = false.
Proof.
  unfold requiredVars. cbn [filter].
  destruct (unset env "POSTGRES_HOST"), (unset env "POSTGRES_DATABASE"),
    (unset env "POSTGRES_USER"), (unset env "POSTGRES_PASSWORD");
    try discriminate; auto.
Qed.

Lemma set_value (env : Env) (name : string) :
  unset env name = false ->
  env name = Some (valueOf env name) /\ valueOf env name <> "".
Proof.
  unfold unset, valueOf. destruct (env name) as [v|]; [|discriminate].
  intros H. apply String.eqb_neq in H. auto.
Qed.

Lemma missing_or_not (env : Env) :
  (filter (unset env) requiredVars = [] /\
   negb (Nat.eqb (List.length (filter (unset env) requiredVars)) 0) = false) \/
  (filter (unset env) requiredVars <> [] /\
   negb (Nat.eqb (List.length (filter (unset env) requiredVars)) 0) = true).
Proof.
  destruct (filter (unset env) requiredVars); [left | right]; split;
    auto; discriminate.
Qed.

Lemma loadDatabaseConfig_flag (env : Env) (config : DatabaseConfig) :
  loadDatabaseConfig env = Returns config ->
  (insecure config = true <-> env "POSTGRES_INSECURE" = Some "true").
Proof.
  unfold loadDatabaseConfig.
  destruct (negb _); [discriminate|].
  destruct (parseInt10 (orDefault env "POSTGRES_PORT" "5432")) as [p|];
    [|discriminate].
  destruct ((p <? 1)%Z || (p >? 65535)%Z); [discriminate|].
  destruct (parseInt10 (orDefault env "POSTGRES_MAX_CONNECTIONS" "10")) as [m|];
    [|discriminate].
  destruct (m <? 1)%Z; [discriminate|].
  intros [= <-]. cbn [insecure].
  destruct (env "POSTGRES_INSECURE") as [v|]; [|split; discriminate].
  rewrite String.eqb_eq. split; congruence.
Qed.

(** X19. A configuration that [loadDatabaseConfig] returns holds the four
    required variables as they are set, none of them empty, a port between 1
    and 65535 and a connection limit of at least 1; its insecure flag is set
    exactly when POSTGRES_INSECURE is the string "true". *)
Theorem loadDatabaseConfig_accepted (env : Env) (config : DatabaseConfig) :
  loadDatabaseConfig env = Returns config ->
  (env "POSTGRES_HOST" = Some (host config) /\ host config <> "") /\
  (env "POSTGRES_DATABASE" = Some (database config) /\ database config <> "") /\
  (env "POSTGRES_USER" = Some (username config) /\ username config <> "") /\
  (env "POSTGRES_PASSWORD" = Some (password config) /\ password config <> "") /\
  (1 <= port config <= 65535)%Z /\
  (1 <= maxConnections config)%Z /\
  (insecure config = true <-> env "POSTGRES_INSECURE" = Some "true").
Proof.
  unfold loadDatabaseConfig.
  destruct (missing_or_not env) as [[Hm ->] | [_ ->]]; [|discriminate].
  destruct (required_all_set env Hm) as (H1 & H2 & H3 & H4).
  destruct (parseInt10 (orDefault env "POSTGRES_PORT" "5432")) as [p|];
    [|discriminate].
  destruct (Z.ltb_spec p 1) as [Hp1 | Hp1]; [discriminate|].
  destruct (Z.gtb_spec p 65535) as [Hp2 | Hp2]; [discriminate|]. cbn [orb].
  destruct (parseInt10 (orDefault env "POSTGRES_MAX_CONNECTIONS" "10")) as [m|];
    [|discriminate].
  destruct (Z.ltb_spec m 1) as [Hm1 | Hm1]; [discriminate|].
  intros [= <-]. cbn [host database username password port maxConnections insecure].
  repeat split; try (apply set_value; assumption); try lia.
  - destruct (env "POSTGRES_INSECURE") as [v|]; [|discriminate].
    intros Hv. apply String.eqb_eq in Hv. now subst v.
  - intros ->. reflexivity.
Qed.

Lemma loadDatabaseConfig_accepted_witness :
  (sampleEnvironment "POSTGRES_HOST" = Some "db.internal" /\ "db.internal" <> "") /\
  (sampleEnvironment "POSTGRES_DATABASE" = Some "app" /\ "app" <> "") /\
  (sampleEnvironment "POSTGRES_USER" = Some "reader" /\ "reader" <> "") /\
  (sampleEnvironment "POSTGRES_PASSWORD" = Some "secret" /\ "secret" <> "") /\
  (1 <= 6432 <= 65535)%Z /\
  (1 <= 10)%Z /\
  (false = true <-> sampleEnvironment "POSTGRES_INSECURE" = Some "true").
Proof.
  apply (loadDatabaseConfig_accepted sampleEnvironment
           {| host := "db.internal"; port := 6432; database := "app";
              username := "reader"; password := "secret";
              maxConnections := 10; insecure := false |}).
  reflexivity.
Defined.

(** X20. When [loadDatabaseConfig] throws, it is for one of three reasons,
    tried in this order: some required variable is unset or empty, and then
    the error lists exactly those variables, in the order HOST, DATABASE,
    USER, PASSWORD, whatever the port and the connection limit are; or the
    port does not parse to a number between 1 and 65535; or the connection
    limit does not parse to a number of at least 1. *)
Theorem loadDatabaseConfig_rejected (env : Env) (message : string) :
  loadDatabaseConfig env = Throws message ->
  (filter (unset env) requiredVars <> [] /\
   message = missingError (filter (unset env) requiredVars) /\
   forall name,
     In name (filter (unset env) requiredVars) <->
     In name requiredVars /\ unset env name = true) \/
  (filter (unset env) requiredVars = [] /\
   message = invalidPortError env /\
   forall p, parseInt10 (orDefault env "POSTGRES_PORT" "5432") = Some p ->
             (p < 1 \/ 65535 < p)%Z) \/
  (filter (unset env) requiredVars = [] /\
   message = invalidMaxConnectionsError env /\
   (exists p, parseInt10 (orDefault env "POSTGRES_PORT" "5432") = Some p /\
              (1 <= p <= 65535)%Z) /\
   forall m, parseInt10 (orDefault env "POSTGRES_MAX_CONNECTIONS" "10") = Some m ->
             (m < 1)%Z).
Proof.
  unfold loadDatabaseConfig.
  destruct (missing_or_not env) as [[Hm ->] | [Hm ->]].
  - destruct (parseInt10 (orDefault env "POSTGRES_PORT" "5432")) as [p|].
    + destruct (Z.ltb_spec p 1) as [Hp1 | Hp1];
        [intros [= <-]; right; left; split; [exact Hm|]; split; [reflexivity|];
         intros ? [= <-]; lia|].
      destruct (Z.gtb_spec p 65535) as [Hp2 | Hp2];
        [intros [= <-]; right; left; split; [exact Hm|]; split; [reflexivity|];
         intros ? [= <-]; lia|].
      cbn [orb].
      destruct (parseInt10 (orDefault env "POSTGRES_MAX_CONNECTIONS" "10")) as [m|].
      * destruct (Z.ltb_spec m 1) as [Hm1 | Hm1]; [|discriminate].
        intros [= <-]. right. right.
        split; [exact Hm|]. split; [reflexivity|]. split.
        -- exists p. split; [reflexivity | lia].
        -- intros ? [= <-]. lia.
      * intros [= <-]. right. right.
        split; [exact Hm|]. split; [reflexivity|]. split.
        -- exists p. split; [reflexivity | lia].
        -- discriminate.
    + intros [= <-]. right. left.
      split; [exact Hm|]. split; [reflexivity|]. discriminate.
  - intros [= <-]. left. split; [exact Hm|]. split; [reflexivity|].
    intros name. rewrite filter_In. tauto.
Qed.

Lemma loadDatabaseConfig_rejected_witness :
  loadDatabaseConfig (fun name => if String.eqb name "POSTGRES_PORT"
                                  then Some "99999"
                                  else if String.eqb name "POSTGRES_USER"
                                       then Some "reader" else Some "")
  = Throws ("Missing required environment variables: " ++
            "POSTGRES_HOST, POSTGRES_DATABASE, POSTGRES_PASSWORD" ++
            String (ascii_of_nat 10)
              "Please configure these in your .mcp.json file or .env file").
Proof.
  destruct (loadDatabaseConfig_rejected
              (fun name => if String.eqb name "POSTGRES_PORT"
                           then Some "99999"
                           else if String.eqb name "POSTGRES_USER"
                                then Some "reader" else Some "")
              _ eq_refl) as [(_ & H & _) | [(H & _) | (H & _)]];
    [reflexivity | discriminate H | discriminate H].
Defined.

Lemma leadingDigits_app (digits rest : string) :
  allChars isDigit digits = true -> headIs isDigit rest = false ->
  forall acc, leadingDigits acc (digits ++ rest) = leadingDigits acc digits.
Proof.
  intros Hd Hr. induction digits as [|d ds IH]; intros acc.
  - destruct rest as [|c r]; [reflexivity|]. cbn in Hr |- *. now rewrite Hr.
  - cbn [allChars] in Hd. apply andb_prop in Hd. destruct Hd as [Hd Hds].
    cbn [append leadingDigits]. rewrite Hd. apply (IH Hds).
Qed.

Lemma digit_not_sign (d : ascii) :
  isDigit d = true -> Ascii.eqb "-" d = false /\ Ascii.eqb "+" d = false.
Proof. ascii_cases d. Qed.

Lemma parseInt10_lenient (ws digits rest : string) :
  allChars isWhiteSpace ws = true ->
  allChars isDigit digits = true -> digits <> "" ->
  headIs isDigit rest = false ->
  parseInt10 (ws ++ digits ++ rest) = Some (leadingDigits 0 digits).
Proof.
  intros Hws Hd Hne Hr. unfold parseInt10.
  rewrite (trimStart_whitespace ws _ Hws).
  destruct digits as [|d ds]; [congruence|].
  pose proof Hd as Hd'. cbn [allChars] in Hd'. apply andb_prop in Hd'.
  destruct Hd' as [Hd1 _].
  cbn [append trimStart]. rewrite (digit_not_whitespace d Hd1).
  cbn [headIs]. destruct (digit_not_sign d Hd1) as [-> ->]. cbn [orb headIs].
  rewrite Hd1. f_equal.
  apply (leadingDigits_app (String d ds) rest Hd Hr).
Qed.

(** X21. The port is read leniently, as [parseInt] reads: white space in
    front of the digits and any text behind them are ignored.  If the
    required variables are set, POSTGRES_PORT holds digits that denote a
    number between 1 and 65535, with such surroundings, and the connection
    limit is left unset, the configuration is accepted with that port, the
    default limit of 10, and the insecure flag unset unless POSTGRES_INSECURE
    is exactly "true". *)
Theorem loadDatabaseConfig_lenient_port
        (env : Env) (ws digits rest : string) :
  filter (unset env) requiredVars = [] ->
  unset env "POSTGRES_MAX_CONNECTIONS" = true ->
  allChars isWhiteSpace ws = true ->
  allChars isDigit digits = true -> digits <> "" ->
  headIs isDigit rest = false ->
  (1 <= leadingDigits 0 digits <= 65535)%Z ->
  env "POSTGRES_PORT" = Some (ws ++ digits ++ rest) ->
  exists config,
    loadDatabaseConfig env = Returns config /\
    port config = leadingDigits 0 digits /\ maxConnections config = 10%Z /\
    insecure config = match env "POSTGRES_INSECURE" with
                      | Some value => String.eqb value "true"
                      | None => false
                      end.
Proof.
  intros Hm Hmax Hws Hd Hne Hr Hrange Hport.
  assert (Hmax' : orDefault env "POSTGRES_MAX_CONNECTIONS" "10" = "10").
  { unfold unset in Hmax. unfold orDefault.
    destruct (env "POSTGRES_MAX_CONNECTIONS"); [now rewrite Hmax | reflexivity]. }
  assert (Hp : orDefault env "POSTGRES_PORT" "5432" = ws ++ digits ++ rest).
  { unfold orDefault. rewrite Hport.
    destruct ws; [destruct digits; [congruence|]|]; reflexivity. }
  unfold loadDatabaseConfig.
  destruct (missing_or_not env) as [[_ ->] | [H _]]; [|congruence].
  rewrite Hp, (parseInt10_lenient ws digits rest), Hmax' by assumption.
  destruct (Z.ltb_spec (leadingDigits 0 digits) 1); [lia|].
  destruct (Z.gtb_spec (leadingDigits 0 digits) 65535); [lia|].
  cbn. eexists. split; [reflexivity|]. cbn. auto.
Qed.

Lemma loadDatabaseConfig_lenient_port_witness :
  exists config,
    loadDatabaseConfig sampleEnvironment = Returns config /\
    port config = leadingDigits 0 "6432" /\ maxConnections config = 10%Z /\
    insecure config = match sampleEnvironment "POSTGRES_INSECURE" with
                      | Some value => String.eqb value "true"
                      | None => false
                      end.
Proof.
  apply (loadDatabaseConfig_lenient_port sampleEnvironment " " "6432" " ");
    try reflexivity; try discriminate.
  vm_compute. split; discriminate.
Defined.

(** With the required variables set and the port and the connection
    limit unset or empty, the configuration is accepted with the defaults:
    port 5432 and at most 10 connections; the other fields are the required
    variables. *)
Theorem loadDatabaseConfig_defaults (env : Env) :
  filter (unset env) requiredVars = [] ->
  unset env "POSTGRES_PORT" = true ->
  unset env "POSTGRES_MAX_CONNECTIONS" = true ->
  loadDatabaseConfig env
  = Returns {| host := valueOf env "POSTGRES_HOST";
               port := 5432;
               database := valueOf env "POSTGRES_DATABASE";
               username := valueOf env "POSTGRES_USER";
               password := valueOf env "POSTGRES_PASSWORD";
               maxConnections := 10;
               insecure := match env "POSTGRES_INSECURE" with
                           | Some value => String.eqb value "true"
                           | None => false
                           end |}.
Proof.
  intros Hm Hport Hmax.
  assert (Hdefault : forall name fallback,
             unset env name = true -> orDefault env name fallback = fallback).
  { intros name fallback H. unfold unset in H. unfold orDefault.
    destruct (env name); [now rewrite H | reflexivity]. }
  unfold loadDatabaseConfig.
  destruct (missing_or_not env) as [[_ ->] | [H _]]; [|congruence].
  rewrite !Hdefault by assumption. reflexivity.
Qed.

Lemma loadDatabaseConfig_defaults_witness :
  loadDatabaseConfig (fun name => if String.eqb name "POSTGRES_PORT"
                                  then Some "" else
                                  if String.eqb name "POSTGRES_MAX_CONNECTIONS"
                                  then None else Some "x")
  = Returns {| host := "x"; port := 5432; database := "x"; username := "x";
               password := "x"; maxConnections := 10; insecure := false |}.
Proof.
  apply (loadDatabaseConfig_defaults
           (fun name => if String.eqb name "POSTGRES_PORT"
                        then Some "" else
                        if String.eqb name "POSTGRES_MAX_CONNECTIONS"
                        then None else Some "x")); reflexivity.
Defined.

End ConfigurationLoader.

(* ------------------------------------------------------------------ *)
(** ** The tunnel configuration and the start of the server *)

Section TunnelConfiguration.
Import Config SshTunnel.

Lemma tunnel_flag (env : Env) :
  match env "SSH_TUNNEL_ENABLED" with
  | Some value => String.eqb value "true"
  | None => false
  end = true <-> env "SSH_TUNNEL_ENABLED" = Some "true".
Proof.
  destruct (env "SSH_TUNNEL_ENABLED") as [v|]; [|split; discriminate].
  rewrite String.eqb_eq. split; congruence.
Qed.

Lemma tunnel_off
      (env : Env) (createSSHTunnel : SSHTunnelConfig -> Completion SSHTunnel) :
  env "SSH_TUNNEL_ENABLED" <> Some "true" ->
  loadSSHTunnelConfig env = Returns None /\
  initializeSSHTunnelIfNeeded env createSSHTunnel = Returns None.
Proof.
  intros H.
  assert (E : loadSSHTunnelConfig env = Returns None).
  { unfold loadSSHTunnelConfig. pose proof (tunnel_flag env) as Hf.
    destruct (match env "SSH_TUNNEL_ENABLED" with
              | Some value => String.eqb value "true"
              | None => false
              end); [|reflexivity].
    exfalso. apply H, Hf. reflexivity. }
  split; [exact E|]. unfold initializeSSHTunnelIfNeeded. now rewrite E.
Qed.

(** X22. Unless SSH_TUNNEL_ENABLED is exactly "true" the tunnel is off:
    [loadSSHTunnelConfig] returns no configuration without looking at any
    other SSH variable, and [initializeSSHTunnelIfNeeded] returns no tunnel
    without trying to open one. *)
Theorem tunnel_disabled_by_default
        (env : Env) (createSSHTunnel createSSHTunnel' : SSHTunnelConfig -> Completion SSHTunnel) :
  env "SSH_TUNNEL_ENABLED" <> Some "true" ->
  loadSSHTunnelConfig env = Returns None /\
  initializeSSHTunnelIfNeeded env createSSHTunnel = Returns None /\
  initializeSSHTunnelIfNeeded env createSSHTunnel
  = initializeSSHTunnelIfNeeded env createSSHTunnel'.
Proof.
  intros H. destruct (tunnel_off env createSSHTunnel H) as [H1 H2].
  destruct (tunnel_off env createSSHTunnel' H) as [_ H3].
  rewrite H2, H3. auto.
Qed.

Lemma tunnel_disabled_by_default_witness :
  loadSSHTunnelConfig sampleEnvironment = Returns None /\
  initializeSSHTunnelIfNeeded sampleEnvironment (fun _ => Throws "unreachable")
  = Returns None /\
  initializeSSHTunnelIfNeeded sampleEnvironment (fun _ => Throws "unreachable")
  = initializeSSHTunnelIfNeeded sampleEnvironment
      (fun _ => Returns {| localPort := 40000 |}).
Proof.
  apply (tunnel_disabled_by_default sampleEnvironment). discriminate.
Defined.

(** X23. A tunnel configuration that [loadSSHTunnelConfig] returns is
    enabled, names a host and a user that are not empty, carries at least one
    credential that is not empty (password, key file or key), has an SSH port
    between 1 and 65535 and a target host that is not empty. *)
Theorem loadSSHTunnelConfig_accepted (env : Env) (config : SSHTunnelConfig) :
  loadSSHTunnelConfig env = Returns (Some config) ->
  env "SSH_TUNNEL_ENABLED" = Some "true" /\
  enabled config = true /\
  (env "SSH_HOST" = Some (sshHost config) /\ sshHost config <> "") /\
  (env "SSH_USERNAME" = Some (sshUsername config) /\ sshUsername config <> "") /\
  ((exists secret, sshPassword config = Some secret /\ secret <> "") \/
   (exists path, privateKeyPath config = Some path /\ path <> "") \/
   (exists key, privateKey config = Some key /\ key <> "")) /\
  (1 <= sshPort config <= 65535)%Z /\
  targetHost config <> "".
Proof.
  unfold loadSSHTunnelConfig. pose proof (tunnel_flag env) as Hf.
  destruct (match env "SSH_TUNNEL_ENABLED" with
            | Some value => String.eqb value "true"
            | None => false
            end); [|discriminate]. cbn [negb].
  cbn [filter].
  destruct (unset env "SSH_HOST") eqn:Hh;
    [destruct (unset env "SSH_USERNAME"); discriminate|].
  destruct (unset env "SSH_USERNAME") eqn:Hu; [discriminate|]. cbn.
  destruct (unset env "SSH_PASSWORD" && unset env "SSH_PRIVATE_KEY_PATH"
            && unset env "SSH_PRIVATE_KEY") eqn:Hauth; [discriminate|].
  destruct (parseInt10 (orDefault env "SSH_PORT" "22")) as [p|]; [|discriminate].
  destruct (Z.ltb_spec p 1) as [Hp1 | Hp1]; [discriminate|].
  destruct (Z.gtb_spec p 65535) as [Hp2 | Hp2]; [discriminate|].
  intros [= <-]. cbn.
  split; [apply Hf; reflexivity|]. split; [reflexivity|].
  split; [apply set_value, Hh|]. split; [apply set_value, Hu|].
  split; [|split; [lia|]].
  - assert (Hset : forall name, unset env name = false ->
                     exists v, env name = Some v /\ v <> "").
    { intros name H. exists (valueOf env name). apply set_value, H. }
    destruct (unset env "SSH_PASSWORD") eqn:H1; [|left; apply Hset, H1].
    destruct (unset env "SSH_PRIVATE_KEY_PATH") eqn:H2;
      [|right; left; apply Hset, H2].
    destruct (unset env "SSH_PRIVATE_KEY") eqn:H3; [discriminate Hauth|].
    right; right; apply Hset, H3.
  - unfold orDefault. destruct (env "POSTGRES_HOST") as [v|]; [|discriminate].
    destruct (String.eqb_spec v ""); [discriminate | assumption].
Qed.

Lemma loadSSHTunnelConfig_accepted_witness :
  sampleTunnelEnvironment "SSH_TUNNEL_ENABLED" = Some "true" /\
  true = true /\
  (sampleTunnelEnvironment "SSH_HOST" = Some "bastion" /\ "bastion" <> "") /\
  (sampleTunnelEnvironment "SSH_USERNAME" = Some "jump" /\ "jump" <> "") /\
  ((exists secret, Some "" = Some secret /\ secret <> "") \/
   (exists path, @None string = Some path /\ path <> "") \/
   (exists key, Some "key material" = Some key /\ key <> "")) /\
  (1 <= 22 <= 65535)%Z /\
  "db.internal" <> "".
Proof.
  apply (loadSSHTunnelConfig_accepted sampleTunnelEnvironment
           {| enabled := true; sshHost := "bastion"; sshPort := 22;
              sshUsername := "jump"; sshPassword := Some "";
              privateKeyPath := None; privateKey := Some "key material";
              passphrase := None; targetHost := "db.internal";
              targetPort := Some 5432%Z; tunnelLocalPort := Some 0%Z |}).
  reflexivity.
Defined.

(** X24. At the start of the server with the tunnel off: if some required
    database variable is unset or empty, [initializeDatabase] throws the
    error that lists the missing variables behind the prefix "Failed to
    initialize database connection: ", without probing anything, and the
    module is not ready; if the configuration loads and the probe succeeds,
    the pool is opened against the configured host and port and the module is
    ready, in insecure mode exactly when POSTGRES_INSECURE is "true". *)
Theorem server_start_without_tunnel
        (env : Env) (createSSHTunnel : SSHTunnelConfig -> Completion SSHTunnel)
        (probe : Completion unit) :
  env "SSH_TUNNEL_ENABLED" <> Some "true" ->
  (filter (unset env) requiredVars <> [] ->
   snd (initializeDatabaseFrom env createSSHTunnel probe initialState)
   = Throws ("Failed to initialize database connection: " ++
             missingError (filter (unset env) requiredVars)) /\
   isDatabaseReady
     (fst (initializeDatabaseFrom env createSSHTunnel probe initialState))
   = false) /\
  (forall config,
      loadDatabaseConfig env = Returns config -> probe = Returns tt ->
      snd (initializeDatabaseFrom env createSSHTunnel probe initialState)
      = Returns tt /\
      getDatabase
        (fst (initializeDatabaseFrom env createSSHTunnel probe initialState))
      = Returns {| poolHost := host config; poolPort := port config;
                   poolDatabase := database config;
                   poolUsername := username config;
                   poolPassword := password config;
                   poolMax := maxConnections config |} /\
      (isInsecureMode
         (fst (initializeDatabaseFrom env createSSHTunnel probe initialState))
       = true <-> env "POSTGRES_INSECURE" = Some "true")).
Proof.
  intros Hoff.
  destruct (tunnel_off env createSSHTunnel Hoff) as [_ Ht].
  unfold initializeDatabaseFrom, initializeDatabase, initFailure.
  cbn [isInitialized initialState tunnelOutcome configOutcome probeOutcome].
  rewrite Ht. split.
  - intros Hm. unfold loadDatabaseConfig.
    destruct (missing_or_not env) as [[H _] | [_ ->]]; [congruence|].
    cbn. auto.
  - intros config Hc ->. rewrite Hc. cbn. repeat split.
    + intros H. apply (loadDatabaseConfig_flag env config Hc), H.
    + intros H. apply (loadDatabaseConfig_flag env config Hc), H.
Qed.

Lemma server_start_without_tunnel_witness :
  snd (initializeDatabaseFrom sampleEnvironment (fun _ => Throws "unreachable")
         (Returns tt) initialState) = Returns tt /\
  getDatabase
    (fst (initializeDatabaseFrom sampleEnvironment (fun _ => Throws "unreachable")
            (Returns tt) initialState))
  = Returns {| poolHost := "db.internal"; poolPort := 6432;
               poolDatabase := "app"; poolUsername := "reader";
               poolPassword := "secret"; poolMax := 10 |} /\
  (isInsecureMode
     (fst (initializeDatabaseFrom sampleEnvironment (fun _ => Throws "unreachable")
             (Returns tt) initialState)) = true <->
   sampleEnvironment "POSTGRES_INSECURE" = Some "true").
Proof.
  apply (proj2 (server_start_without_tunnel sampleEnvironment
                  (fun _ => Throws "unreachable") (Returns tt)
                  ltac:(discriminate))
           {| host := "db.internal"; port := 6432; database := "app";
              username := "reader"; password := "secret";
              maxConnections := 10; insecure := false |});
    reflexivity.
Defined.

End TunnelConfiguration.

(* ------------------------------------------------------------------ *)
(** ** The catalogue tools *)

Section CatalogueTools.
Import Tools.

Lemma schemaOrPublic_cases (schema : option string) :
  (schema = None \/ schema = Some "") /\ schemaOrPublic schema = "public" \/
  exists name, schema = Some name /\ name <> "" /\ schemaOrPublic schema = name.
Proof.
  destruct schema as [name|]; [|left; auto]. cbn.
  destruct (String.eqb_spec name "") as [-> | Hne]; [left; auto|].
  right. exists name. auto.
Qed.

(** X25. [handleListTablesTool] asks for the schema it was given, or for
    "public" when none or an empty one was given.  On a module that is not
    ready it fails at once with the "not initialized" error, without asking
    the driver; when the driver answers with rows it hands back all of them
    with their count - the cap of [MAX_ROWS] is not applied here; a driver
    error or the timeout is reported with its message as it is. *)
Theorem handleListTablesTool_outcomes
        (Row : Type) (st : State) (listQuery : Pool -> string -> CatalogueOutcome Row)
        (input : ListTablesToolInput) :
  ((listSchema input = None \/ listSchema input = Some "") /\
   schemaOrPublic (listSchema input) = "public" \/
   exists name, listSchema input = Some name /\ name <> "" /\
                schemaOrPublic (listSchema input) = name) /\
  (isDatabaseReady st = false ->
   handleListTablesTool st listQuery input
   = listFailure "Database not initialized. Call initializeDatabase() first") /\
  (forall pool,
      getDatabase st = Returns pool ->
      match listQuery pool (schemaOrPublic (listSchema input)) with
      | CatalogueRows rows =>
          handleListTablesTool st listQuery input
          = {| listSuccess := true; tables := Some rows;
               tableCount := Some (Z.of_nat (List.length rows));
               listError := None |}
      | CatalogueRejected message =>
          handleListTablesTool st listQuery input = listFailure message
      | CatalogueTimeout =>
          handleListTablesTool st listQuery input
          = listFailure "Query timeout: exceeded 30000ms"
      end).
Proof.
  split; [apply schemaOrPublic_cases|]. unfold handleListTablesTool. split.
  - intros Hr. destruct (getDatabase_cases st) as [(pool & _ & Hp & Hi) | [-> _]];
      [|reflexivity].
    unfold isDatabaseReady in Hr. rewrite Hp, Hi in Hr. discriminate Hr.
  - intros pool ->.
    destruct (listQuery pool (schemaOrPublic (listSchema input))); reflexivity.
Qed.

Lemma handleListTablesTool_outcomes_witness :
  handleListTablesTool initialState
    (fun _ _ => CatalogueRows [tt; tt]) {| listSchema := Some "" |}
  = listFailure "Database not initialized. Call initializeDatabase() first".
Proof.
  apply (handleListTablesTool_outcomes unit initialState
           (fun _ _ => CatalogueRows [tt; tt]) {| listSchema := Some "" |}).
  reflexivity.
Defined.

Lemma describeWithPool_success
      (Row : Type) (db : Pool) (queries : DescribeQueries Row) (schema name : string) :
  describeSuccess (describeWithPool db queries schema name) = true ->
  exists cols idx fks,
    columnsQuery queries db schema name = CatalogueRows cols /\ cols <> [] /\
    indexesQuery queries db schema name = CatalogueRows idx /\
    foreignKeysQuery queries db schema name = CatalogueRows fks /\
    describeWithPool db queries schema name
    = {| describeSuccess := true; tableName := Some name;
         resultSchema := Some schema; columns := Some cols;
         indexes := Some idx; foreignKeys := Some fks;
         describeError := None |}.
Proof.
  unfold describeWithPool.
  destruct (columnsQuery queries db schema name) as [cols| |]; try discriminate.
  destruct (Z.eqb_spec (rowsLength cols) 0) as [H0 | H0]; [discriminate|].
  destruct (indexesQuery queries db schema name) as [idx| |]; try discriminate.
  destruct (foreignKeysQuery queries db schema name) as [fks| |];
    try discriminate.
  intros _. exists cols, idx, fks. repeat split; auto.
  intros ->. apply H0. reflexivity.
Qed.

Lemma describeWithPool_missing
      (Row : Type) (db : Pool) (queries : DescribeQueries Row) (schema name : string) :
  columnsQuery queries db schema name = CatalogueRows [] ->
  describeWithPool db queries schema name
  = describeFailure (tableNotFoundError schema name).
Proof. unfold describeWithPool. now intros ->. Qed.

(** X26. [handleDescribeTableTool] refuses an empty table name before it
    touches the module.  A success means that the column query, made for the
    given table in the given schema (or "public"), produced at least one
    column and that the index and foreign-key queries resolved too; the
    answer repeats the table, the schema and the three row sets.  When the
    pool is at hand and the column query produces no row, the answer is the
    "Table 'schema.table' not found" failure, whatever the two other queries
    would say. *)
Theorem handleDescribeTableTool_outcomes
        (Row : Type) (st : State) (winner : RaceWinner) (settled : State)
        (queries : DescribeQueries Row) (input : DescribeTableToolInput) :
  (table input = "" ->
   handleDescribeTableTool st winner settled queries input
   = describeFailure
       "Invalid input: table parameter is required and must be a string") /\
  (describeSuccess (handleDescribeTableTool st winner settled queries input)
   = true ->
   table input <> "" /\
   exists db cols idx fks,
     columnsQuery queries db (schemaOrPublic (describeSchema input)) (table input)
     = CatalogueRows cols /\ cols <> [] /\
     indexesQuery queries db (schemaOrPublic (describeSchema input)) (table input)
     = CatalogueRows idx /\
     foreignKeysQuery queries db (schemaOrPublic (describeSchema input))
       (table input) = CatalogueRows fks /\
     handleDescribeTableTool st winner settled queries input
     = {| describeSuccess := true; tableName := Some (table input);
          resultSchema := Some (schemaOrPublic (describeSchema input));
          columns := Some cols; indexes := Some idx; foreignKeys := Some fks;
          describeError := None |}) /\
  (forall db,
      table input <> "" -> getDatabase st = Returns db ->
      columnsQuery queries db (schemaOrPublic (describeSchema input)) (table input)
      = CatalogueRows [] ->
      handleDescribeTableTool st winner settled queries input
      = describeFailure
          ("Table '" ++ schemaOrPublic (describeSchema input) ++ "." ++
           table input ++ "' not found")).
Proof.
  unfold handleDescribeTableTool. split; [intros ->; reflexivity|]. split.
  - destruct (String.eqb_spec (table input) "") as [He | He]; [discriminate|].
    intros H. split; [exact He|].
    destruct (waitForDatabase st) as [db| |]; [| discriminate |].
    + destruct (describeWithPool_success Row db queries _ _ H)
        as (cols & idx & fks & H1 & H2 & H3 & H4 & H5).
      exists db, cols, idx, fks. auto.
    + destruct (waitForDatabaseSettled 10000 winner settled) as [db|];
        [|discriminate].
      destruct (describeWithPool_success Row db queries _ _ H)
        as (cols & idx & fks & H1 & H2 & H3 & H4 & H5).
      exists db, cols, idx, fks. auto.
  - intros db He Hdb Hcols. apply String.eqb_neq in He. rewrite He.
    unfold getDatabase in Hdb. unfold waitForDatabase.
    destruct (connectionPool st) as [pool|]; [|discriminate].
    destruct (isInitialized st); [|discriminate].
    injection Hdb as ->. apply describeWithPool_missing, Hcols.
Qed.

Lemma handleDescribeTableTool_outcomes_witness :
  handleDescribeTableTool (readyState false) TimerFired initialState
    {| columnsQuery := fun _ _ _ => CatalogueRows [];
       indexesQuery := fun _ _ _ => @CatalogueTimeout unit;
       foreignKeysQuery := fun _ _ _ => CatalogueRejected "denied" |}
    {| table := "users"; describeSchema := None |}
  = describeFailure ("Table '" ++ "public" ++ "." ++ "users" ++ "' not found").
Proof.
  apply (proj2 (proj2 (handleDescribeTableTool_outcomes unit (readyState false)
           TimerFired initialState
           {| columnsQuery := fun _ _ _ => CatalogueRows [];
              indexesQuery := fun _ _ _ => @CatalogueTimeout unit;
              foreignKeysQuery := fun _ _ _ => CatalogueRejected "denied" |}
           {| table := "users"; describeSchema := None |})) samplePool);
    [discriminate | reflexivity | reflexivity].
Defined.

(** X27. While an initialization is still running (promise pending, module
    not ready), the tools differ: [handleListTablesTool] fails at once with
    the "not initialized" error, while [handleDescribeTableTool] waits for
    the initialization - it goes on with the pool once the promise is
    fulfilled, reports the initialization error when it is rejected, and
    reports "Database initialization timeout after 10000ms" when the timer
    fires first. *)
Theorem tools_during_initialization
        (Row : Type) (st settled : State) (pool : Pool)
        (listQuery : Pool -> string -> CatalogueOutcome Row)
        (queries : DescribeQueries Row)
        (listInput : ListTablesToolInput) (input : DescribeTableToolInput)
        (message : string) :
  isInitialized st = false ->
  initPromise st = Some Pending ->
  table input <> "" ->
  connectionPool settled = Some pool ->
  handleListTablesTool st listQuery listInput
  = listFailure "Database not initialized. Call initializeDatabase() first" /\
  handleDescribeTableTool st InitFulfilled settled queries input
  = describeWithPool pool queries (schemaOrPublic (describeSchema input))
      (table input) /\
  handleDescribeTableTool st (InitRejected message) settled queries input
  = describeFailure message /\
  handleDescribeTableTool st TimerFired settled queries input
  = describeFailure "Database initialization timeout after 10000ms".
Proof.
  intros Hi Hp Ht Hpool. split.
  - unfold handleListTablesTool, getDatabase. rewrite Hi.
    destruct (connectionPool st); reflexivity.
  - unfold handleDescribeTableTool, waitForDatabase, waitForDatabaseSettled.
    apply String.eqb_neq in Ht. rewrite Ht, Hi, Hp, Hpool.
    destruct (connectionPool st); repeat split.
Qed.

Lemma tools_during_initialization_witness :
  handleDescribeTableTool
    {| connectionPool := None; isInitialized := false; sshTunnel := None;
       insecureMode := false; initPromise := Some Pending |}
    TimerFired (readyState false)
    {| columnsQuery := fun _ _ _ => CatalogueRows [tt];
       indexesQuery := fun _ _ _ => CatalogueRows [];
       foreignKeysQuery := fun _ _ _ => CatalogueRows [] |}
    {| table := "users"; describeSchema := None |}
  = describeFailure "Database initialization timeout after 10000ms".
Proof.
  apply (tools_during_initialization unit
           {| connectionPool := None; isInitialized := false; sshTunnel := None;
              insecureMode := false; initPromise := Some Pending |}
           (readyState false) samplePool (fun _ _ => CatalogueRows [tt])
           {| columnsQuery := fun _ _ _ => CatalogueRows [tt];
              indexesQuery := fun _ _ _ => CatalogueRows [];
              foreignKeysQuery := fun _ _ _ => CatalogueRows [] |}
           {| listSchema := None |}
           {| table := "users"; describeSchema := None |} "x");
    try reflexivity. discriminate.
Defined.

End CatalogueTools.
